(** * CSV sorter (src/main.py): shallow embedding and verified properties

    The development follows the layout of [src/main.py]:

    - [PyStr]: the [str] methods the program calls ([strip], [lower],
      [replace], [join]) on strings of code points below 256;
    - [PyVal]: the three kinds of sort value ([str], [float], [datetime]),
      Python's [==] and [<] on them and on tuples of them, with [TypeError]
      for the comparisons Python refuses;
    - [Field], [SortConfig], [Config]: the configuration dictionaries;
    - [list_sort], [sorted]: the builtin sort, after CPython's [list.sort];
    - [Section Sorter]: the methods of class [CSVSorter], over the two library
      parsers ([float] and [dateutil.parser.parse]) taken as parameters;
    - closed instances of the parsers on a small fragment, for the worked
      examples;
    - the properties. *)

From Stdlib Require Import ZArith String Ascii List SpecFloat Permutation Sorted.
From Stdlib Require Import OrderedTypeEx.
From stdpp Require Import gmap strings list fin_maps.

Local Open Scope string_scope.
Local Open Scope list_scope.

(* ===================================================================== *)
(** ** Exceptions *)
(* ===================================================================== *)

(** The exceptions the modelled code can raise. [OSError] stands for every
    failure of [open] or of the reader (missing file, decoding error); the
    model does not tell these failures apart (in Python a decoding error is
    a [UnicodeDecodeError], which is a [ValueError]). *)
Inductive exn : Type :=
  | TypeError
  | ValueError
  | IndexError
  | KeyError
  | OSError.

(** A computation that returns or raises. *)
Inductive result (A : Type) : Type :=
  | Ok (a : A)
  | Raise (e : exn).
Arguments Ok {A} a.
Arguments Raise {A} e.

#[global] Instance result_ret : MRet result := fun A a => Ok a.
#[global] Instance result_bind : MBind result := fun A B f m =>
  match m with
  | Ok a => f a
  | Raise e => Raise e
  end.
#[global] Instance result_fmap : FMap result := fun A B f m =>
  match m with
  | Ok a => Ok (f a)
  | Raise e => Raise e
  end.

(* ===================================================================== *)
(** ** Strings *)
(* ===================================================================== *)

Module PyStr.

(** A Python [str] is modelled by the Rocq string of its code points; the
    model covers the code points below 256.  [is_space] is [str.isspace]
    on one such code point: TAB..CR, FS..US, SPACE, NEL and NBSP. *)
Definition is_space (c : ascii) : bool :=
  let n := nat_of_ascii c in
  ((9 <=? n)%nat && (n <=? 13)%nat)
  || ((28 <=? n)%nat && (n <=? 32)%nat)
  || (n =? 133)%nat || (n =? 160)%nat.

Fixpoint lstrip (s : string) : string :=
  match s with
  | EmptyString => EmptyString
  | String c s' => if is_space c then lstrip s' else s
  end.

Fixpoint rstrip (s : string) : string :=
  match s with
  | EmptyString => EmptyString
  | String c s' =>
      match rstrip s' with
      | EmptyString => if is_space c then EmptyString else String c EmptyString
      | r => String c r
      end
  end.

(** [s.strip()] *)
Definition strip (s : string) : string := rstrip (lstrip s).

Fixpoint map_chars (f : ascii -> ascii) (s : string) : string :=
  match s with
  | EmptyString => EmptyString
  | String c s' => String (f c) (map_chars f s')
  end.

(** [str.lower] on one code point below 256: A..Z and the upper-case
    letters of Latin-1 (U+00C0..U+00DE except the multiplication sign). *)
Definition lower_char (c : ascii) : ascii :=
  let n := nat_of_ascii c in
  if ((65 <=? n)%nat && (n <=? 90)%nat)
     || ((192 <=? n)%nat && (n <=? 222)%nat && negb (n =? 215)%nat)
  then ascii_of_nat (n + 32) else c.

(** [s.lower()] *)
Definition lower (s : string) : string := map_chars lower_char s.

(** [s.replace(',', '.')] *)
Definition replace_comma (s : string) : string :=
  map_chars (fun c => if Ascii.eqb c "," then "."%char else c) s.

(** [sep.join(l)] *)
Definition join (sep : string) (l : list string) : string :=
  String.concat sep l.

(** ['\n'] *)
Definition newline : string := String (ascii_of_nat 10) EmptyString.

(** Truth value of a string: [bool(s)]. *)
Definition truthy (s : string) : bool := negb (String.eqb s "").

End PyStr.

(* ===================================================================== *)
(** ** Sort values and their comparison *)
(* ===================================================================== *)

Module PyVal.

(** A [datetime]: naive (no [tzinfo]) or aware.  A naive value is the
    count of microseconds since [datetime.min] = 0001-01-01T00:00:00; an
    aware one carries its UTC instant in the same unit and its offset. *)
Inductive datetime : Type :=
  | Naive (us : Z)
  | Aware (utc_us : Z) (offset_s : Z).

(** [datetime.min] *)
Definition datetime_min : datetime := Naive 0.

(** [float('-inf')], in the IEEE-754 model of the standard library. *)
Definition neg_inf : spec_float := S754_infinity true.

(** What [sort_value] returns: [Union[str, float, datetime]]. *)
Inductive value : Type :=
  | VStr (s : string)
  | VFloat (f : spec_float)
  | VDate (d : datetime).

(** [d1 == d2] on [datetime]: a naive and an aware value are unequal. *)
Definition datetime_eqb (d1 d2 : datetime) : bool :=
  match d1, d2 with
  | Naive a, Naive b => (a =? b)%Z
  | Aware a _, Aware b _ => (a =? b)%Z
  | _, _ => false
  end.

(** [d1 < d2] on [datetime]: comparing a naive with an aware value raises
    [TypeError]. *)
Definition datetime_lt (d1 d2 : datetime) : result bool :=
  match d1, d2 with
  | Naive a, Naive b => Ok (a <? b)%Z
  | Aware a _, Aware b _ => Ok (a <? b)%Z
  | _, _ => Raise TypeError
  end.

(** [v == w]: never raises; values of different types are unequal. *)
Definition value_eqb (v w : value) : bool :=
  match v, w with
  | VStr a, VStr b => String.eqb a b
  | VFloat a, VFloat b => SFeqb a b
  | VDate a, VDate b => datetime_eqb a b
  | _, _ => false
  end.

(** [v < w]: code-point order on [str], IEEE order on [float] (every
    comparison with NaN is false), [TypeError] across types. *)
Definition value_lt (v w : value) : result bool :=
  match v, w with
  | VStr a, VStr b => Ok (String.ltb a b)
  | VFloat a, VFloat b => Ok (SFltb a b)
  | VDate a, VDate b => datetime_lt a b
  | _, _ => Raise TypeError
  end.

(** [a == b] on tuples. *)
Fixpoint tuple_eqb (a b : list value) : bool :=
  match a, b with
  | [], [] => true
  | x :: a', y :: b' => value_eqb x y && tuple_eqb a' b'
  | _, _ => false
  end.

(** [a < b] on tuples: the first position where the items are not [==]
    decides, by [<] on the two items; a proper prefix is smaller. *)
Fixpoint tuple_lt (a b : list value) : result bool :=
  match a, b with
  | x :: a', y :: b' => if value_eqb x y then tuple_lt a' b' else value_lt x y
  | [], _ :: _ => Ok true
  | _, [] => Ok false
  end.

End PyVal.

(* ===================================================================== *)
(** ** Configuration *)
(* ===================================================================== *)

(** One entry of [sort_config['fields']]. *)
Module Field.
Record t : Type := Make { name : string; type : string; order : string }.
End Field.

(** [SORT_CONFIG]. *)
Module SortConfig.
Record t : Type :=
  Make { delimiter : string; fields : list Field.t; order : string }.
End SortConfig.

(** The part of [config] the sorter reads besides directory names. *)
Module Config.
Record t : Type :=
  Make { input_files : list string; sort_config : SortConfig.t }.
End Config.

(** A row as [csv.reader] yields it. *)
Definition row : Type := list string.

(** An input file, as the program sees it through [Path.exists], [open] and
    [csv.reader]: missing, or a sequence of rows the reader yields, followed
    by a failure when [fails] is set (a decoding or reader error after these
    rows; with no rows, a failure of [open] itself). *)
Inductive file : Type :=
  | Missing
  | Content (rows : list row) (fails : bool).

(** The input directory: file base name (as in [INPUT_FILES]) to file. *)
Definition filesystem : Type := string -> file.

(* ===================================================================== *)
(** ** Class [CSVSorter] *)
(* ===================================================================== *)

(** What the logger receives from [get_common_sort_fields], message text
    left out. *)
Inductive log_record : Type :=
  | LogDebugHeader (filename : string) (header : row)
  | LogErrorHeader (filename : string)
  | LogWarningTooFewFiles
  | LogInfoCommonHeaders
  | LogInfoFieldUsed (field_name : string)
  | LogWarningFieldSkipped (field_name : string)
  | LogErrorNoCommonFields
  | LogInfoFinalFields (names : list string).

(** [l.index(x)]: the first position of [x], [ValueError] when absent. *)
Fixpoint index (x : string) (l : list string) : result nat :=
  match l with
  | [] => Raise ValueError
  | y :: l' => if String.eqb y x then Ok 0%nat else S <$> index x l'
  end.

(** [l[i]] for a position [i >= 0]: [IndexError] when out of range. *)
Definition getitem (l : row) (i : nat) : result string :=
  match l !! i with
  | Some v => Ok v
  | None => Raise IndexError
  end.

(** [k / n > 0.8] for two counts [k <= n], [0 < n].  The source divides
    two ints as floats and compares with the literal [0.8]; the division is
    correctly rounded and the literal is the double nearest to 4/5, so the
    test is the exact comparison [5 * k > 4 * n] for every list length
    below 2^50 ([ratio_gt_080_binary64] checks it on binary64 for the
    lengths the program uses, up to 100). *)
Definition ratio_gt_080 (k n : nat) : bool := (4 * n <? 5 * k)%nat.

(** The same test computed as the source does, on binary64. *)
Definition binary64_of_nat (n : nat) : spec_float :=
  binary_normalize 53 1024 (Z.of_nat n) 0 false.
Definition binary64_080 : spec_float :=
  S754_finite false 7205759403792794 (-53).
Definition ratio_gt_080_float (k n : nat) : bool :=
  SFltb binary64_080 (SFdiv 53 1024 (binary64_of_nat k) (binary64_of_nat n)).

(** An item of the list being sorted: the key of a row, and the row. *)
Abbreviation item A := (list PyVal.value * A)%type.

(** [x < y] on items: the keys decide. *)
Definition item_lt {A} (x y : item A) : result bool := PyVal.tuple_lt x.1 y.1.

(** The loop of [count_run]: how many more items continue the run that
    ends with [prev].  A descending run goes on while the next item is
    smaller than the one before it, an ascending run while it is not. *)
Fixpoint run_length {A} (descending : bool) (prev : item A) (l : list (item A))
  : result nat :=
  match l with
  | [] => Ok 0
  | x :: l' =>
      b ← item_lt x prev;
      if Bool.eqb b descending then S <$> run_length descending x l' else Ok 0
  end.

(** [count_run] of [Objects/listobject.c]: the length of the run at the
    start of the list and whether it is (strictly) descending. *)
Definition count_run {A} (l : list (item A)) : result (nat * bool) :=
  match l with
  | [] => Ok (0, false)
  | [_] => Ok (1, false)
  | x :: y :: l' =>
      descending ← item_lt y x;
      n ← run_length descending y l';
      Ok (2 + n, descending)
  end.

(** The binary search of [binarysort]: where [pivot] goes in the sorted
    [a], between positions [l] and [r].  The distance [r - l] halves at
    every round; [fuel] bounds the rounds. *)
Fixpoint bisect {A} (fuel : nat) (pivot : item A) (a : list (item A)) (l r : nat)
  : result nat :=
  match fuel with
  | O => Ok l
  | S fuel' =>
      if (l <? r)%nat then
        let p := (l + (r - l) / 2)%nat in
        match a !! p with
        | Some x =>
            b ← item_lt pivot x;
            if b : bool then bisect fuel' pivot a l p
            else bisect fuel' pivot a (S p) r
        | None => Ok l
        end
      else Ok l
  end.

(** [a] with [x] put at position [n]. *)
Definition insert_at {A} (n : nat) (x : A) (a : list A) : list A :=
  take n a ++ x :: drop n a.

(** [binarysort]: the items of [rest] are put one by one into the sorted
    [a], each at the place the binary search finds. *)
Fixpoint binarysort {A} (a rest : list (item A)) : result (list (item A)) :=
  match rest with
  | [] => Ok a
  | pivot :: rest' =>
      n ← bisect (length a) pivot a 0 (length a);
      binarysort (insert_at n pivot a) rest'
  end.

(** [list.sort] on the keys, the builtin behind [sorted], after
    [Objects/listobject.c] of CPython 3.11.  With fewer than two items
    nothing is compared.  Up to 63 items, the run at the start of the list is
    found ([count_run]), reversed when descending, and the other items are
    put into it by [binarysort].  From 64 items on CPython cuts the list
    into runs built this way and merges them: the merged list is the list
    below whenever no key holds NaN (the comparisons are then those of a
    total preorder, on which every stable sort returns the same list); the
    model is the list below in every case. *)
Definition list_sort {A} (l : list (item A)) : result (list (item A)) :=
  match l with
  | [] | [_] => Ok l
  | _ =>
      '(n, descending) ← count_run l;
      let run := take n l in
      binarysort (if descending : bool then rev run else run) (drop n l)
  end.

(** [sorted(data, key=key, reverse=reverse)]: the keys are computed first,
    one call per item in input order; then the items are sorted on the
    keys by [list_sort]; [reverse] reverses the list before and after the
    sort, which keeps equal items in input order (CPython's [list.sort]). *)
Definition sorted {A} (data : list A) (key : A -> result (list PyVal.value))
    (reverse : bool) : result (list A) :=
  keys ← mapM key data;
  let decorated := zip keys data in
  s ← list_sort (if reverse then rev decorated else decorated);
  Ok ((if reverse then rev s else s).*2).

Section Sorter.

(** [float(s)] for a [str]: [None] is [ValueError]. *)
Variable py_float : string -> option spec_float.
(** [dateutil.parser.parse(s)]: [None] is the [ValueError] (or [TypeError])
    the callers catch.  The parser is taken as a function of the string that
    returns or raises one of these two: a string on which [dateutil] raises
    [OverflowError], which the callers do not catch, is outside the model,
    and so is the dependence of the answer on the current date. *)
Variable date_parse : string -> option PyVal.datetime.

(** The local variables of [detect_field_type]: the stripped samples that
    are not empty, and how many of them each parser accepts. *)
Definition non_empty (sample_values : list string) : list string :=
  map PyStr.strip
    (List.filter (fun v => PyStr.truthy (PyStr.strip v)) sample_values).

Definition parses_as_number (value : string) : bool :=
  bool_decide (is_Some (py_float (PyStr.replace_comma value))).

Definition parses_as_date (value : string) : bool :=
  bool_decide (is_Some (date_parse value)).

Definition number_count (values : list string) : nat :=
  length (List.filter parses_as_number values).

Definition date_count (values : list string) : nat :=
  length (List.filter parses_as_date values).

(** [CSVSorter.detect_field_type] *)
Definition detect_field_type (sample_values : list string) : string :=
  match sample_values with
  | [] => "text"
  | _ =>
      match non_empty sample_values with
      | [] => "text"
      | values =>
          if ratio_gt_080 (number_count values) (length values) then "number"
          else if ratio_gt_080 (date_count values) (length values) then "date"
          else "text"
      end
  end.

(** [CSVSorter.sort_value] *)
Definition sort_value (value field_type : string) : PyVal.value :=
  if negb (PyStr.truthy value) || String.eqb (PyStr.strip value) ""
  then
    if String.eqb field_type "text" then PyVal.VStr ""
    else PyVal.VFloat PyVal.neg_inf
  else
    let value := PyStr.strip value in
    if String.eqb field_type "number" then
      match py_float (PyStr.replace_comma value) with
      | Some f => PyVal.VFloat f
      | None => PyVal.VFloat PyVal.neg_inf
      end
    else if String.eqb field_type "date" then
      match date_parse value with
      | Some d => PyVal.VDate d
      | None => PyVal.VDate PyVal.datetime_min
      end
    else PyVal.VStr (PyStr.lower value).

(** The first loop of [sort_csv_file]: the dictionary [field_types]. *)
Fixpoint resolve_field_types (header : row) (data_rows : list row)
    (common_sort_fields : list Field.t) (field_types : gmap string string)
  : result (gmap string string) :=
  match common_sort_fields with
  | [] => Ok field_types
  | field_config :: rest =>
      let field_name := Field.name field_config in
      if String.eqb (Field.type field_config) "auto" then
        column_index ← index field_name header;
        sample_values ← mapM (fun r => getitem r column_index) (take 100 data_rows);
        resolve_field_types header data_rows rest
          (<[field_name := detect_field_type sample_values]> field_types)
      else
        resolve_field_types header data_rows rest
          (<[field_name := Field.type field_config]> field_types)
  end.

(** [d[k]] on the dictionary [field_types]. *)
Definition dict_get (d : gmap string string) (k : string) : result string :=
  match d !! k with
  | Some v => Ok v
  | None => Raise KeyError
  end.

(** The closure [sort_key] of [sort_csv_file]. *)
Fixpoint sort_key (header : row) (field_types : gmap string string)
    (common_sort_fields : list Field.t) (r : row) : result (list PyVal.value) :=
  match common_sort_fields with
  | [] => Ok []
  | field_config :: rest =>
      let field_name := Field.name field_config in
      column_index ← index field_name header;
      let value := default "" (r !! column_index) in
      field_type ← dict_get field_types field_name;
      key_values ← sort_key header field_types rest r;
      Ok (sort_value value field_type :: key_values)
  end.

(** [list(reader)] on an opened file. *)
Definition read_rows (f : file) : result (list row) :=
  match f with
  | Missing => Raise OSError
  | Content rows fails => if fails then Raise OSError else Ok rows
  end.

(** What [sort_csv_file] writes for one row. *)
Definition write_row (delimiter : string) (r : row) : string :=
  PyStr.join delimiter r +:+ PyStr.newline.

(** The text [sort_csv_file] writes: the header, then the rows. *)
Definition file_text (delimiter : string) (header : row) (rows : list row)
  : string :=
  write_row delimiter header +:+ String.concat "" (map (write_row delimiter) rows).

(** The rows [sort_csv_file] writes after the header. *)
Definition sort_rows (common_sort_fields : list Field.t) (header : row)
    (data_rows : list row) (sort_config : SortConfig.t) : result (list row) :=
  field_types ← resolve_field_types header data_rows common_sort_fields ∅;
  let reverse := String.eqb (SortConfig.order sort_config) "desc" in
  sorted data_rows (sort_key header field_types common_sort_fields) reverse.

(** [CSVSorter.sort_csv_file]: the text written to [output_file], [None]
    when the method returns without writing (empty input).  A raised
    exception is the one the method re-raises; failures of the output
    device are not modelled. *)
Definition sort_csv_file (common_sort_fields : list Field.t) (input_file : file)
    (sort_config : SortConfig.t) : result (option string) :=
  rows ← read_rows input_file;
  match rows with
  | [] => Ok None
  | header :: data_rows =>
      sorted_data ← sort_rows common_sort_fields header data_rows sort_config;
      Ok (Some (file_text (SortConfig.delimiter sort_config) header sorted_data))
  end.

(** The header column names of a file as [get_common_sort_fields] stores
    them in [file_headers]: [set(next(reader))], and the empty set for a
    missing file and for one whose first row cannot be read (an empty file
    makes [next] raise [StopIteration], which the handler catches too). *)
Definition header_set (f : file) : gset string :=
  match f with
  | Content (header :: _) _ => list_to_set header
  | _ => ∅
  end.

(** One round of the loop over [input_files] in [get_common_sort_fields]. *)
Definition read_header (fs : filesystem)
    (state : gmap string (gset string) * list log_record) (filename : string)
  : gmap string (gset string) * list log_record :=
  let '(file_headers, log) := state in
  match fs filename with
  | Content (header :: _) _ =>
      (<[filename := list_to_set header]> file_headers,
       log ++ [LogDebugHeader filename header])
  | Content [] _ =>
      (<[filename := ∅]> file_headers, log ++ [LogErrorHeader filename])
  | Missing => (<[filename := ∅]> file_headers, log)
  end.

(** [set.intersection] applied to the values of [file_headers]; the
    program calls it with two sets or more. *)
Definition intersection (sets : list (gset string)) : gset string :=
  match sets with
  | [] => ∅
  | s :: rest => foldl (∩) s rest
  end.

(** One round of the loop over the configured fields. *)
Definition keep_common (common_headers : gset string)
    (state : list Field.t * list log_record) (field_config : Field.t)
  : list Field.t * list log_record :=
  let '(common_sort_fields, log) := state in
  let field_name := Field.name field_config in
  if bool_decide (field_name ∈ common_headers)
  then (common_sort_fields ++ [field_config], log ++ [LogInfoFieldUsed field_name])
  else (common_sort_fields, log ++ [LogWarningFieldSkipped field_name]).

(** [CSVSorter.get_common_sort_fields]: the list returned and what was
    logged. *)
Definition get_common_sort_fields (config : Config.t) (fs : filesystem)
  : list Field.t * list log_record :=
  let '(file_headers, log) :=
    foldl (read_header fs) (∅, []) (Config.input_files config) in
  let fields := SortConfig.fields (Config.sort_config config) in
  if bool_decide (size file_headers < 2)%nat
  then (fields, log ++ [LogWarningTooFewFiles])
  else
    let common_headers := intersection (map_to_list file_headers).*2 in
    let '(common_sort_fields, log) :=
      foldl (keep_common common_headers) ([], log ++ [LogInfoCommonHeaders])
        fields in
    match common_sort_fields with
    | [] => ([], log ++ [LogErrorNoCommonFields])
    | _ =>
        (common_sort_fields,
         log ++ [LogInfoFinalFields (map Field.name common_sort_fields)])
    end.

(** The body of the loop of [process_files] for one file name: the files
    written, as (name in the output directory, text). *)
Definition process_file (common_sort_fields : list Field.t) (config : Config.t)
    (fs : filesystem) (filename : string) : list (string * string) :=
  match fs filename with
  | Missing => []
  | input_file =>
      match sort_csv_file common_sort_fields input_file (Config.sort_config config) with
      | Ok (Some text) => [(filename +:+ "_SORT.csv", text)]
      | Ok None => []
      | Raise _ => []
      end
  end.

(** [CSVSorter.process_files], with [self.common_sort_fields] as first
    argument: the files written, in the order of writing. *)
Definition process_files (common_sort_fields : list Field.t) (config : Config.t)
    (fs : filesystem) : list (string * string) :=
  match common_sort_fields with
  | [] => []
  | _ => flat_map (process_file common_sort_fields config fs) (Config.input_files config)
  end.

(** [main]: [CSVSorter(config).process_files()], the constructor having
    stored [get_common_sort_fields()] in [self.common_sort_fields]. *)
Definition main (config : Config.t) (fs : filesystem) : list (string * string) :=
  process_files (get_common_sort_fields config fs).1 config fs.

End Sorter.

(* ===================================================================== *)
(** ** The library parsers on a fragment *)
(* ===================================================================== *)

(** The two parsers are library code.  For worked examples they are
    instantiated on a fragment: each function below returns what the library
    returns on the strings it accepts, and rejects every other string,
    while the library accepts more (signs, fractions and exponents for
    [float]; many more formats for [dateutil]).  The examples give the
    fragment strings it accepts or strings the library rejects too, except
    where noted. *)

Definition digit_value (c : ascii) : option Z :=
  let n := nat_of_ascii c in
  if (48 <=? n)%nat && (n <=? 57)%nat then Some (Z.of_nat n - 48)%Z else None.

Fixpoint digits_value (s : string) (acc : Z) : option Z :=
  match s with
  | EmptyString => Some acc
  | String c s' =>
      match digit_value c with
      | Some d => digits_value s' (10 * acc + d)%Z
      | None => None
      end
  end.

(** [float] on unsigned decimal integers below 2^53 (exact in binary64)
    and on ["nan"]. *)
Definition float_fragment (s : string) : option spec_float :=
  if String.eqb s "nan" then Some S754_nan
  else
    match s with
    | EmptyString => None
    | _ =>
        match digits_value s 0 with
        | Some m =>
            if (m <? 2 ^ 53)%Z then Some (binary_normalize 53 1024 m 0 false)
            else None
        | None => None
        end
    end.

Definition is_leap (y : Z) : bool :=
  ((y mod 4 =? 0) && negb (y mod 100 =? 0) || (y mod 400 =? 0))%Z.

Definition days_in_month (y m : Z) : Z :=
  if (m =? 2)%Z then (if is_leap y then 29 else 28)%Z
  else if ((m =? 4) || (m =? 6) || (m =? 9) || (m =? 11))%Z then 30%Z
  else 31%Z.

Fixpoint days_before_month (y : Z) (m : nat) : Z :=
  match m with
  | O => 0%Z
  | S m' => (days_before_month y m' + days_in_month y (Z.of_nat m))%Z
  end.

(** Days from 0001-01-01 to the given day of the proleptic Gregorian
    calendar ([date.toordinal() - 1]). *)
Definition days_from_min (y m d : Z) : Z :=
  let y' := (y - 1)%Z in
  (y' * 365 + y' / 4 - y' / 100 + y' / 400
   + days_before_month y (Z.to_nat (m - 1)) + (d - 1))%Z.

(** [dateutil.parser.parse] on calendar dates written YYYY-MM-DD: the
    naive midnight of that day. *)
Definition date_fragment (s : string) : option PyVal.datetime :=
  if negb (String.length s =? 10)%nat then None
  else
    match digits_value (substring 0 4 s) 0, digits_value (substring 5 2 s) 0,
          digits_value (substring 8 2 s) 0 with
    | Some y, Some m, Some d =>
        if String.eqb (substring 4 1 s) "-" && String.eqb (substring 7 1 s) "-"
           && (1 <=? y)%Z && (1 <=? m)%Z && (m <=? 12)%Z
           && (1 <=? d)%Z && (d <=? days_in_month y m)%Z
        then Some (PyVal.Naive (days_from_min y m d * 86400000000))
        else None
    | _, _, _ => None
    end.

(** [date_fragment], with the answer of the library on ["5"] left open:
    [dateutil] reads ["5"] as the fifth day of the current month. *)
Definition date_fragment_5 (d5 : option PyVal.datetime) (s : string)
  : option PyVal.datetime :=
  if String.eqb s "5" then d5 else date_fragment s.

(* ===================================================================== *)
(** ** Vocabulary of the properties *)
(* ===================================================================== *)

(** [y] may stand right behind [x] in ascending order: [y < x] is false. *)
Definition not_after {A} (x y : list PyVal.value * A) : Prop :=
  PyVal.tuple_lt y.1 x.1 = Ok false.

(** The items whose key is [==] to [k]. *)
Definition has_key {A} (k : list PyVal.value) (x : list PyVal.value * A) : bool :=
  PyVal.tuple_eqb x.1 k.

(** The rows whose key, as [key] computes it, is [==] to [k]. *)
Definition key_is {A} (key : A -> result (list PyVal.value))
    (k : list PyVal.value) (x : A) : bool :=
  match key x with
  | Ok kx => PyVal.tuple_eqb kx k
  | Raise _ => false
  end.

(** [y] may stand right behind [x] in the output of a sort: ascending,
    [key y < key x] is false; descending ([reverse]), [key x < key y] is
    false. *)
Definition in_order {A} (key : A -> result (list PyVal.value)) (reverse : bool)
    (x y : A) : Prop :=
  exists kx ky, key x = Ok kx /\ key y = Ok ky /\
    (if reverse then PyVal.tuple_lt kx ky else PyVal.tuple_lt ky kx) = Ok false.

(** "Not smaller than" is transitive on the keys: [a <= b] and [b <= c]
    give [a <= c], where [a <= b] reads [b < a] is false. *)
Definition consistent (keys : list (list PyVal.value)) : Prop :=
  forall a b c, a ∈ keys -> b ∈ keys -> c ∈ keys ->
    PyVal.tuple_lt b a = Ok false -> PyVal.tuple_lt c b = Ok false ->
    PyVal.tuple_lt c a = Ok false.

(** Neighbours in a run: [y < x] has the truth value [descending]. *)
Definition run_step {A} (descending : bool) (x y : item A) : Prop :=
  item_lt y x = Ok descending.

(** No item of the key is NaN. *)
Definition nan_free (k : list PyVal.value) : Prop :=
  Forall (fun v => v <> PyVal.VFloat S754_nan) k.

(** The order of two sort values where Python defines one: [None] across
    types, for NaN and for a naive against an aware [datetime]. *)
Definition value_compare (v w : PyVal.value) : option comparison :=
  match v, w with
  | PyVal.VStr a, PyVal.VStr b => Some (String.compare a b)
  | PyVal.VFloat a, PyVal.VFloat b => SFcompare a b
  | PyVal.VDate (PyVal.Naive a), PyVal.VDate (PyVal.Naive b) => Some (Z.compare a b)
  | PyVal.VDate (PyVal.Aware a _), PyVal.VDate (PyVal.Aware b _) =>
      Some (Z.compare a b)
  | _, _ => None
  end.

(** The order of [z] and [x] from the orders of [z], [y] and of [y], [x],
    neither being [Lt]. *)
Definition join_ge (c1 c2 : comparison) : comparison :=
  match c1, c2 with
  | Eq, Eq => Eq
  | _, _ => Gt
  end.

(** The items have their keys in [K]. *)
Definition keyed {A} (K : list (list PyVal.value)) (l : list (item A)) : Prop :=
  Forall (fun x => x.1 ∈ K) l.

(** [z] is strictly below [x]: [x < z] is false and [z < x] is not. *)
Definition below {A} (x z : item A) : Prop :=
  item_lt x z = Ok false /\ item_lt z x <> Ok false.

(** An item of the list [sorted] works on carries the key of its row. *)
Definition decorated {A} (key : A -> result (list PyVal.value))
    (p : list PyVal.value * A) : Prop :=
  key p.2 = Ok p.1.

(** The reversal [sorted] applies before and after the sort. *)
Definition flip_if {A} (reverse : bool) (l : list A) : list A :=
  if reverse then rev l else l.

(** Two field entries that differ at most in their ['order']. *)
Definition same_name_type (f f' : Field.t) : Prop :=
  Field.name f = Field.name f' /\ Field.type f = Field.type f'.

(** Two configurations that differ at most in the ['order'] of their field
    entries. *)
Definition same_but_field_order (config config' : Config.t) : Prop :=
  Config.input_files config = Config.input_files config'
  /\ SortConfig.delimiter (Config.sort_config config)
     = SortConfig.delimiter (Config.sort_config config')
  /\ SortConfig.order (Config.sort_config config)
     = SortConfig.order (Config.sort_config config')
  /\ Forall2 same_name_type (SortConfig.fields (Config.sort_config config))
       (SortConfig.fields (Config.sort_config config')).

(** The first row of the file can be read. *)
Definition readable_header (f : file) : bool :=
  match f with
  | Content (_ :: _) _ => true
  | _ => false
  end.

(** No configured field leaves its type to detection. *)
Definition no_auto (common_sort_fields : list Field.t) : Prop :=
  Forall (fun f => Field.type f <> "auto") common_sort_fields.

(** The dictionary [file_headers] of [get_common_sort_fields] after its
    first loop. *)
Definition file_headers (fs : filesystem) (input_files : list string)
  : gmap string (gset string) :=
  (foldl (read_header fs) (∅, []) input_files).1.

(** The set [common_headers] of [get_common_sort_fields]. *)
Definition common_headers (fs : filesystem) (input_files : list string)
  : gset string :=
  intersection (map_to_list (file_headers fs input_files)).*2.

(** What the loop over the configured fields of [get_common_sort_fields]
    logs for one field. *)
Definition field_report (common : gset string) (f : Field.t) : log_record :=
  if bool_decide (Field.name f ∈ common) then LogInfoFieldUsed (Field.name f)
  else LogWarningFieldSkipped (Field.name f).

(** The number of files configured: a name listed twice is one file. *)
Definition configured_files (config : Config.t) : nat :=
  size (list_to_set (Config.input_files config) : gset string).

(** The Python type of a sort value, and of the items of a key. *)
Inductive kind : Type := KStr | KFloat | KDate.

Definition kind_of (v : PyVal.value) : kind :=
  match v with
  | PyVal.VStr _ => KStr
  | PyVal.VFloat _ => KFloat
  | PyVal.VDate _ => KDate
  end.

Definition shape (k : list PyVal.value) : list kind := map kind_of k.

(** Every field is declared as text or as number. *)
Definition text_or_number (common_sort_fields : list Field.t) : Prop :=
  Forall (fun f => Field.type f = "text" \/ Field.type f = "number")
    common_sort_fields.

(** Every field is a column of the header. *)
Definition in_header (header : row) (common_sort_fields : list Field.t) : Prop :=
  Forall (fun f => Field.name f ∈ header) common_sort_fields.

(* ===================================================================== *)
(** ** Worked inputs *)
(* ===================================================================== *)

(** A date column with an empty cell. *)
Definition blank_date_field : Field.t := Field.Make "D" "date" "asc".
Definition blank_date_config : SortConfig.t :=
  SortConfig.Make ";" [blank_date_field] "asc".
Definition blank_date_file : file :=
  Content [["D"]; [""]; ["2020-01-01"]] false.

(** A row shorter than the header, the missing column being a sort field. *)
Definition short_row_file : file :=
  Content [["A"; "B"]; ["1"; "x"]; ["2"]] false.
Definition short_row_config : SortConfig.t :=
  SortConfig.Make ";" [Field.Make "B" "text" "asc"] "asc".

(** The end-to-end example of the specification: sort on REWARD_CODE as
    text, ascending. *)
Definition reward_field : Field.t := Field.Make "REWARD_CODE" "text" "asc".
Definition reward_config : SortConfig.t :=
  SortConfig.Make ";" [reward_field] "asc".
Definition reward_file : file :=
  Content [["REWARD_CODE"; "AMOUNT"]; ["B"; "10"]; ["A"; "20"]; ["A"; "5"]] false.
Definition reward_text : string :=
  file_text ";" ["REWARD_CODE"; "AMOUNT"] [["A"; "20"]; ["A"; "5"]; ["B"; "10"]].

Definition reward_field_types : gmap string string :=
  {[ "REWARD_CODE" := "text" ]}.

(** The same field with the per-field order set to ['desc']. *)
Definition reward_field_desc : Field.t := Field.Make "REWARD_CODE" "text" "desc".
Definition reward_config_desc : SortConfig.t :=
  SortConfig.Make ";" [reward_field_desc] "asc".

(** An input directory that holds the file [a] only. *)
Definition only_a : filesystem :=
  fun filename => if String.eqb filename "a" then reward_file else Missing.

(** The example of the specification for the reconciler: headers A, B, C
    and B, C, D; fields A, B, C. *)
Definition field_A : Field.t := Field.Make "A" "text" "asc".
Definition field_B : Field.t := Field.Make "B" "text" "asc".
Definition field_C : Field.t := Field.Make "C" "text" "asc".
Definition abc_config : Config.t :=
  Config.Make ["first"; "second"]
    (SortConfig.Make ";" [field_A; field_B; field_C] "asc").
Definition abc_files : filesystem :=
  fun filename =>
    if String.eqb filename "first" then Content [["A"; "B"; "C"]] false
    else if String.eqb filename "second" then Content [["B"; "C"; "D"]] false
    else Missing.


(** A number column with a cell ["nan"], and the rows as Python 3.11
    returns them from [sorted]: the two rows with key 5.0 have changed
    places. *)
Definition nan_field : Field.t := Field.Make "N" "number" "asc".
Definition nan_config : SortConfig.t := SortConfig.Make ";" [nan_field] "asc".
Definition nan_field_types : gmap string string := {[ "N" := "number" ]}.
Definition nan_header : row := ["N"; "ROW"].
Definition nan_rows : list row :=
  [["0"; "x0"]; ["1"; "x1"]; ["9"; "q"]; ["nan"; "n"]; ["5"; "a1"]; ["2"; "z"];
   ["5"; "a2"]].
Definition nan_rows_sorted : list row :=
  [["0"; "x0"]; ["1"; "x1"]; ["2"; "z"]; ["5"; "a2"]; ["9"; "q"]; ["nan"; "n"];
   ["5"; "a1"]].
Definition five_key : list PyVal.value := [PyVal.VFloat (binary64_of_nat 5)].

(** A column of type [auto] in a file of 126 data rows: 100 rows ["5"], then
    26 rows ["zz"]; and the same rows with the 26 rows first. *)
Definition auto_field : Field.t := Field.Make "K" "auto" "asc".
Definition auto_config : SortConfig.t := SortConfig.Make ";" [auto_field] "asc".
Definition numbers_first : list row := replicate 100 ["5"] ++ replicate 26 ["zz"].
Definition numbers_last : list row := replicate 26 ["zz"] ++ replicate 100 ["5"].

(** The position of the column [name] in a header: its first occurrence. *)
Definition column (header : row) (name : string) : option nat :=
  fst <$> list_find (fun h => h = name) header.

(** The cell of a row in the column [name]; a cell the row does not have
    reads as the empty string. *)
Definition cell (header : row) (name : string) (r : row) : string :=
  default "" (column header name ≫= fun i => r !! i).

(** The composite key of a row: for each sort field, in the order of the
    fields, the sort value of the row's cell in the column of the field,
    under the type the field has in [field_types]. *)
Definition composite_key (py_float : string -> option spec_float)
    (date_parse : string -> option PyVal.datetime) (header : row)
    (field_types : gmap string string) (common_sort_fields : list Field.t)
    (r : row) : list PyVal.value :=
  map (fun f => sort_value py_float date_parse (cell header (Field.name f) r)
                  (default "" (field_types !! Field.name f)))
    common_sort_fields.

(** Two keys that may belong to neighbours in the output: ascending, the
    second key is not smaller than the first; descending ([reverse]), it is
    not larger. *)
Definition keys_in_order (reverse : bool) (kx ky : list PyVal.value) : Prop :=
  (if reverse then PyVal.tuple_lt kx ky else PyVal.tuple_lt ky kx) = Ok false.

(** The field REWARD_CODE with the overall order set to ['desc'], the
    per-field order being ['asc'] in one configuration and ['desc'] in the
    other. *)
Definition reward_overall_desc : SortConfig.t :=
  SortConfig.Make ";" [reward_field] "desc".
Definition reward_both_desc : SortConfig.t :=
  SortConfig.Make ";" [reward_field_desc] "desc".


(** A file whose cells carry white space and capital letters. *)
Definition spaced_file : file :=
  Content [[" Reward_Code "; "AMOUNT"]; [" b "; "10"]; ["A"; " 20"]] false.
Definition spaced_config : SortConfig.t :=
  SortConfig.Make ";" [Field.Make " Reward_Code " "text" "asc"] "asc".

(* ===================================================================== *)
(** ** Properties *)
(* ===================================================================== *)

(** *** The error monad *)

Lemma bind_Ok {A B} (m : result A) (f : A -> result B) (b : B) :
  m ≫= f = Ok b -> exists a, m = Ok a /\ f a = Ok b.
Proof. destruct m as [a|e]; simpl; [eauto | discriminate]. Qed.

Lemma fmap_Ok {A B} (m : result A) (f : A -> B) (b : B) :
  f <$> m = Ok b -> exists a, m = Ok a /\ b = f a.
Proof. destruct m as [a|e]; simpl; [intros [= <-]; eauto | discriminate]. Qed.

Lemma mapM_Ok_length {A B} (f : A -> result B) (l : list A) (k : list B) :
  mapM f l = Ok k -> length k = length l.
Proof.
  revert k. induction l as [|x l IH]; intros k; simpl.
  - intros [= <-]. reflexivity.
  - intros H. apply bind_Ok in H as (y & Hy & H).
    apply bind_Ok in H as (k' & Hk' & H). injection H as <-.
    simpl. f_equal. auto.
Qed.

Lemma mapM_Ok_Forall2 {A B} (f : A -> result B) (l : list A) (k : list B) :
  mapM f l = Ok k -> Forall2 (fun x y => f x = Ok y) l k.
Proof.
  revert k. induction l as [|x l IH]; intros k; simpl.
  - intros [= <-]. constructor.
  - intros H. apply bind_Ok in H as (y & Hy & H).
    apply bind_Ok in H as (k' & Hk' & H). injection H as <-.
    constructor; auto.
Qed.

Lemma mapM_decorated {A B} (f : A -> result B) (d : list (B * A)) :
  Forall (fun p => f p.2 = Ok p.1) d -> mapM f d.*2 = Ok d.*1.
Proof.
  induction 1 as [|[k x] d Hx _ IH]; [reflexivity|].
  rewrite !fmap_cons. cbn [mapM fst snd] in *. rewrite Hx, IH. reflexivity.
Qed.

Lemma mapM_zip_decorated {A B} (f : A -> result B) (l : list A) (k : list B) :
  mapM f l = Ok k ->
  Forall (fun p => f p.2 = Ok p.1) (zip k l) /\ (zip k l).*2 = l.
Proof.
  intros H. pose proof (mapM_Ok_length _ _ _ H) as Hlen.
  apply mapM_Ok_Forall2 in H. split.
  - induction H; simpl; constructor; auto.
  - rewrite snd_zip; [reflexivity | lia].
Qed.

(** *** Equality and order of keys *)

Lemma SFeqb_inv (a b : spec_float) :
  SFeqb a b = true ->
  (exists s1 s2, a = S754_zero s1 /\ b = S754_zero s2) \/ (a = b /\ a <> S754_nan).
Proof.
  unfold SFeqb, SFcompare.
  destruct a as [sa|sa| |sa ma ea], b as [sb|sb| |sb mb eb];
    try discriminate; try (destruct sa; discriminate);
    try (destruct sb; discriminate).
  - eauto.
  - destruct sa, sb; try discriminate; intros _; right; split; congruence.
  - destruct sa, sb; try discriminate;
      destruct (ea ?= eb)%Z eqn:He; try discriminate;
      destruct (Pos.compare_cont Eq ma mb) eqn:Hm; try discriminate;
      apply Z.compare_eq in He; apply Pos.compare_eq in Hm;
      intros _; right; split; congruence.
Qed.

Lemma SFeqb_refl (a : spec_float) : a <> S754_nan -> SFeqb a a = true.
Proof.
  unfold SFeqb, SFcompare. destruct a as [sa|sa| |sa ma ea]; try congruence.
  - destruct sa; reflexivity.
  - intros _. rewrite Z.compare_refl, Pos.compare_cont_refl.
    destruct sa; reflexivity.
Qed.

Lemma SFeqb_class (a b c : spec_float) :
  SFeqb a c = true -> SFeqb b c = true -> SFeqb b a = true.
Proof.
  intros Ha Hb. apply SFeqb_inv in Ha, Hb.
  destruct Ha as [(s1 & s2 & -> & ->)|[-> Ha]], Hb as [(s3 & s4 & -> & Hb)|[-> Hb]];
    try discriminate; try reflexivity.
  - destruct c; try discriminate; reflexivity.
  - apply SFeqb_refl; assumption.
Qed.

Lemma datetime_eqb_class (a b c : PyVal.datetime) :
  PyVal.datetime_eqb a c = true -> PyVal.datetime_eqb b c = true ->
  PyVal.datetime_eqb b a = true.
Proof.
  destruct a, b, c; simpl; try discriminate; rewrite !Z.eqb_eq; congruence.
Qed.

Lemma value_eqb_class (x y z : PyVal.value) :
  PyVal.value_eqb x z = true -> PyVal.value_eqb y z = true ->
  PyVal.value_eqb y x = true.
Proof.
  destruct x, y, z; simpl; try discriminate.
  - rewrite !String.eqb_eq. congruence.
  - apply SFeqb_class.
  - apply datetime_eqb_class.
Qed.

(** Two keys equal to a third one are not ordered by [<]. *)
Lemma tuple_lt_same_class (a b k : list PyVal.value) :
  PyVal.tuple_eqb a k = true -> PyVal.tuple_eqb b k = true ->
  PyVal.tuple_lt b a = Ok false.
Proof.
  revert b k. induction a as [|x a IH]; intros [|y b] [|z k]; simpl;
    try discriminate; try reflexivity.
  rewrite !andb_true_iff. intros [Hx Ha] [Hy Hb].
  rewrite (value_eqb_class _ _ _ Hx Hy). eauto.
Qed.

(** *** Asymmetry of [<] *)

Lemma SFeqb_sym (a b : spec_float) : SFeqb a b = SFeqb b a.
Proof.
  destruct (SFeqb a b) eqn:Hab, (SFeqb b a) eqn:Hba; try reflexivity.
  - apply SFeqb_inv in Hab as [(s1 & s2 & -> & ->)|[-> Ha]];
      [discriminate | rewrite SFeqb_refl in Hba; [discriminate | assumption]].
  - apply SFeqb_inv in Hba as [(s1 & s2 & -> & ->)|[-> Ha]];
      [discriminate | rewrite SFeqb_refl in Hab; [discriminate | assumption]].
Qed.

Lemma SFltb_asym (a b : spec_float) : SFltb a b = true -> SFltb b a = false.
Proof.
  unfold SFltb, SFcompare.
  destruct a as [sa|sa| |sa ma ea], b as [sb|sb| |sb mb eb];
    try discriminate; try reflexivity;
    try (destruct sa; try discriminate; reflexivity);
    try (destruct sb; try discriminate; reflexivity).
  - destruct sa, sb; try discriminate; reflexivity.
  - rewrite (Z.compare_antisym ea eb), (ZC4 mb ma).
    destruct sa, sb; try discriminate; try reflexivity;
      destruct (ea ?= eb)%Z; simpl; try discriminate; try reflexivity;
      destruct (Pos.compare_cont Eq ma mb); simpl; try discriminate; reflexivity.
Qed.

Lemma value_eqb_sym (x y : PyVal.value) : PyVal.value_eqb x y = PyVal.value_eqb y x.
Proof.
  destruct x as [a|a|[a|a oa]], y as [b|b|[b|b ob]]; simpl; try reflexivity.
  - apply String.eqb_sym.
  - apply SFeqb_sym.
  - apply Z.eqb_sym.
  - apply Z.eqb_sym.
Qed.

Lemma value_lt_asym (x y : PyVal.value) :
  PyVal.value_lt x y = Ok true -> PyVal.value_lt y x = Ok false.
Proof.
  destruct x as [a|a|[a|a oa]], y as [b|b|[b|b ob]]; simpl; try discriminate.
  - unfold String.ltb. rewrite (String.compare_antisym b a).
    destruct (String.compare a b); simpl; try discriminate; reflexivity.
  - intros [= H]. rewrite (SFltb_asym _ _ H). reflexivity.
  - intros [= H]. f_equal. apply Z.ltb_lt in H. apply Z.ltb_ge. lia.
  - intros [= H]. f_equal. apply Z.ltb_lt in H. apply Z.ltb_ge. lia.
Qed.

Lemma tuple_lt_asym (a b : list PyVal.value) :
  PyVal.tuple_lt a b = Ok true -> PyVal.tuple_lt b a = Ok false.
Proof.
  revert b. induction a as [|x a IH]; intros [|y b]; simpl;
    try discriminate; try reflexivity.
  rewrite (value_eqb_sym y x). destruct (PyVal.value_eqb x y); [apply IH|].
  apply value_lt_asym.
Qed.

(** *** Sorted lists *)

Lemma Sorted_snoc {A} (R : A -> A -> Prop) (l : list A) (x : A) :
  Sorted R l -> (forall y, last l = Some y -> R y x) -> Sorted R (l ++ [x]).
Proof.
  induction 1 as [|a l Hl IH Ha]; intros Hx; simpl.
  - repeat constructor.
  - constructor.
    + apply IH. intros y Hy. apply Hx. destruct l; [discriminate | exact Hy].
    + destruct Ha as [|b l Hab]; simpl; constructor; [|assumption].
      apply Hx. reflexivity.
Qed.

Lemma Sorted_rev {A} (R : A -> A -> Prop) (l : list A) :
  Sorted R l -> Sorted (flip R) (rev l).
Proof.
  induction 1 as [|a l Hl IH Ha]; simpl; [constructor|].
  apply Sorted_snoc; [assumption|].
  intros y Hy. destruct Ha as [|b l Hab].
  - discriminate.
  - simpl in Hy. rewrite last_snoc in Hy. injection Hy as <-. exact Hab.
Qed.

Lemma Sorted_fmap {A B} (P : A -> Prop) (R : A -> A -> Prop)
    (R' : B -> B -> Prop) (f : A -> B) (l : list A) :
  (forall x y, P x -> P y -> R x y -> R' (f x) (f y)) ->
  Forall P l -> Sorted R l -> Sorted R' (f <$> l).
Proof.
  intros HR HP. induction 1 as [|a l Hl IH Ha]; simpl; [constructor|].
  apply Forall_cons in HP as [Pa HP]. constructor; [auto|].
  destruct Ha as [|b l Hab]; simpl; constructor.
  apply Forall_cons in HP as [Pb _]. auto.
Qed.

Lemma mapM_ext {A B} (f g : A -> result B) (l : list A) :
  (forall x, f x = g x) -> mapM f l = mapM g l.
Proof.
  intros Hfg. induction l as [|x l IH]; simpl; [reflexivity|].
  rewrite Hfg, IH. reflexivity.
Qed.

(** *** Keys without NaN are consistent *)

Ltac compare_cases :=
  repeat match goal with
    | H : context [Z.compare ?a ?b] |- _ => destruct (Z.compare_spec a b); subst
    | H : context [Pos.compare_cont Eq ?a ?b] |- _ =>
        change (Pos.compare_cont Eq a b) with (Pos.compare a b) in *;
        destruct (Pos.compare_spec a b); subst
    | |- context [Z.compare ?a ?b] => destruct (Z.compare_spec a b); subst
    | |- context [Pos.compare_cont Eq ?a ?b] =>
        change (Pos.compare_cont Eq a b) with (Pos.compare a b) in *;
        destruct (Pos.compare_spec a b); subst
    end.

Lemma SFcompare_trans_ge (x y z : spec_float) (c1 c2 : comparison) :
  SFcompare z y = Some c1 -> SFcompare y x = Some c2 ->
  c1 <> Lt -> c2 <> Lt ->
  SFcompare z x = Some (join_ge c1 c2).
Proof.
  intros H1 H2 Hc1 Hc2.
  destruct x as [sx|sx| |sx mx ex], y as [sy|sy| |sy my ey], z as [sz|sz| |sz mz ez];
    simpl in *; try discriminate;
    repeat match goal with s : bool |- _ => destruct s end;
    simpl in *; try discriminate;
    try (injection H1 as <-); try (injection H2 as <-);
    try congruence; try reflexivity.
  all: compare_cases; simpl in *; try congruence; try lia; try reflexivity.
Qed.

Lemma string_compare_refl (a : string) : String.compare a a = Eq.
Proof.
  pose proof (String.compare_antisym a a) as H.
  destruct (String.compare a a); simpl in H; congruence.
Qed.

Lemma string_compare_trans_ge (x y z : string) (c1 c2 : comparison) :
  String.compare z y = c1 -> String.compare y x = c2 ->
  c1 <> Lt -> c2 <> Lt ->
  String.compare z x = join_ge c1 c2.
Proof.
  intros H1 H2 Hc1 Hc2.
  assert (forall a b, String.compare a b = Gt -> String_as_OT.lt b a) as Hgt.
  { intros a b H. apply String_as_OT.cmp_lt. unfold String_as_OT.cmp.
    rewrite String.compare_antisym, H. reflexivity. }
  assert (forall a b, String_as_OT.lt b a -> String.compare a b = Gt) as Hlt.
  { intros a b H. apply String_as_OT.cmp_lt in H. unfold String_as_OT.cmp in H.
    rewrite String.compare_antisym, H. reflexivity. }
  destruct c1, c2; try congruence; simpl.
  - apply String.compare_eq_iff in H1, H2. subst. apply string_compare_refl.
  - apply String.compare_eq_iff in H1. subst. exact H2.
  - apply String.compare_eq_iff in H2. subst. exact H1.
  - apply Hlt. eapply String_as_OT.lt_trans; [apply Hgt, H2 | apply Hgt, H1].
Qed.

Lemma value_compare_trans_ge (x y z : PyVal.value) (c1 c2 : comparison) :
  value_compare z y = Some c1 -> value_compare y x = Some c2 ->
  c1 <> Lt -> c2 <> Lt ->
  value_compare z x = Some (join_ge c1 c2).
Proof.
  destruct x as [a|a|[a|a oa]], y as [b|b|[b|b ob]], z as [c|c|[c|c oc]];
    simpl; try discriminate.
  - intros [= H1] [= H2] Hc1 Hc2. f_equal.
    apply (string_compare_trans_ge a b c); assumption.
  - apply SFcompare_trans_ge.
  - intros [= H1] [= H2] Hc1 Hc2. f_equal. subst c1 c2.
    compare_cases; simpl in *; try congruence; try lia.
  - intros [= H1] [= H2] Hc1 Hc2. f_equal. subst c1 c2.
    compare_cases; simpl in *; try congruence; try lia.
Qed.

Lemma value_eqb_compare (v w : PyVal.value) :
  PyVal.value_eqb v w = true <-> value_compare v w = Some Eq.
Proof.
  destruct v as [a|a|[a|a oa]], w as [b|b|[b|b ob]]; simpl;
    try (split; discriminate).
  - rewrite String.eqb_eq. split.
    + intros ->. rewrite string_compare_refl. reflexivity.
    + intros [= H]. apply String.compare_eq_iff, H.
  - unfold SFeqb. destruct (SFcompare a b) as [[| |]|]; split; congruence.
  - rewrite Z.eqb_eq, <- Z.compare_eq_iff. split; congruence.
  - rewrite Z.eqb_eq, <- Z.compare_eq_iff. split; congruence.
Qed.

Lemma SFcompare_None (a b : spec_float) :
  SFcompare a b = None -> a = S754_nan \/ b = S754_nan.
Proof.
  destruct a as [sa|sa| |sa ma ea], b as [sb|sb| |sb mb eb]; simpl;
    try discriminate; auto.
Qed.

(** Without NaN, [v < w] being false and [v == w] being false leave
    [v > w]. *)
Lemma value_lt_false_compare (v w : PyVal.value) :
  v <> PyVal.VFloat S754_nan -> w <> PyVal.VFloat S754_nan ->
  PyVal.value_eqb v w = false -> PyVal.value_lt v w = Ok false ->
  value_compare v w = Some Gt.
Proof.
  destruct v as [a|a|[a|a oa]], w as [b|b|[b|b ob]]; simpl;
    try discriminate; intros Hv Hw Heq Hlt.
  - unfold String.ltb in Hlt. destruct (String.compare a b) eqn:Hc;
      try discriminate; [|reflexivity].
    apply String.compare_eq_iff in Hc. apply String.eqb_neq in Heq. contradiction.
  - unfold SFeqb in Heq. unfold SFltb in Hlt.
    destruct (SFcompare a b) as [[| |]|] eqn:Hc; try discriminate; [reflexivity|].
    apply SFcompare_None in Hc as [-> | ->]; congruence.
  - apply Z.eqb_neq in Heq. injection Hlt as Hlt. apply Z.ltb_ge in Hlt.
    f_equal. apply Z.compare_gt_iff. lia.
  - apply Z.eqb_neq in Heq. injection Hlt as Hlt. apply Z.ltb_ge in Hlt.
    f_equal. apply Z.compare_gt_iff. lia.
Qed.

Lemma value_compare_Gt (v w : PyVal.value) :
  value_compare v w = Some Gt ->
  PyVal.value_eqb v w = false /\ PyVal.value_lt v w = Ok false.
Proof.
  intros H. split.
  - destruct (PyVal.value_eqb v w) eqn:Heq; [|reflexivity].
    apply value_eqb_compare in Heq. congruence.
  - destruct v as [a|a|[a|a oa]], w as [b|b|[b|b ob]]; simpl in *;
      try discriminate.
    + injection H as H. unfold String.ltb. rewrite H. reflexivity.
    + unfold SFltb. rewrite H. reflexivity.
    + injection H as H. apply Z.compare_gt_iff in H. f_equal. apply Z.ltb_ge. lia.
    + injection H as H. apply Z.compare_gt_iff in H. f_equal. apply Z.ltb_ge. lia.
Qed.

(** On keys without NaN, "not smaller than" is transitive. *)
Lemma tuple_not_lt_trans (a b c : list PyVal.value) :
  nan_free a -> nan_free b -> nan_free c ->
  PyVal.tuple_lt b a = Ok false -> PyVal.tuple_lt c b = Ok false ->
  PyVal.tuple_lt c a = Ok false.
Proof.
  revert b c. induction a as [|x a IH]; intros b c Ha Hb Hc Hba Hcb.
  - destruct c; reflexivity.
  - destruct b as [|y b]; [discriminate|]. destruct c as [|z c]; [discriminate|].
    apply Forall_cons in Ha as [Hx Ha], Hb as [Hy Hb], Hc as [Hz Hc].
    simpl in *.
    assert (exists c2, value_compare y x = Some c2 /\ c2 <> Lt
                       /\ (c2 = Eq -> PyVal.tuple_lt b a = Ok false)) as (c2 & H2 & Hc2 & Hrec2).
    { destruct (PyVal.value_eqb y x) eqn:Heq.
      - exists Eq. apply value_eqb_compare in Heq.
        split; [exact Heq|]. split; [discriminate | auto].
      - exists Gt. split; [apply value_lt_false_compare; assumption|].
        split; discriminate. }
    assert (exists c1, value_compare z y = Some c1 /\ c1 <> Lt
                       /\ (c1 = Eq -> PyVal.tuple_lt c b = Ok false)) as (c1 & H1 & Hc1 & Hrec1).
    { destruct (PyVal.value_eqb z y) eqn:Heq.
      - exists Eq. apply value_eqb_compare in Heq.
        split; [exact Heq|]. split; [discriminate | auto].
      - exists Gt. split; [apply value_lt_false_compare; assumption|].
        split; discriminate. }
    pose proof (value_compare_trans_ge x y z c1 c2 H1 H2 Hc1 Hc2) as H.
    destruct c1, c2; try congruence; simpl in H.
    + apply value_eqb_compare in H. rewrite H. apply (IH b c); auto.
    + apply value_compare_Gt in H as [-> ->]. reflexivity.
    + apply value_compare_Gt in H as [-> ->]. reflexivity.
    + apply value_compare_Gt in H as [-> ->]. reflexivity.
Qed.

Lemma nan_free_consistent (keys : list (list PyVal.value)) :
  Forall nan_free keys -> consistent keys.
Proof.
  intros H a b c Ha Hb Hc. rewrite Forall_forall in H.
  apply tuple_not_lt_trans; auto.
Qed.

(** *** [list_sort] *)

Lemma Sorted_insert_at {A} (R : A -> A -> Prop) (a : list A) (n : nat) (x : A) :
  Sorted R a ->
  (n = 0 \/ exists y, a !! (n - 1) = Some y /\ R y x) ->
  (length a <= n \/ exists y, a !! n = Some y /\ R x y) ->
  Sorted R (insert_at n x a).
Proof.
  unfold insert_at. revert a. induction n as [|n IH]; intros a Ha Hl Hr.
  - rewrite take_0, drop_0. simpl. constructor; [exact Ha|].
    destruct a as [|y a]; constructor.
    destruct Hr as [Hr|(y' & [= <-] & Hr)]; [simpl in Hr; lia | exact Hr].
  - destruct a as [|y a]; simpl; [repeat constructor|].
    apply Sorted_inv in Ha as [Ha Hy].
    destruct Hl as [Hl|(y' & Hy' & Hl)]; [discriminate|].
    simpl in Hy'. rewrite Nat.sub_0_r in Hy'.
    constructor.
    + apply IH; [exact Ha| |].
      * destruct n as [|n]; [left; reflexivity|]. right. exists y'.
        simpl. rewrite Nat.sub_0_r. split; [exact Hy' | exact Hl].
      * destruct Hr as [Hr|Hr]; [left; simpl in Hr; lia | right; exact Hr].
    + destruct n as [|n].
      * rewrite take_0. simpl. constructor. injection Hy' as <-. exact Hl.
      * destruct a as [|z a]; [discriminate|]. simpl. constructor.
        inversion Hy; assumption.
Qed.

Section ListSort.
Context {A : Type}.
Implicit Types (x y pivot prev : item A) (a l rest s : list (item A)).

Lemma item_lt_asym x y : item_lt x y = Ok true -> item_lt y x = Ok false.
Proof. apply tuple_lt_asym. Qed.

(** **** The run at the start of the list *)

Lemma run_length_le descending prev l m :
  run_length descending prev l = Ok m -> m <= length l.
Proof.
  revert prev m. induction l as [|x l IH]; intros prev m; simpl.
  - intros [= <-]. lia.
  - intros H. apply bind_Ok in H as (b & _ & H).
    destruct (Bool.eqb b descending).
    + apply fmap_Ok in H as (m' & Hm' & ->). apply IH in Hm'. lia.
    + injection H as <-. lia.
Qed.

Lemma run_length_Sorted descending prev l m :
  run_length descending prev l = Ok m ->
  Sorted (run_step descending) (prev :: take m l).
Proof.
  revert prev m. induction l as [|x l IH]; intros prev m; simpl.
  - intros [= <-]. repeat constructor.
  - intros H. apply bind_Ok in H as (b & Hb & H).
    destruct (Bool.eqb b descending) eqn:Hbd.
    + apply fmap_Ok in H as (m' & Hm' & ->). simpl.
      constructor; [apply IH, Hm'|]. constructor.
      apply Bool.eqb_prop in Hbd as <-. exact Hb.
    + injection H as <-. repeat constructor.
Qed.

Lemma count_run_spec l n descending :
  count_run l = Ok (n, descending) ->
  n <= length l /\ Sorted (run_step descending) (take n l).
Proof.
  destruct l as [|x [|y l]]; simpl.
  - intros [= <- <-]. split; [lia | constructor].
  - intros [= <- <-]. split; [lia | repeat constructor].
  - intros H. apply bind_Ok in H as (d & Hd & H).
    apply bind_Ok in H as (m & Hm & [= <- <-]).
    split; [apply run_length_le in Hm; lia|].
    simpl. constructor; [eapply run_length_Sorted, Hm|].
    constructor. exact Hd.
Qed.

Lemma run_length_ascending prev l :
  Sorted not_after (prev :: l) -> run_length false prev l = Ok (length l).
Proof.
  revert prev. induction l as [|x l IH]; intros prev H; [reflexivity|].
  apply Sorted_inv in H as [H Hx]. apply HdRel_inv in Hx.
  simpl. unfold item_lt. unfold not_after in Hx. rewrite Hx. simpl.
  rewrite (IH _ H). reflexivity.
Qed.

Lemma count_run_ascending l :
  Sorted not_after l -> count_run l = Ok (length l, false).
Proof.
  destruct l as [|x [|y l]]; intros H; try reflexivity.
  apply Sorted_inv in H as [H Hy]. apply HdRel_inv in Hy.
  simpl. unfold item_lt. unfold not_after in Hy. rewrite Hy. simpl.
  rewrite (run_length_ascending _ _ H). reflexivity.
Qed.

(** The run, reversed when descending, is in ascending order. *)
Lemma run_Sorted (descending : bool) l :
  Sorted (run_step descending) l ->
  Sorted not_after (if descending then rev l else l).
Proof.
  destruct descending; [|exact id]. intros H.
  apply Sorted_rev in H. revert H. generalize (rev l). clear l.
  induction 1 as [|x l _ IH Hx]; constructor; [exact IH|].
  destruct Hx as [|y l Hxy]; constructor.
  unfold not_after. apply tuple_lt_asym, Hxy.
Qed.

(** **** The binary search *)

Lemma bisect_spec fuel pivot a lo hi n :
  lo <= hi <= length a -> hi - lo <= fuel ->
  bisect fuel pivot a lo hi = Ok n ->
  lo <= n <= hi
  /\ (n = lo \/ exists x, a !! (n - 1) = Some x /\ item_lt pivot x = Ok false)
  /\ (n = hi \/ exists x, a !! n = Some x /\ item_lt pivot x = Ok true).
Proof.
  revert lo hi. induction fuel as [|fuel IH]; intros lo hi Hlr Hfuel;
    cbn [bisect].
  - intros [= <-]. split; [lia|]. split; left; lia.
  - destruct (Nat.ltb_spec lo hi) as [Hlt|Hge];
      [|intros [= <-]; split; [lia|]; split; left; lia].
    assert ((hi - lo) / 2 < hi - lo) as Hhalf by (apply Nat.div_lt; lia).
    set (p := lo + (hi - lo) / 2) in *.
    destruct (a !! p) as [x|] eqn:Hp;
      [|apply lookup_ge_None in Hp; lia].
    intros H. apply bind_Ok in H as ([|] & Hb & H).
    + apply IH in H as (Hn & Hleft & Hright); [|lia|lia].
      split; [lia|]. split; [exact Hleft|].
      destruct Hright as [->|Hright]; [|right; exact Hright].
      right. eauto.
    + apply IH in H as (Hn & Hleft & Hright); [|lia|lia].
      split; [lia|]. split; [|exact Hright].
      destruct Hleft as [->|Hleft]; [|right; exact Hleft].
      right. exists x. simpl. rewrite Nat.sub_0_r. auto.
Qed.

Lemma bisect_total fuel pivot a lo hi :
  hi <= length a ->
  (forall x, x ∈ a -> exists c, item_lt pivot x = Ok c) ->
  exists n, bisect fuel pivot a lo hi = Ok n.
Proof.
  intros Hr Hok. revert lo hi Hr.
  induction fuel as [|fuel IH]; intros lo hi Hr; cbn [bisect]; [eauto|].
  destruct (Nat.ltb_spec lo hi) as [Hlt|Hge]; [|eauto].
  assert ((hi - lo) / 2 < hi - lo) as Hhalf by (apply Nat.div_lt; lia).
  destruct (a !! (lo + (hi - lo) / 2)) as [x|] eqn:Hp; [|eauto].
  destruct (Hok x) as [c Hc]; [eapply list_elem_of_lookup_2, Hp|].
  rewrite Hc. cbn [mbind result_bind]. destruct c; apply IH; lia.
Qed.

(** **** [binarysort] *)

Lemma insert_at_Permutation (n : nat) x a : Permutation (insert_at n x a) (x :: a).
Proof.
  unfold insert_at. rewrite <- Permutation_middle, take_drop. reflexivity.
Qed.

Lemma binarysort_Permutation a rest s :
  binarysort a rest = Ok s -> Permutation s (a ++ rest).
Proof.
  revert a s. induction rest as [|pivot rest IH]; intros a s; simpl.
  - intros [= <-]. rewrite app_nil_r. reflexivity.
  - intros H. apply bind_Ok in H as (n & _ & H). apply IH in H.
    rewrite H, insert_at_Permutation. simpl. apply Permutation_middle.
Qed.

Lemma bisect_insert_Sorted pivot a n :
  Sorted not_after a ->
  bisect (length a) pivot a 0 (length a) = Ok n ->
  Sorted not_after (insert_at n pivot a).
Proof.
  intros Ha H. apply bisect_spec in H as (Hn & Hleft & Hright); [|lia|lia].
  apply Sorted_insert_at; [exact Ha| |].
  - destruct Hleft as [Hleft|(x & Hx & Hlt)]; [left; exact Hleft|].
    right. exists x. split; [exact Hx | exact Hlt].
  - destruct Hright as [Hright|(x & Hx & Hlt)];
      [left; apply Nat.eq_le_incl; symmetry; exact Hright|].
    right. exists x. split; [exact Hx|].
    unfold not_after. apply tuple_lt_asym, Hlt.
Qed.

Lemma binarysort_Sorted a rest s :
  Sorted not_after a -> binarysort a rest = Ok s -> Sorted not_after s.
Proof.
  revert a s. induction rest as [|pivot rest IH]; intros a s Ha; simpl.
  - intros [= <-]. exact Ha.
  - intros H. apply bind_Ok in H as (n & Hn & H).
    eapply IH, H. apply bisect_insert_Sorted; assumption.
Qed.

Lemma binarysort_total a rest :
  (forall x y, x ∈ a ++ rest -> y ∈ a ++ rest -> exists c, item_lt x y = Ok c) ->
  exists s, binarysort a rest = Ok s.
Proof.
  revert a. induction rest as [|pivot rest IH]; intros a Hok; simpl; [eauto|].
  destruct (bisect_total (length a) pivot a 0 (length a)) as [n Hn]; [lia| |].
  { intros x Hx. apply Hok; apply elem_of_app; [right; left | left; exact Hx]. }
  rewrite Hn. simpl. apply IH.
  assert (forall x, x ∈ insert_at n pivot a ++ rest -> x ∈ a ++ pivot :: rest) as Hin.
  { assert (Permutation (insert_at n pivot a ++ rest) (a ++ pivot :: rest)) as HP
      by (rewrite insert_at_Permutation; simpl; apply Permutation_middle).
    intros x Hx. rewrite <- HP. exact Hx. }
  intros x y Hx Hy. apply Hok; apply Hin; assumption.
Qed.

(** **** [list_sort] *)

Lemma list_sort_inv l s :
  list_sort l = Ok s ->
  (length l < 2 /\ s = l)
  \/ exists n descending,
       count_run l = Ok (n, descending)
       /\ binarysort (if descending then rev (take n l) else take n l) (drop n l)
          = Ok s.
Proof.
  destruct l as [|x [|y l]].
  - intros [= <-]. left. split; [simpl; lia | reflexivity].
  - intros [= <-]. left. split; [simpl; lia | reflexivity].
  - unfold list_sort. intros H. apply bind_Ok in H as ([n d] & Hc & H).
    right. exists n, d. split; assumption.
Qed.

Lemma list_sort_Permutation l s : list_sort l = Ok s -> Permutation s l.
Proof.
  intros H. apply list_sort_inv in H as [[_ ->]|(n & d & _ & H)]; [reflexivity|].
  apply binarysort_Permutation in H. rewrite H.
  transitivity (take n l ++ drop n l); [|rewrite take_drop; reflexivity].
  apply Permutation_app_tail.
  destruct d; [symmetry; apply Permutation_rev | reflexivity].
Qed.

Lemma list_sort_Sorted l s : list_sort l = Ok s -> Sorted not_after s.
Proof.
  intros H. apply list_sort_inv in H as [[Hlen ->]|(n & d & Hc & H)].
  - destruct l as [|x [|y l]]; [constructor | repeat constructor | simpl in Hlen; lia].
  - apply count_run_spec in Hc as [_ Hrun].
    eapply binarysort_Sorted, H. apply run_Sorted, Hrun.
Qed.

(** A list in ascending order is one run: it is returned as it is. *)
Lemma list_sort_fixpoint l : Sorted not_after l -> list_sort l = Ok l.
Proof.
  intros H. destruct l as [|x [|y l]]; try reflexivity.
  unfold list_sort. rewrite (count_run_ascending _ H). simpl.
  rewrite take_ge, drop_ge by (simpl; lia). reflexivity.
Qed.

Lemma run_length_total descending prev l :
  (forall x y, x ∈ prev :: l -> y ∈ prev :: l -> exists c, item_lt x y = Ok c) ->
  exists m, run_length descending prev l = Ok m.
Proof.
  revert prev. induction l as [|x l IH]; intros prev Hok; simpl; [eauto|].
  destruct (Hok x prev) as [b ->]; [right; left | left |]. simpl.
  destruct (Bool.eqb b descending); [|eauto].
  destruct (IH x) as [m ->]; [|simpl; eauto].
  intros y z Hy Hz. apply Hok; right; assumption.
Qed.

Lemma list_sort_total l :
  (forall x y, x ∈ l -> y ∈ l -> exists c, item_lt x y = Ok c) ->
  exists s, list_sort l = Ok s.
Proof.
  intros Hok. destruct l as [|x [|y l]]; [simpl; eauto | simpl; eauto |].
  assert (exists n d, count_run (x :: y :: l) = Ok (n, d)) as (n & d & Hc).
  { simpl. destruct (Hok y x) as [c ->]; [right; left | left |]. simpl.
    destruct (run_length_total c y l) as [m ->]; [|simpl; eauto].
    intros z z' Hz Hz'. apply Hok; right; assumption. }
  unfold list_sort. rewrite Hc. simpl. apply binarysort_total.
  assert (forall z : item A,
            z ∈ (if d then rev (take n (x :: y :: l)) else take n (x :: y :: l))
                ++ drop n (x :: y :: l) -> z ∈ x :: y :: l) as Hin.
  { assert (Permutation
              ((if d then rev (take n (x :: y :: l)) else take n (x :: y :: l))
               ++ drop n (x :: y :: l)) (x :: y :: l)) as HP.
    { transitivity (take n (x :: y :: l) ++ drop n (x :: y :: l));
        [|rewrite take_drop; reflexivity].
      apply Permutation_app_tail.
      destruct d; [symmetry; apply Permutation_rev | reflexivity]. }
    intros z Hz. rewrite <- HP. exact Hz. }
  intros z z' Hz Hz'. apply Hok; apply Hin; assumption.
Qed.

End ListSort.

(** *** Stability of [list_sort] on consistent keys *)

Lemma List_filter_none {A} (f : A -> bool) (l : list A) :
  Forall (fun x => f x = false) l -> List.filter f l = [].
Proof. induction 1 as [|x l Hx _ IH]; simpl; [|rewrite Hx]; auto. Qed.

Section ListSortStable.
Context {A : Type} (K : list (list PyVal.value)).
Hypothesis K_consistent : consistent K.
Implicit Types (x y pivot : item A) (a l rest s : list (item A)).

Lemma not_after_trans x y z :
  x.1 ∈ K -> y.1 ∈ K -> z.1 ∈ K ->
  not_after x y -> not_after y z -> not_after x z.
Proof.
  unfold not_after. intros Hx Hy Hz Hxy Hyz.
  exact (K_consistent x.1 y.1 z.1 Hx Hy Hz Hxy Hyz).
Qed.

Lemma Sorted_not_after_head x a :
  keyed K (x :: a) -> Sorted not_after (x :: a) -> Forall (not_after x) a.
Proof.
  revert x. induction a as [|y a IH]; intros x Hk H; [constructor|].
  apply Sorted_inv in H as [H Hy]. apply HdRel_inv in Hy.
  apply Forall_cons in Hk as [Hx Hk]. pose proof Hk as Hk'.
  apply Forall_cons in Hk' as [Hy' Ha].
  constructor; [exact Hy|].
  specialize (IH y Hk H). rewrite Forall_forall in IH, Ha |- *.
  intros z Hz. apply (not_after_trans x y z); auto.
Qed.

(** Behind the place the binary search returns, no item has the key of the
    pivot. *)
Lemma bisect_no_equal_behind k pivot a n :
  keyed K (pivot :: a) -> Sorted not_after a ->
  bisect (length a) pivot a 0 (length a) = Ok n ->
  has_key k pivot = true ->
  List.filter (has_key k) (drop n a) = [].
Proof.
  intros Hk Ha H Hpivot.
  apply bisect_spec in H as (Hn & _ & Hright); [|lia|lia].
  destruct Hright as [Hright|(x0 & Hx0 & Hlt)].
  { rewrite drop_ge; [reflexivity|]. apply Nat.eq_le_incl. symmetry. exact Hright. }
  apply Forall_cons in Hk as [Hp Hk].
  assert (keyed K (drop n a)) as Hkd by (apply Forall_drop, Hk).
  assert (Sorted not_after (drop n a)) as Hsd.
  { rewrite <- (take_drop n a) in Ha. clear -Ha.
    induction (take n a) as [|z t IH]; [exact Ha|].
    apply IH. simpl in Ha. apply Sorted_inv in Ha as [Ha _]. exact Ha. }
  rewrite (drop_S _ _ _ Hx0) in Hkd, Hsd |- *.
  pose proof (Sorted_not_after_head _ _ Hkd Hsd) as Hbehind.
  apply Forall_cons in Hkd as [Hx0k Hkd].
  assert (forall y, y.1 ∈ K -> (y = x0 \/ not_after x0 y) -> has_key k y = false) as Hno.
  { intros y Hyk Hy. destruct (has_key k y) eqn:Hky; [|reflexivity].
    pose proof (tuple_lt_same_class _ _ _ Hky Hpivot) as Hpy.
    destruct Hy as [->|Hy]; [unfold item_lt in Hlt; congruence|].
    assert (not_after x0 pivot) as Hcontra
      by (apply (not_after_trans x0 y pivot); assumption).
    unfold not_after in Hcontra. unfold item_lt in Hlt. congruence. }
  apply List_filter_none. constructor; [apply Hno; auto|].
  rewrite Forall_forall in Hbehind, Hkd |- *. intros y Hy. apply Hno; auto.
Qed.

Lemma bisect_insert_filter k pivot a n :
  keyed K (pivot :: a) -> Sorted not_after a ->
  bisect (length a) pivot a 0 (length a) = Ok n ->
  List.filter (has_key k) (insert_at n pivot a)
  = List.filter (has_key k) (a ++ [pivot]).
Proof.
  intros Hk Ha H. unfold insert_at.
  transitivity (List.filter (has_key k) ((take n a ++ drop n a) ++ [pivot]));
    [|rewrite take_drop; reflexivity].
  rewrite !List.filter_app. simpl.
  destruct (has_key k pivot) eqn:Hp; [|rewrite app_nil_r; reflexivity].
  rewrite (bisect_no_equal_behind k pivot a n Hk Ha H Hp), app_nil_r.
  reflexivity.
Qed.

Lemma keyed_Permutation l l' : Permutation l l' -> keyed K l -> keyed K l'.
Proof. intros H. unfold keyed. rewrite H. exact id. Qed.

Lemma binarysort_filter k a rest s :
  keyed K (a ++ rest) -> Sorted not_after a -> binarysort a rest = Ok s ->
  List.filter (has_key k) s = List.filter (has_key k) (a ++ rest).
Proof.
  revert a s. induction rest as [|pivot rest IH]; intros a s Hk Ha; simpl.
  - intros [= <-]. rewrite app_nil_r. reflexivity.
  - intros H. apply bind_Ok in H as (n & Hn & H).
    assert (keyed K (pivot :: a)) as Hpa.
    { apply Forall_app in Hk as [Hk1 Hk2]. apply Forall_cons in Hk2 as [Hp _].
      constructor; assumption. }
    apply IH in H.
    + rewrite H, !List.filter_app, (bisect_insert_filter k pivot a n Hpa Ha Hn).
      rewrite List.filter_app. simpl. rewrite <- app_assoc.
      destruct (has_key k pivot); reflexivity.
    + eapply keyed_Permutation; [|exact Hk].
      rewrite insert_at_Permutation. simpl. symmetry. apply Permutation_middle.
    + apply bisect_insert_Sorted; assumption.
Qed.

(** In a descending run every item is strictly below the ones before
    it: no two items have the same key. *)
Lemma descending_run_below x l :
  keyed K (x :: l) -> Sorted (run_step true) (x :: l) -> Forall (below x) l.
Proof.
  revert x. induction l as [|y l IH]; intros x Hk H; [constructor|].
  apply Sorted_inv in H as [H Hy]. apply HdRel_inv in Hy.
  apply Forall_cons in Hk as [Hx Hk]. pose proof Hk as Hk'.
  apply Forall_cons in Hk' as [Hy' Hl].
  unfold run_step in Hy.
  assert (below x y) as Hxy.
  { split; [apply item_lt_asym, Hy | congruence]. }
  constructor; [exact Hxy|].
  specialize (IH y Hk H). rewrite Forall_forall in IH, Hl |- *.
  intros z Hz. destruct (IH z Hz) as [Hyz Hzy]. destruct Hxy as [Hxy Hyx].
  split.
  - apply (K_consistent z.1 y.1 x.1); auto.
  - intros Hzx. apply Hyx. apply (K_consistent x.1 z.1 y.1); auto.
Qed.

Lemma descending_run_filter k l :
  keyed K l -> Sorted (run_step true) l ->
  List.filter (has_key k) (rev l) = List.filter (has_key k) l.
Proof.
  induction l as [|x l IH]; intros Hk H; [reflexivity|].
  pose proof (descending_run_below x l Hk H) as Hbelow.
  apply Sorted_inv in H as [H _]. apply Forall_cons in Hk as [_ Hk].
  simpl. rewrite List.filter_app, (IH Hk H). simpl.
  destruct (has_key k x) eqn:Hx; [|apply app_nil_r].
  assert (List.filter (has_key k) l = []) as ->; [|reflexivity].
  apply List_filter_none. eapply Forall_impl; [exact Hbelow|].
  intros z [_ Hz]. destruct (has_key k z) eqn:Hkz; [|reflexivity].
  exfalso. apply Hz. apply (tuple_lt_same_class _ _ _ Hx Hkz).
Qed.

Lemma list_sort_filter k l s :
  keyed K l -> list_sort l = Ok s ->
  List.filter (has_key k) s = List.filter (has_key k) l.
Proof.
  intros Hk H. apply list_sort_inv in H as [[_ ->]|(n & d & Hc & H)]; [reflexivity|].
  apply count_run_spec in Hc as [_ Hrun].
  assert (keyed K (take n l) /\ keyed K (drop n l)) as [Hkt Hkd].
  { rewrite <- (take_drop n l) in Hk. apply Forall_app in Hk. exact Hk. }
  apply binarysort_filter with (k := k) in H.
  - rewrite H, List.filter_app.
    transitivity (List.filter (has_key k) (take n l ++ drop n l));
      [|rewrite take_drop; reflexivity].
    rewrite List.filter_app. f_equal.
    destruct d; [apply descending_run_filter; assumption | reflexivity].
  - apply Forall_app. split; [|exact Hkd].
    destruct d; [|exact Hkt].
    eapply keyed_Permutation; [apply Permutation_rev | exact Hkt].
  - apply run_Sorted, Hrun.
Qed.

End ListSortStable.

(** *** [sorted], continued *)

Section Sorted.
Context {A : Type} (key : A -> result (list PyVal.value)).
Implicit Types (data out : list A) (d s : list (list PyVal.value * A)).

Lemma flip_if_involutive reverse d : flip_if reverse (flip_if reverse d) = d.
Proof. destruct reverse; simpl; [apply rev_involutive | reflexivity]. Qed.

Lemma flip_if_Permutation reverse d : Permutation (flip_if reverse d) d.
Proof. destruct reverse; simpl; [symmetry; apply Permutation_rev | reflexivity]. Qed.

Lemma flip_if_filter reverse (f : list PyVal.value * A -> bool) d :
  List.filter f (flip_if reverse d) = flip_if reverse (List.filter f d).
Proof. destruct reverse; simpl; [apply filter_rev | reflexivity]. Qed.

Lemma sorted_inv data reverse out :
  sorted data key reverse = Ok out ->
  exists d s, Forall (decorated key) d /\ d.*2 = data /\
    mapM key data = Ok d.*1 /\
    list_sort (flip_if reverse d) = Ok s /\ out = (flip_if reverse s).*2.
Proof.
  unfold sorted. intros H. apply bind_Ok in H as (keys & Hkeys & H).
  apply bind_Ok in H as (s & Hs & [= <-]).
  pose proof (mapM_Ok_length _ _ _ Hkeys) as Hlen.
  pose proof Hkeys as Hkeys'.
  apply mapM_zip_decorated in Hkeys' as [Hd Hdata].
  exists (zip keys data), s. rewrite fst_zip by lia. auto.
Qed.

Lemma sorted_of_decorated reverse d s :
  Forall (decorated key) d -> list_sort (flip_if reverse d) = Ok s ->
  sorted d.*2 key reverse = Ok (flip_if reverse s).*2.
Proof.
  intros Hd Hs. unfold sorted. rewrite (mapM_decorated _ _ Hd). simpl.
  rewrite zip_fst_snd. fold (flip_if reverse d). rewrite Hs. reflexivity.
Qed.

Lemma sorted_decorated reverse d s :
  Forall (decorated key) d -> list_sort (flip_if reverse d) = Ok s ->
  Forall (decorated key) (flip_if reverse s).
Proof.
  intros Hd Hs. apply list_sort_Permutation in Hs.
  rewrite flip_if_Permutation, Hs, flip_if_Permutation. exact Hd.
Qed.

Lemma filter_decorated k d :
  Forall (decorated key) d ->
  List.filter (key_is key k) d.*2 = (List.filter (has_key k) d).*2.
Proof.
  induction 1 as [|[kx x] d Hx _ IH]; [reflexivity|].
  rewrite fmap_cons. simpl. unfold key_is at 1, has_key at 1.
  unfold decorated in Hx. simpl in *. rewrite Hx.
  destruct (PyVal.tuple_eqb kx k); simpl; rewrite IH; reflexivity.
Qed.

(** The output holds the rows of the input. *)
Lemma sorted_Permutation data reverse out :
  sorted data key reverse = Ok out -> Permutation out data.
Proof.
  intros H. apply sorted_inv in H as (d & s & _ & <- & _ & Hs & ->).
  apply list_sort_Permutation in Hs.
  apply fmap_Permutation. rewrite flip_if_Permutation, Hs.
  apply flip_if_Permutation.
Qed.

(** When the keys of the rows are consistent, the rows with keys equal to
    [k] come out in input order. *)
Lemma sorted_stable data reverse out keys k :
  mapM key data = Ok keys -> consistent keys ->
  sorted data key reverse = Ok out ->
  List.filter (key_is key k) out = List.filter (key_is key k) data.
Proof.
  intros Hkeys Hcons H.
  apply sorted_inv in H as (d & s & Hd & <- & Hkeys' & Hs & ->).
  rewrite Hkeys in Hkeys'. injection Hkeys' as ->.
  rewrite !filter_decorated by eauto using sorted_decorated.
  rewrite flip_if_filter.
  rewrite (list_sort_filter d.*1 Hcons k _ _) with (2 := Hs).
  - rewrite flip_if_filter, flip_if_involutive. reflexivity.
  - eapply keyed_Permutation; [symmetry; apply flip_if_Permutation|].
    apply Forall_forall. intros x Hx. apply list_elem_of_fmap_2, Hx.
Qed.

(** Neighbours in the output are in the order the direction asks for. *)
Lemma sorted_in_order data reverse out :
  sorted data key reverse = Ok out -> Sorted (in_order key reverse) out.
Proof.
  intros H. apply sorted_inv in H as (d & s & Hd & <- & _ & Hs & ->).
  pose proof (sorted_decorated _ _ _ Hd Hs) as Hdec.
  apply list_sort_Sorted in Hs.
  destruct reverse; simpl in *.
  - apply (Sorted_fmap (decorated key) (flip not_after)); [|assumption|].
    + intros x y Hx Hy Hxy. exists x.1, y.1. auto.
    + apply Sorted_rev, Hs.
  - apply (Sorted_fmap (decorated key) not_after); [|assumption|assumption].
    intros x y Hx Hy Hxy. exists x.1, y.1. auto.
Qed.

(** Sorting the output again returns it. *)
Lemma sorted_idempotent data reverse out :
  sorted data key reverse = Ok out -> sorted out key reverse = Ok out.
Proof.
  intros H. apply sorted_inv in H as (d & s & Hd & <- & _ & Hs & ->).
  pose proof (sorted_decorated _ _ _ Hd Hs) as Hdec.
  pose proof (list_sort_Sorted _ _ Hs) as Hsorted.
  rewrite <- (flip_if_involutive reverse s) at 2.
  apply sorted_of_decorated; [assumption|].
  rewrite flip_if_involutive. apply list_sort_fixpoint, Hsorted.
Qed.

End Sorted.

Lemma sorted_ext {A} (key key' : A -> result (list PyVal.value)) data reverse :
  (forall x, key x = key' x) -> sorted data key reverse = sorted data key' reverse.
Proof. intros H. unfold sorted. rewrite (mapM_ext _ _ _ H). reflexivity. Qed.
(** *** Lists *)

Lemma List_filter_Permutation {A} (f : A -> bool) (l l' : list A) :
  Permutation l l' -> Permutation (List.filter f l) (List.filter f l').
Proof.
  induction 1 as [|x l l' _ IH|x y l|l l' l'' _ IH1 _ IH2]; simpl.
  - reflexivity.
  - destruct (f x); [constructor|]; assumption.
  - destruct (f x), (f y); try reflexivity. apply perm_swap.
  - etransitivity; eassumption.
Qed.

Lemma forallb_Permutation {A} (f : A -> bool) (l l' : list A) :
  Permutation l l' -> forallb f l = forallb f l'.
Proof.
  induction 1 as [|x l l' _ IH|x y l|l l' l'' _ IH1 _ IH2]; simpl.
  - reflexivity.
  - rewrite IH. reflexivity.
  - destruct (f x), (f y); reflexivity.
  - congruence.
Qed.

(** *** The threshold of the type detector on binary64 *)

Lemma ratio_gt_080_checked :
  forallb (fun n =>
    forallb (fun k => Bool.eqb (ratio_gt_080_float k n) (ratio_gt_080 k n))
      (seq 0 (S n)))
    (seq 1 100) = true.
Proof. vm_compute. reflexivity. Qed.

(** For two counts [k <= n] with [1 <= n <= 100], the float division and
    comparison of the source decide [5 * k > 4 * n]. *)
Lemma ratio_gt_080_binary64 (k n : nat) :
  (k <= n)%nat -> (1 <= n <= 100)%nat -> ratio_gt_080_float k n = ratio_gt_080 k n.
Proof.
  intros Hk Hn. pose proof ratio_gt_080_checked as H.
  rewrite forallb_forall in H.
  assert (In n (seq 1 100)) as Hin by (apply in_seq; lia).
  specialize (H n Hin). rewrite forallb_forall in H.
  apply Bool.eqb_prop, H, in_seq. lia.
Qed.

Section FieldTypesAndKeys.

Variable py_float : string -> option spec_float.
Variable date_parse : string -> option PyVal.datetime.

Abbreviation detect_field_type := (detect_field_type py_float date_parse).
Abbreviation number_count := (number_count py_float).
Abbreviation date_count := (date_count date_parse).
Abbreviation sort_value := (sort_value py_float date_parse).
Abbreviation resolve_field_types := (resolve_field_types py_float date_parse).
Abbreviation sort_key := (sort_key py_float date_parse).
Abbreviation sort_rows := (sort_rows py_float date_parse).
Abbreviation sort_csv_file := (sort_csv_file py_float date_parse).
Abbreviation process_file := (process_file py_float date_parse).
Abbreviation process_files := (process_files py_float date_parse).
Abbreviation main := (main py_float date_parse).

(** *** Type detection *)

Lemma detect_field_type_unfold (sample_values : list string) :
  detect_field_type sample_values =
  let values := non_empty sample_values in
  if (length values =? 0)%nat then "text"
  else if ratio_gt_080 (number_count values) (length values) then "number"
  else if ratio_gt_080 (date_count values) (length values) then "date"
  else "text".
Proof.
  unfold detect_field_type. destruct sample_values as [|v l]; [reflexivity|].
  destruct (non_empty (v :: l)); reflexivity.
Qed.

Lemma non_empty_Permutation (l l' : list string) :
  Permutation l l' -> Permutation (non_empty l) (non_empty l').
Proof. intros H. apply Permutation_map, List_filter_Permutation, H. Qed.

Lemma detect_field_type_Permutation (l l' : list string) :
  Permutation l l' -> detect_field_type l = detect_field_type l'.
Proof.
  intros H. rewrite !detect_field_type_unfold. cbv zeta.
  apply non_empty_Permutation in H.
  unfold number_count, date_count.
  rewrite (Permutation_length H).
  rewrite (Permutation_length (List_filter_Permutation (parses_as_number py_float) _ _ H)).
  rewrite (Permutation_length (List_filter_Permutation (parses_as_date date_parse) _ _ H)).
  reflexivity.
Qed.

(** *** Field types and keys *)

Lemma mapM_getitem (i : nat) (l : list row) :
  mapM (fun r => getitem r i) l =
  if forallb (fun r : row => (i <? length r)%nat) l
  then Ok (map (fun r : row => default "" (r !! i)) l)
  else Raise IndexError.
Proof.
  induction l as [|r l IH]; [reflexivity|].
  cbn [mapM forallb map]. rewrite IH. unfold getitem.
  destruct (r !! i) as [v|] eqn:Hr.
  - apply lookup_lt_Some in Hr as Hlt. apply Nat.ltb_lt in Hlt as ->.
    destruct (forallb _ l); reflexivity.
  - apply lookup_ge_None in Hr as Hge. apply Nat.ltb_ge in Hge as ->.
    reflexivity.
Qed.

Lemma sample_Permutation (i : nat) (l l' : list row) :
  Permutation l l' ->
  detect_field_type <$> mapM (fun r => getitem r i) l
  = detect_field_type <$> mapM (fun r => getitem r i) l'.
Proof.
  intros H. rewrite !mapM_getitem, (forallb_Permutation _ _ _ H).
  destruct (forallb _ l'); [|reflexivity]. simpl. f_equal.
  apply detect_field_type_Permutation, Permutation_map, H.
Qed.

Lemma bind_fmap_result {A B C} (m : result A) (f : A -> B) (g : B -> result C) :
  (f <$> m) ≫= g = m ≫= (fun a => g (f a)).
Proof. destruct m; reflexivity. Qed.

(** The field types of two files agree when no field is [auto], and when
    the files hold the same rows, at most 100 of them. *)
Lemma resolve_field_types_data header data data' common field_types :
  no_auto common \/ (Permutation data data' /\ (length data <= 100)%nat) ->
  resolve_field_types header data common field_types
  = resolve_field_types header data' common field_types.
Proof.
  intros H. revert field_types.
  induction common as [|f common IH]; intros field_types; [reflexivity|].
  assert (no_auto common \/ (Permutation data data' /\ (length data <= 100)%nat))
    as H' by (destruct H as [H|H]; [left; eapply Forall_inv_tail, H | right; exact H]).
  cbn [resolve_field_types].
  destruct (String.eqb (Field.type f) "auto") eqn:Hauto; [|apply IH, H'].
  destruct H as [H|[Hperm Hlen]].
  - apply Forall_inv in H. apply String.eqb_eq in Hauto. contradiction.
  - destruct (index (Field.name f) header) as [i|e]; [|reflexivity]. simpl.
    rewrite !take_ge by (rewrite <- ?(Permutation_length Hperm); lia).
    pose proof (sample_Permutation i _ _ Hperm) as Hs.
    destruct (mapM _ data) as [k|e], (mapM _ data') as [k'|e'];
      simpl in *; try discriminate.
    + injection Hs as ->. apply IH, H'.
    + congruence.
Qed.

Lemma resolve_field_types_same_name_type header data common common' field_types :
  Forall2 same_name_type common common' ->
  resolve_field_types header data common field_types
  = resolve_field_types header data common' field_types.
Proof.
  intros H. revert field_types.
  induction H as [|f f' common common' [Hn Ht] _ IH]; intros field_types;
    [reflexivity|].
  cbn [resolve_field_types]. rewrite Hn, Ht.
  destruct (String.eqb (Field.type f') "auto").
  - destruct (index _ header); [|reflexivity]. simpl.
    destruct (mapM _ _); [|reflexivity]. simpl. apply IH.
  - apply IH.
Qed.

Lemma sort_key_same_name_type header field_types common common' r :
  Forall2 same_name_type common common' ->
  sort_key header field_types common r = sort_key header field_types common' r.
Proof.
  induction 1 as [|f f' common common' [Hn Ht] _ IH]; [reflexivity|].
  cbn [sort_key]. rewrite Hn, IH. reflexivity.
Qed.

Lemma sort_rows_same_name_type common common' header data sort_config sort_config' :
  Forall2 same_name_type common common' ->
  SortConfig.order sort_config = SortConfig.order sort_config' ->
  sort_rows common header data sort_config
  = sort_rows common' header data sort_config'.
Proof.
  intros H Ho. unfold sort_rows.
  rewrite (resolve_field_types_same_name_type _ _ _ _ _ H), Ho.
  destruct (resolve_field_types _ _ _ _) as [ft|e]; [|reflexivity].
  simpl. apply sorted_ext. intros r. apply sort_key_same_name_type, H.
Qed.

Lemma sort_csv_file_same_name_type common common' input_file sort_config sort_config' :
  Forall2 same_name_type common common' ->
  SortConfig.order sort_config = SortConfig.order sort_config' ->
  SortConfig.delimiter sort_config = SortConfig.delimiter sort_config' ->
  sort_csv_file common input_file sort_config
  = sort_csv_file common' input_file sort_config'.
Proof.
  intros H Ho Hd. unfold sort_csv_file.
  destruct (read_rows input_file) as [[|header data]|e]; try reflexivity.
  simpl. rewrite (sort_rows_same_name_type _ _ _ _ _ _ H Ho), Hd. reflexivity.
Qed.

Lemma sort_rows_inv common header data sort_config out :
  sort_rows common header data sort_config = Ok out ->
  exists field_types,
    resolve_field_types header data common ∅ = Ok field_types
    /\ sorted data (sort_key header field_types common)
         (String.eqb (SortConfig.order sort_config) "desc") = Ok out.
Proof. intros H. apply bind_Ok in H as (ft & Hft & H). eauto. Qed.

Lemma sort_csv_file_inv common header data fails sort_config text :
  sort_csv_file common (Content (header :: data) fails) sort_config = Ok (Some text) ->
  fails = false /\ exists out,
    sort_rows common header data sort_config = Ok out
    /\ text = file_text (SortConfig.delimiter sort_config) header out.
Proof.
  unfold sort_csv_file. destruct fails; [discriminate|]. simpl.
  intros H. apply bind_Ok in H as (out & Hout & [= <-]). eauto.
Qed.

End FieldTypesAndKeys.
(** *** The header reconciler *)

Lemma read_header_fst fs m log filename :
  (read_header fs (m, log) filename).1 = <[filename := header_set (fs filename)]> m.
Proof.
  unfold read_header, header_set.
  destruct (fs filename) as [|[|header rows] fails]; reflexivity.
Qed.

Lemma foldl_read_header_lookup fs input_files m log filename :
  (foldl (read_header fs) (m, log) input_files).1 !! filename =
  if decide (filename ∈ input_files) then Some (header_set (fs filename))
  else m !! filename.
Proof.
  revert m log. induction input_files as [|f l IH]; intros m log; cbn [foldl].
  - rewrite decide_False by apply not_elem_of_nil. reflexivity.
  - destruct (read_header fs (m, log) f) as [m' log'] eqn:Hstep.
    pose proof (read_header_fst fs m log f) as Hm. rewrite Hstep in Hm.
    simpl in Hm. subst m'. rewrite IH.
    destruct (decide (filename ∈ l)) as [Hl|Hl].
    + rewrite decide_True by (right; exact Hl). reflexivity.
    + destruct (decide (filename = f)) as [->|Hne].
      * rewrite decide_True by left. apply lookup_insert_eq.
      * rewrite decide_False by (intros Hin; inversion Hin; contradiction).
        apply lookup_insert_ne. congruence.
Qed.

Lemma file_headers_lookup fs input_files filename :
  file_headers fs input_files !! filename =
  if decide (filename ∈ input_files) then Some (header_set (fs filename))
  else None.
Proof.
  unfold file_headers. rewrite foldl_read_header_lookup, lookup_empty.
  reflexivity.
Qed.

Lemma file_headers_dom fs input_files :
  dom (file_headers fs input_files) = list_to_set input_files.
Proof.
  apply set_eq. intros filename.
  rewrite elem_of_dom, file_headers_lookup, elem_of_list_to_set.
  case_decide; split; intros H'; try done; by destruct H'.
Qed.

Lemma file_headers_size fs input_files :
  size (file_headers fs input_files)
  = size (list_to_set input_files : gset string).
Proof. rewrite <- (file_headers_dom fs), size_dom. reflexivity. Qed.

Lemma foldl_intersection (sets : list (gset string)) (s : gset string) x :
  x ∈ foldl (∩) s sets <-> x ∈ s /\ Forall (fun s' => x ∈ s') sets.
Proof.
  revert s. induction sets as [|s' sets IH]; intros s; simpl.
  - split; [intros H; split; [exact H | constructor] | intros [H _]; exact H].
  - rewrite IH, elem_of_intersection, Forall_cons. tauto.
Qed.

Lemma elem_of_intersection_sets (sets : list (gset string)) x :
  x ∈ intersection sets <-> sets <> [] /\ Forall (fun s => x ∈ s) sets.
Proof.
  destruct sets as [|s sets]; simpl.
  - split; [intros H; set_solver | intros [H _]; congruence].
  - rewrite foldl_intersection, Forall_cons. split; [intros H; split; [discriminate | exact H] | tauto].
Qed.

(** A name is a common header when the list of files is not empty and
    every file has it in its header. *)
Lemma elem_of_common_headers fs input_files x :
  x ∈ common_headers fs input_files <->
  input_files <> [] /\ Forall (fun filename => x ∈ header_set (fs filename)) input_files.
Proof.
  unfold common_headers. rewrite elem_of_intersection_sets, !Forall_forall.
  split.
  - intros [Hne H]. split.
    + intros ->. apply Hne. unfold file_headers. simpl.
      rewrite map_to_list_empty. reflexivity.
    + intros filename Hin. apply H. apply list_elem_of_fmap.
      exists (filename, header_set (fs filename)). split; [reflexivity|].
      apply elem_of_map_to_list. rewrite file_headers_lookup.
      rewrite decide_True by exact Hin. reflexivity.
  - intros [Hne H]. split.
    + destruct input_files as [|f l]; [congruence|]. intros Hnil.
      apply fmap_nil_inv in Hnil. apply map_to_list_empty_iff in Hnil.
      pose proof (file_headers_lookup fs (f :: l) f) as Hf.
      rewrite Hnil, lookup_empty, decide_True in Hf by left. discriminate.
    + intros s Hs. apply list_elem_of_fmap in Hs as ([filename s'] & -> & Hs).
      apply elem_of_map_to_list in Hs. rewrite file_headers_lookup in Hs.
      case_decide as Hin; [|discriminate]. injection Hs as <-. simpl. auto.
Qed.

Lemma foldl_keep_common (common : gset string) fields acc log :
  (foldl (keep_common common) (acc, log) fields).1
  = acc ++ filter (fun f => Field.name f ∈ common) fields.
Proof.
  revert acc log. induction fields as [|f fields IH]; intros acc log;
    cbn [foldl].
  - simpl. rewrite app_nil_r. reflexivity.
  - unfold keep_common at 2. case_bool_decide as Hin.
    + rewrite IH, filter_cons_True by exact Hin. rewrite <- app_assoc. reflexivity.
    + rewrite IH, filter_cons_False by exact Hin. reflexivity.
Qed.

Lemma foldl_read_header_eta fs input_files :
  foldl (read_header fs) (∅, []) input_files
  = (file_headers fs input_files,
     (foldl (read_header fs) (∅, []) input_files).2).
Proof. unfold file_headers. destruct (foldl _ _ _); reflexivity. Qed.

(** The list returned by the reconciler, in closed form. *)
Lemma get_common_sort_fields_fst config fs :
  (get_common_sort_fields config fs).1 =
  let fields := SortConfig.fields (Config.sort_config config) in
  if decide (configured_files config < 2) then fields
  else filter (fun f => Field.name f ∈ common_headers fs (Config.input_files config))
         fields.
Proof.
  unfold get_common_sort_fields, configured_files.
  rewrite foldl_read_header_eta. cbv zeta.
  rewrite file_headers_size.
  case_bool_decide as Hsize.
  - rewrite decide_True by exact Hsize. reflexivity.
  - rewrite decide_False by exact Hsize.
    fold (common_headers fs (Config.input_files config)).
    pose proof (foldl_keep_common (common_headers fs (Config.input_files config))
                  (SortConfig.fields (Config.sort_config config)) []) as Hk.
    match goal with |- context [foldl (keep_common ?c) (?a, ?l) ?f] =>
      specialize (Hk l); destruct (foldl (keep_common c) (a, l) f) as [csf log']
    end.
    simpl in Hk. subst csf. destruct (filter _ _); reflexivity.
Qed.

Lemma get_common_sort_fields_warning config fs :
  configured_files config < 2 ->
  LogWarningTooFewFiles ∈ (get_common_sort_fields config fs).2.
Proof.
  intros Hsize. unfold get_common_sort_fields, configured_files in *.
  rewrite foldl_read_header_eta. cbv zeta. rewrite file_headers_size.
  rewrite bool_decide_eq_true_2 by exact Hsize. simpl.
  apply elem_of_app. right. left.
Qed.
(** *** The batch driver *)

Section BatchDriver.

Variable py_float : string -> option spec_float.
Variable date_parse : string -> option PyVal.datetime.

Abbreviation sort_value := (sort_value py_float date_parse).
Abbreviation detect_field_type := (detect_field_type py_float date_parse).
Abbreviation number_count := (number_count py_float).
Abbreviation date_count := (date_count date_parse).
Abbreviation resolve_field_types := (resolve_field_types py_float date_parse).
Abbreviation sort_key := (sort_key py_float date_parse).
Abbreviation sort_rows := (sort_rows py_float date_parse).
Abbreviation sort_csv_file := (sort_csv_file py_float date_parse).
Abbreviation process_file := (process_file py_float date_parse).
Abbreviation process_files := (process_files py_float date_parse).
Abbreviation main := (main py_float date_parse).

Lemma process_files_nil config fs : process_files [] config fs = [].
Proof. reflexivity. Qed.

Lemma process_file_same_name_type common common' config config' fs filename :
  Forall2 same_name_type common common' ->
  same_but_field_order config config' ->
  process_file common config fs filename = process_file common' config' fs filename.
Proof.
  intros H (_ & Hd & Ho & _). unfold process_file.
  destruct (fs filename) as [|rows fails]; [reflexivity|].
  rewrite (sort_csv_file_same_name_type py_float date_parse _ _
             (Content rows fails) _ _ H Ho Hd).
  reflexivity.
Qed.

Lemma process_files_same_name_type common common' config config' fs :
  Forall2 same_name_type common common' ->
  same_but_field_order config config' ->
  process_files common config fs = process_files common' config' fs.
Proof.
  intros H Hc. unfold process_files.
  destruct H as [|f f' common common' Hf H]; [reflexivity|].
  destruct Hc as (Hfiles & Hrest). rewrite <- Hfiles.
  apply flat_map_ext. intros filename.
  apply process_file_same_name_type; [constructor; assumption|].
  split; assumption.
Qed.

Lemma get_common_sort_fields_same_name_type config config' fs :
  same_but_field_order config config' ->
  Forall2 same_name_type (get_common_sort_fields config fs).1
    (get_common_sort_fields config' fs).1.
Proof.
  intros (Hfiles & _ & _ & Hfields). rewrite !get_common_sort_fields_fst.
  cbv zeta. unfold configured_files. rewrite <- Hfiles.
  case_decide; [exact Hfields|].
  apply Forall2_filter; [|exact Hfields].
  intros f f' [Hn _]. rewrite Hn. reflexivity.
Qed.

End BatchDriver.
(** *** When the sort cannot fail *)

Lemma tuple_lt_same_shape (a b : list PyVal.value) :
  shape a = shape b -> KDate ∉ shape a -> exists c, PyVal.tuple_lt a b = Ok c.
Proof.
  revert b. induction a as [|x a IH]; intros [|y b]; simpl; try discriminate.
  - eauto.
  - intros [= Hxy Hab] Hno. rewrite not_elem_of_cons in Hno.
    destruct Hno as [Hx Hno].
    destruct (PyVal.value_eqb x y); [apply IH; assumption|].
    destruct x, y; simpl in *; try discriminate; try congruence; eauto.
Qed.

Section Totality.
Context {A : Type}.
Implicit Types (x y : list PyVal.value * A) (l r s : list (list PyVal.value * A)).

Lemma mapM_total {B} (f : A -> result B) (Q : B -> Prop) (data : list A) :
  (forall a, a ∈ data -> exists b, f a = Ok b /\ Q b) ->
  exists k, mapM f data = Ok k /\ Forall Q k.
Proof.
  induction data as [|a data IH]; intros H; simpl; [eauto|].
  destruct (H a) as (b & Hb & Qb); [left|]. rewrite Hb. simpl.
  destruct IH as (k & Hk & Qk); [intros z Hz; apply H; right; exact Hz|].
  rewrite Hk. simpl. eauto.
Qed.

(** [sorted] returns when the key function returns keys of one shape,
    without [datetime] items. *)
Lemma sorted_total (key : A -> result (list PyVal.value)) (sh : list kind)
    (data : list A) (reverse : bool) :
  KDate ∉ sh ->
  (forall a, a ∈ data -> exists k, key a = Ok k /\ shape k = sh) ->
  exists out, sorted data key reverse = Ok out.
Proof.
  intros Hsh Hkey. unfold sorted.
  destruct (mapM_total key (fun k => shape k = sh) data Hkey) as (keys & -> & Hkeys).
  simpl.
  destruct (list_sort_total (if reverse then rev (zip keys data) else zip keys data))
    as [s Hs].
  - assert (forall p, p ∈ (if reverse then rev (zip keys data) else zip keys data) ->
                      shape p.1 = sh) as Hp.
    { intros [k x] Hin. simpl.
      assert ((k, x) ∈ zip keys data) as Hin'.
      { destruct reverse; [|exact Hin].
        apply list_elem_of_In, in_rev, list_elem_of_In in Hin. exact Hin. }
      apply elem_of_zip_l in Hin'. rewrite Forall_forall in Hkeys. auto. }
    intros x y Hx Hy. apply tuple_lt_same_shape.
    + rewrite (Hp x Hx), (Hp y Hy). reflexivity.
    + rewrite (Hp x Hx). exact Hsh.
  - rewrite Hs. simpl. eauto.
Qed.

End Totality.

Section SorterTotality.

Variable py_float : string -> option spec_float.
Variable date_parse : string -> option PyVal.datetime.

Abbreviation sort_value := (sort_value py_float date_parse).
Abbreviation resolve_field_types := (resolve_field_types py_float date_parse).
Abbreviation sort_key := (sort_key py_float date_parse).
Abbreviation sort_rows := (sort_rows py_float date_parse).
Abbreviation sort_csv_file := (sort_csv_file py_float date_parse).

Lemma index_total (x : string) (l : list string) :
  x ∈ l -> exists i, index x l = Ok i.
Proof.
  induction 1 as [x l|x y l _ [i Hi]]; simpl.
  - rewrite String.eqb_refl. eauto.
  - destruct (String.eqb y x); [eauto|]. rewrite Hi. simpl. eauto.
Qed.

Lemma sort_value_kind (value field_type : string) :
  field_type = "text" \/ field_type = "number" ->
  kind_of (sort_value value field_type)
  = if String.eqb field_type "text" then KStr else KFloat.
Proof.
  intros [-> | ->]; unfold sort_value; simpl.
  - destruct (_ || _); reflexivity.
  - destruct (_ || _); [reflexivity|]. destruct (py_float _); reflexivity.
Qed.

(** With declared types only, [field_types] does not depend on the rows:
    it maps each field name to the last type declared for it. *)
Lemma resolve_field_types_declared header data common field_types :
  no_auto common ->
  resolve_field_types header data common field_types
  = Ok (foldl (fun d f => <[Field.name f := Field.type f]> d) field_types common).
Proof.
  intros H. revert field_types.
  induction H as [|f common Hf _ IH]; intros field_types; [reflexivity|].
  cbn [resolve_field_types foldl].
  apply String.eqb_neq in Hf. rewrite Hf. apply IH.
Qed.

Lemma declared_types_lookup (common : list Field.t) (d : gmap string string) name :
  (forall t, d !! name = Some t -> t = "text" \/ t = "number") ->
  text_or_number common ->
  (forall t,
     foldl (fun d f => <[Field.name f := Field.type f]> d) d common !! name = Some t ->
     t = "text" \/ t = "number")
  /\ ((is_Some (d !! name) \/ Exists (fun f => Field.name f = name) common) ->
      is_Some (foldl (fun d f => <[Field.name f := Field.type f]> d) d common !! name)).
Proof.
  intros Hd H. revert d Hd.
  induction H as [|f common Hf _ IH]; intros d Hd; cbn [foldl].
  - split; [exact Hd|]. intros [H|H]; [exact H | inversion H].
  - destruct (IH (<[Field.name f := Field.type f]> d)) as [IH1 IH2].
    { intros t. rewrite lookup_insert. case_decide; [|apply Hd].
      intros [= <-]. exact Hf. }
    split; [exact IH1|]. intros H. apply IH2.
    rewrite lookup_insert. case_decide as Hname; [left; eauto|].
    destruct H as [H|H]; [left; exact H|]. right.
    apply Exists_cons in H as [H|H]; [contradiction | exact H].
Qed.

Lemma sort_key_total header field_types common r :
  in_header header common ->
  Forall (fun f => exists t, field_types !! Field.name f = Some t
                             /\ (t = "text" \/ t = "number")) common ->
  exists k, sort_key header field_types common r = Ok k
            /\ shape k
               = map (fun f => if String.eqb (default "" (field_types !! Field.name f)) "text"
                               then KStr else KFloat) common.
Proof.
  induction 1 as [|f common Hf _ IH]; intros Ht; simpl; [eauto|].
  apply Forall_cons in Ht as [(t & Hlook & Ht) Hrest].
  destruct (index_total _ _ Hf) as [i ->]. simpl.
  unfold dict_get. rewrite Hlook. simpl.
  destruct (IH Hrest) as (k & -> & Hk). simpl.
  eexists. split; [reflexivity|]. simpl. rewrite Hk.
  rewrite (sort_value_kind _ _ Ht). reflexivity.
Qed.

(** A file with a header row, sorted on columns of its header that are
    declared as text or as number, is always written. *)
Lemma sort_csv_file_total common header data sort_config :
  text_or_number common -> in_header header common ->
  exists out,
    sort_rows common header data sort_config = Ok out
    /\ sort_csv_file common (Content (header :: data) false) sort_config
       = Ok (Some (file_text (SortConfig.delimiter sort_config) header out)).
Proof.
  intros Htypes Hheader.
  assert (no_auto common) as Hno.
  { eapply Forall_impl; [exact Htypes|]. intros f [-> | ->]; discriminate. }
  assert (exists out, sort_rows common header data sort_config = Ok out) as [out Hout].
  { unfold sort_rows. rewrite (resolve_field_types_declared _ _ _ _ Hno). simpl.
    set (field_types := foldl _ ∅ common).
    apply (sorted_total _
             (map (fun f => if String.eqb (default "" (field_types !! Field.name f)) "text"
                            then KStr else KFloat) common)).
    - intros Hin. apply list_elem_of_fmap in Hin as (f & Hf & _).
      destruct (String.eqb _ _); discriminate.
    - intros r _. apply sort_key_total; [exact Hheader|].
      apply Forall_forall. intros f Hf.
      destruct (declared_types_lookup common ∅ (Field.name f)) as [H1 H2];
        [intros t; rewrite lookup_empty; discriminate | exact Htypes |].
      destruct H2 as [t Ht].
      { right. apply Exists_exists. eauto. }
      exists t. split; [exact Ht | apply H1, Ht]. }
  exists out. split; [exact Hout|].
  unfold sort_csv_file. simpl. rewrite Hout. reflexivity.
Qed.

(** A file with a header row is never taken for an empty one. *)
Lemma sort_csv_file_not_None common header data fails sort_config :
  sort_csv_file common (Content (header :: data) fails) sort_config <> Ok None.
Proof.
  unfold sort_csv_file. destruct fails; [discriminate|]. simpl.
  destruct (sort_rows _ _ _ _); discriminate.
Qed.

End SorterTotality.

(** *** The key and the text, spelled out *)

Lemma index_column (x : string) (l : list string) (i : nat) :
  index x l = Ok i -> column l x = Some i.
Proof.
  unfold column. revert i. induction l as [|y l IH]; intros i; simpl;
    [discriminate|].
  destruct (String.eqb_spec y x) as [->|Hne].
  - intros [= <-]. rewrite decide_True by reflexivity. reflexivity.
  - intros H. apply fmap_Ok in H as (j & Hj & ->).
    rewrite decide_False by exact Hne.
    specialize (IH j Hj). destruct (list_find _ l) as [[n z]|]; [|discriminate].
    simpl in *. congruence.
Qed.

Lemma Sorted_weaken {A} (R R' : A -> A -> Prop) (l : list A) :
  (forall x y, x ∈ l -> y ∈ l -> R x y -> R' x y) -> Sorted R l -> Sorted R' l.
Proof.
  intros H Hs. induction Hs as [|x l Hs IH Hhd]; [constructor|].
  constructor.
  - apply IH. intros y z Hy Hz. apply H; right; assumption.
  - destruct Hhd as [|y l Hxy]; constructor. apply H; [left | right; left | exact Hxy].
Qed.

(** The text of a file, spelled out: every line is its cells joined by
    the delimiter and ends with a line feed. *)
Lemma file_text_spelled (delimiter : string) (header : row) (rows : list row) :
  file_text delimiter header rows
  = (String.concat delimiter header +:+ String "010"%char EmptyString)
    +:+ String.concat ""
          (map (fun r => String.concat delimiter r +:+ String "010"%char EmptyString)
             rows).
Proof. reflexivity. Qed.

Section Spelled.

Variable py_float : string -> option spec_float.
Variable date_parse : string -> option PyVal.datetime.

Abbreviation number_count := (number_count py_float).
Abbreviation date_count := (date_count date_parse).
Abbreviation sort_key := (sort_key py_float date_parse).
Abbreviation composite_key := (composite_key py_float date_parse).

(** The key [sort_key] returns is the composite key of the row. *)
Lemma sort_key_composite header field_types common (r : row) k :
  sort_key header field_types common r = Ok k ->
  k = composite_key header field_types common r.
Proof.
  revert k. induction common as [|f common IH]; intros k; cbn [sort_key].
  - intros [= <-]. reflexivity.
  - intros H. apply bind_Ok in H as (i & Hi & H).
    apply bind_Ok in H as (t & Ht & H).
    apply bind_Ok in H as (k' & Hk' & [= <-]).
    unfold composite_key. cbn [map]. fold (composite_key header field_types common r).
    rewrite <- (IH k' Hk'). unfold cell. rewrite (index_column _ _ _ Hi).
    unfold dict_get in Ht. destruct (field_types !! Field.name f) as [t'|];
      [|discriminate].
    injection Ht as ->. reflexivity.
Qed.




End Spelled.

(* ===================================================================== *)
(** ** The claims *)
(* ===================================================================== *)

Section Claims.

Variable py_float : string -> option spec_float.
Variable date_parse : string -> option PyVal.datetime.

Abbreviation sort_value := (sort_value py_float date_parse).
Abbreviation detect_field_type := (detect_field_type py_float date_parse).
Abbreviation number_count := (number_count py_float).
Abbreviation date_count := (date_count date_parse).
Abbreviation resolve_field_types := (resolve_field_types py_float date_parse).
Abbreviation sort_key := (sort_key py_float date_parse).
Abbreviation sort_rows := (sort_rows py_float date_parse).
Abbreviation sort_csv_file := (sort_csv_file py_float date_parse).
Abbreviation process_files := (process_files py_float date_parse).
Abbreviation main := (main py_float date_parse).
Abbreviation composite_key := (composite_key py_float date_parse).

(** C1, as the code behaves.  For an empty or whitespace-only [value],
    [sort_value] returns the empty string when the type is text and
    negative infinity when it is number; when the type is date it returns
    the float negative infinity as well, which is not [datetime.min]. *)
Theorem sort_value_blank (value : string) :
  value = "" \/ PyStr.strip value = "" ->
  sort_value value "text" = PyVal.VStr ""
  /\ sort_value value "number" = PyVal.VFloat PyVal.neg_inf
  /\ sort_value value "date" = PyVal.VFloat PyVal.neg_inf
  /\ sort_value value "date" <> PyVal.VDate PyVal.datetime_min.
Proof.
  intros H.
  assert (negb (PyStr.truthy value) || String.eqb (PyStr.strip value) "" = true)
    as Hblank.
  { destruct H as [-> | H]; [reflexivity|]. rewrite H. apply orb_true_r. }
  unfold sort_value. rewrite Hblank. repeat split. discriminate.
Qed.

(** C2, at the failing input.  A file with header [D] and the two data rows
    [""] and ["2020-01-01"], sorted on [D] as a date: the empty cell becomes
    a float, the other cell a [datetime], and the sort raises [TypeError]
    whatever the two parsers return; the batch driver writes no file. *)
Theorem sort_csv_file_blank_date_raises :
  sort_csv_file [blank_date_field] blank_date_file blank_date_config
  = Raise TypeError
  /\ process_files [blank_date_field]
       (Config.Make ["dates"] blank_date_config) (fun _ => blank_date_file) = [].
Proof.
  assert (sort_csv_file [blank_date_field] blank_date_file blank_date_config
          = Raise TypeError) as H.
  { unfold sort_csv_file, sort_rows, sorted. vm_compute.
    destruct (date_parse _); reflexivity. }
  split; [exact H|].
  unfold process_files, process_file. simpl flat_map.
  fold blank_date_file. rewrite H. reflexivity.
Qed.

(** A second way to fail on cell contents.  A row shorter than the header
    is read as having empty cells when the key is built, but not when the
    samples of an [auto] column are taken: there [row[column_index]] raises
    [IndexError]. *)
Lemma sort_csv_file_short_row :
  sort_csv_file [Field.Make "B" "text" "asc"] short_row_file short_row_config
  = Ok (Some (file_text ";" ["A"; "B"] [["2"]; ["1"; "x"]]))
  /\ sort_csv_file [Field.Make "B" "auto" "asc"] short_row_file short_row_config
     = Raise IndexError.
Proof. split; vm_compute; reflexivity. Qed.

(** C3, amended.  When fewer than two distinct input file names are
    configured, the reconciler returns the configured field list
    unchanged and logs a warning, and the batch driver works with that
    list. *)
Theorem reconciler_fewer_than_two_files (config : Config.t) (fs : filesystem) :
  configured_files config < 2 ->
  (get_common_sort_fields config fs).1
  = SortConfig.fields (Config.sort_config config)
  /\ LogWarningTooFewFiles ∈ (get_common_sort_fields config fs).2
  /\ main config fs
     = process_files (SortConfig.fields (Config.sort_config config)) config fs.
Proof.
  intros Hsize.
  assert ((get_common_sort_fields config fs).1
          = SortConfig.fields (Config.sort_config config)) as Hfst.
  { rewrite get_common_sort_fields_fst. cbv zeta.
    rewrite decide_True by exact Hsize. reflexivity. }
  split; [exact Hfst|]. split.
  - apply get_common_sort_fields_warning, Hsize.
  - unfold main. rewrite Hfst. reflexivity.
Qed.

(** C4.  Two configurations that differ only in the per-field ['order']
    values make the batch driver write the same files.  And the rows
    [sort_csv_file] writes are the data rows of the input, each once, placed
    by the composite key of their cells in the sort columns: ascending, or,
    when the overall order is ['desc'], descending in the composite key as a
    whole. *)
Theorem per_field_order_ignored (config config' : Config.t) (fs : filesystem) :
  same_but_field_order config config' ->
  main config fs = main config' fs
  /\ forall common header data out,
       sort_rows common header data (Config.sort_config config) = Ok out ->
       Permutation out data
       /\ exists field_types,
            resolve_field_types header data common ∅ = Ok field_types
            /\ (forall r, r ∈ data ->
                  sort_key header field_types common r
                  = Ok (composite_key header field_types common r))
            /\ Sorted
                 (fun x y =>
                    keys_in_order
                      (String.eqb (SortConfig.order (Config.sort_config config)) "desc")
                      (composite_key header field_types common x)
                      (composite_key header field_types common y))
                 out.
Proof.
  intros Hc. split.
  - unfold main. apply process_files_same_name_type; [|exact Hc].
    apply get_common_sort_fields_same_name_type, Hc.
  - intros common header data out H.
    apply sort_rows_inv in H as (field_types & Hft & H).
    pose proof (sorted_Permutation _ _ _ _ H) as Hperm.
    split; [exact Hperm|]. exists field_types. split; [exact Hft|].
    assert (forall r, r ∈ data ->
              sort_key header field_types common r
              = Ok (composite_key header field_types common r)) as Hkey.
    { intros r Hr. pose proof H as H0.
      apply sorted_inv in H0 as (d & s & _ & Hd & Hkeys & _).
      apply mapM_Ok_Forall2 in Hkeys. clear - Hkeys Hr.
      induction Hkeys as [|z k data keys Hz _ IH]; [inversion Hr|].
      apply elem_of_cons in Hr as [->|Hr]; [|auto].
      rewrite Hz. f_equal. apply sort_key_composite, Hz. }
    split; [exact Hkey|].
    eapply Sorted_weaken; [|eapply sorted_in_order, H].
    intros x y Hx Hy (kx & ky & Hkx & Hky & Hlt).
    rewrite Hperm in Hx, Hy.
    rewrite (Hkey x Hx) in Hkx. rewrite (Hkey y Hy) in Hky.
    injection Hkx as <-. injection Hky as <-. exact Hlt.
Qed.


(** C6.  With two or more files configured, the reconciler returns the
    configured fields whose name is in the header of every file, in the
    configured order. *)
Theorem common_sort_fields_filter (config : Config.t) (fs : filesystem) :
  2 <= configured_files config ->
  (get_common_sort_fields config fs).1
  = filter
      (fun f => Forall (fun filename => Field.name f ∈ header_set (fs filename))
                  (Config.input_files config))
      (SortConfig.fields (Config.sort_config config)).
Proof.
  intros Hsize. rewrite get_common_sort_fields_fst. cbv zeta.
  rewrite decide_False by lia. apply list_filter_iff. intros f.
  rewrite elem_of_common_headers. split; [tauto|]. intros H. split; [|exact H].
  intros Hnil. unfold configured_files in Hsize. rewrite Hnil in Hsize.
  change (2 <= size (∅ : gset string)) in Hsize.
  rewrite size_empty in Hsize. lia.
Qed.

(** C7, amended.  When [sort_csv_file] writes a file and no sort value of
    its data rows is NaN, the rows after the header are the data rows in an
    order where, for every key [k], the rows whose composite key equals [k]
    stand in the order they had in the input; this holds for either
    overall order. *)
Theorem sort_csv_file_stable common header data fails sort_config text
    field_types keys :
  resolve_field_types header data common ∅ = Ok field_types ->
  mapM (sort_key header field_types common) data = Ok keys ->
  Forall nan_free keys ->
  sort_csv_file common (Content (header :: data) fails) sort_config = Ok (Some text) ->
  exists out,
    text = file_text (SortConfig.delimiter sort_config) header out
    /\ forall k,
         List.filter (key_is (sort_key header field_types common) k) out
         = List.filter (key_is (sort_key header field_types common) k) data.
Proof.
  intros Hft Hkeys Hnan H. apply sort_csv_file_inv in H as (_ & out & Hout & ->).
  apply sort_rows_inv in Hout as (field_types' & Hft' & Hout).
  rewrite Hft in Hft'. injection Hft' as <-.
  exists out. split; [reflexivity|].
  intros k. eapply sorted_stable; [exact Hkeys | | exact Hout].
  apply nan_free_consistent, Hnan.
Qed.

(** C8, amended.  When no sort field has type [auto], or the file has at
    most 100 data rows, sorting the rows that [sort_csv_file] wrote returns
    the same rows, and the file written from them is the same text. *)
Theorem sort_rows_idempotent common header data sort_config out :
  no_auto common \/ length data <= 100 ->
  sort_rows common header data sort_config = Ok out ->
  sort_rows common header out sort_config = Ok out
  /\ sort_csv_file common (Content (header :: out) false) sort_config
     = sort_csv_file common (Content (header :: data) false) sort_config.
Proof.
  intros Hcase H.
  assert (sort_rows common header out sort_config = Ok out) as Hout.
  { pose proof H as H0. apply sort_rows_inv in H0 as (field_types & Hft & Hs).
    pose proof (sorted_Permutation _ _ _ _ Hs) as Hperm.
    unfold sort_rows.
    rewrite <- (resolve_field_types_data py_float date_parse header data out).
    - rewrite Hft. simpl. eapply sorted_idempotent, Hs.
    - destruct Hcase as [Hcase|Hcase]; [left; exact Hcase|].
      right. split; [symmetry; exact Hperm | exact Hcase]. }
  split; [exact Hout|].
  unfold sort_csv_file. simpl. rewrite Hout, H. reflexivity.
Qed.

(** C9.  For an input file with a header row, the text [sort_csv_file]
    writes is the header line followed by one line per data row, the rows
    being a permutation of the data rows read; every line is the cells of
    its row as read, joined by the delimiter, and a line feed: no cell is
    stripped, put in lower case or changed in any other way. *)
Theorem sort_csv_file_frame common header data fails sort_config text :
  sort_csv_file common (Content (header :: data) fails) sort_config = Ok (Some text) ->
  exists out,
    Permutation out data
    /\ text
       = (String.concat (SortConfig.delimiter sort_config) header
          +:+ String "010"%char EmptyString)
         +:+ String.concat ""
               (map (fun r => String.concat (SortConfig.delimiter sort_config) r
                              +:+ String "010"%char EmptyString)
                  out).
Proof.
  intros H. apply sort_csv_file_inv in H as (_ & out & Hout & ->).
  apply sort_rows_inv in Hout as (field_types & _ & Hout).
  exists out. split; [|apply file_text_spelled]. eapply sorted_Permutation, Hout.
Qed.

(** C10.  With two or more files configured, a configured file that is
    missing or whose header cannot be read has the empty set in
    [file_headers]; the common headers are then empty, the reconciler
    returns the empty list and the batch driver writes no file. *)
Theorem unreadable_file_aborts_batch (config : Config.t) (fs : filesystem)
    (filename : string) :
  2 <= configured_files config ->
  filename ∈ Config.input_files config ->
  readable_header (fs filename) = false ->
  file_headers fs (Config.input_files config) !! filename = Some ∅
  /\ common_headers fs (Config.input_files config) = ∅
  /\ (get_common_sort_fields config fs).1 = []
  /\ main config fs = [].
Proof.
  intros Hsize Hin Hread.
  assert (header_set (fs filename) = ∅) as Hset.
  { destruct (fs filename) as [|[|header rows] fails]; try reflexivity.
    discriminate. }
  assert (common_headers fs (Config.input_files config) = ∅) as Hcommon.
  { apply set_eq. intros x. rewrite elem_of_common_headers, Forall_forall.
    split; [|set_solver]. intros [_ H]. specialize (H filename Hin).
    rewrite Hset in H. exact H. }
  assert ((get_common_sort_fields config fs).1 = []) as Hfst.
  { rewrite get_common_sort_fields_fst. cbv zeta.
    rewrite decide_False by lia. rewrite Hcommon.
    induction (SortConfig.fields (Config.sort_config config)) as [|f l IH];
      [reflexivity|].
    rewrite filter_cons_False by set_solver. exact IH. }
  repeat split.
  - rewrite file_headers_lookup, decide_True by exact Hin. rewrite Hset.
    reflexivity.
  - exact Hcommon.
  - exact Hfst.
  - unfold main. rewrite Hfst. reflexivity.
Qed.

End Claims.
(* ===================================================================== *)
(** ** Worked examples *)
(* ===================================================================== *)

Lemma sort_value_blank_witness :
  sort_value float_fragment date_fragment "   " "text" = PyVal.VStr ""
  /\ sort_value float_fragment date_fragment "   " "number"
     = PyVal.VFloat PyVal.neg_inf
  /\ sort_value float_fragment date_fragment "   " "date"
     = PyVal.VFloat PyVal.neg_inf
  /\ sort_value float_fragment date_fragment "   " "date"
     <> PyVal.VDate PyVal.datetime_min.
Proof.
  apply (sort_value_blank float_fragment date_fragment "   ").
  right. reflexivity.
Defined.

(** C3 as stated fails.  Two files are configured and one of them is
    missing, so fewer than two have a readable header; the reconciler does
    not return the configured list but the empty list. *)
Lemma reconciler_one_readable_header :
  length (List.filter (fun filename => readable_header (only_a filename)) ["a"; "b"]) < 2
  /\ (get_common_sort_fields (Config.Make ["a"; "b"] reward_config) only_a).1 = []
  /\ (get_common_sort_fields (Config.Make ["a"; "b"] reward_config) only_a).1
     <> SortConfig.fields reward_config.
Proof.
  split; [vm_compute; lia|].
  assert ((get_common_sort_fields (Config.Make ["a"; "b"] reward_config) only_a).1 = [])
    as H by (vm_compute; reflexivity).
  split; [exact H|]. rewrite H. discriminate.
Qed.

Lemma reconciler_fewer_than_two_files_witness :
  (get_common_sort_fields (Config.Make ["a"] reward_config) only_a).1
  = [reward_field]
  /\ LogWarningTooFewFiles
     ∈ (get_common_sort_fields (Config.Make ["a"] reward_config) only_a).2
  /\ main float_fragment date_fragment (Config.Make ["a"] reward_config) only_a
     = process_files float_fragment date_fragment [reward_field]
         (Config.Make ["a"] reward_config) only_a.
Proof.
  apply (reconciler_fewer_than_two_files float_fragment date_fragment
           (Config.Make ["a"] reward_config) only_a).
  vm_compute. lia.
Defined.

Lemma per_field_order_ignored_witness :
  main float_fragment date_fragment (Config.Make ["a"] reward_overall_desc) only_a
  = main float_fragment date_fragment (Config.Make ["a"] reward_both_desc) only_a
  /\ main float_fragment date_fragment (Config.Make ["a"] reward_overall_desc) only_a
     = [("a_SORT.csv", "REWARD_CODE;AMOUNT
B;10
A;20
A;5
")]
  /\ main float_fragment date_fragment (Config.Make ["a"] reward_config) only_a
     = [("a_SORT.csv", "REWARD_CODE;AMOUNT
A;20
A;5
B;10
")]
  /\ Permutation [["C"; "1"]; ["B"; "10"]; ["A"; "20"]]
       [["A"; "20"]; ["C"; "1"]; ["B"; "10"]]
  /\ exists field_types,
       resolve_field_types float_fragment date_fragment ["REWARD_CODE"; "AMOUNT"]
         [["A"; "20"]; ["C"; "1"]; ["B"; "10"]] [reward_field] ∅ = Ok field_types
       /\ (forall r, r ∈ [["A"; "20"]; ["C"; "1"]; ["B"; "10"]] ->
             sort_key float_fragment date_fragment ["REWARD_CODE"; "AMOUNT"]
               field_types [reward_field] r
             = Ok (composite_key float_fragment date_fragment
                     ["REWARD_CODE"; "AMOUNT"] field_types [reward_field] r))
       /\ Sorted
            (fun x y =>
               keys_in_order true
                 (composite_key float_fragment date_fragment
                    ["REWARD_CODE"; "AMOUNT"] field_types [reward_field] x)
                 (composite_key float_fragment date_fragment
                    ["REWARD_CODE"; "AMOUNT"] field_types [reward_field] y))
            [["C"; "1"]; ["B"; "10"]; ["A"; "20"]].
Proof.
  destruct (per_field_order_ignored float_fragment date_fragment
              (Config.Make ["a"] reward_overall_desc)
              (Config.Make ["a"] reward_both_desc) only_a) as [Hmain Hrows].
  { repeat split. repeat constructor. }
  split; [exact Hmain|].
  split; [vm_compute; reflexivity|].
  split; [vm_compute; reflexivity|].
  apply (Hrows [reward_field] ["REWARD_CODE"; "AMOUNT"]
           [["A"; "20"]; ["C"; "1"]; ["B"; "10"]]
           [["C"; "1"]; ["B"; "10"]; ["A"; "20"]]).
  vm_compute. reflexivity.
Defined.

(** Descending order is not the ascending output read backwards: rows
    with equal keys keep their input order in both directions. *)
Lemma descending_keeps_ties :
  sort_rows float_fragment date_fragment [reward_field]
    ["REWARD_CODE"; "AMOUNT"] [["B"; "10"]; ["A"; "20"]; ["A"; "5"]]
    (SortConfig.Make ";" [reward_field] "asc")
  = Ok [["A"; "20"]; ["A"; "5"]; ["B"; "10"]]
  /\ sort_rows float_fragment date_fragment [reward_field]
       ["REWARD_CODE"; "AMOUNT"] [["B"; "10"]; ["A"; "20"]; ["A"; "5"]]
       (SortConfig.Make ";" [reward_field] "desc")
     = Ok [["B"; "10"]; ["A"; "20"]; ["A"; "5"]].
Proof. split; vm_compute; reflexivity. Qed.


Lemma common_sort_fields_filter_witness :
  (get_common_sort_fields abc_config abc_files).1 = [field_B; field_C].
Proof.
  rewrite (common_sort_fields_filter abc_config abc_files).
  - vm_compute. reflexivity.
  - vm_compute. lia.
Defined.

(** C7 as stated fails.  In a number column the cell ["nan"] is read as NaN,
    which is neither smaller nor larger than any number; the binary search
    of the sort then puts the row [a2] in front of the row [a1], which has
    the same key and stood before it. *)
Lemma nan_breaks_stability :
  sort_csv_file float_fragment date_fragment [nan_field]
    (Content (nan_header :: nan_rows) false) nan_config
  = Ok (Some (file_text ";" nan_header nan_rows_sorted))
  /\ resolve_field_types float_fragment date_fragment nan_header nan_rows
       [nan_field] ∅ = Ok nan_field_types
  /\ sort_key float_fragment date_fragment nan_header nan_field_types [nan_field]
       ["5"; "a1"] = Ok five_key
  /\ sort_key float_fragment date_fragment nan_header nan_field_types [nan_field]
       ["5"; "a2"] = Ok five_key
  /\ PyVal.tuple_eqb five_key five_key = true
  /\ List.filter
       (key_is (sort_key float_fragment date_fragment nan_header nan_field_types
                  [nan_field]) five_key) nan_rows
     = [["5"; "a1"]; ["5"; "a2"]]
  /\ List.filter
       (key_is (sort_key float_fragment date_fragment nan_header nan_field_types
                  [nan_field]) five_key) nan_rows_sorted
     = [["5"; "a2"]; ["5"; "a1"]].
Proof. repeat split; vm_compute; reflexivity. Qed.

Lemma sort_csv_file_stable_witness :
  exists out,
    reward_text = file_text ";" ["REWARD_CODE"; "AMOUNT"] out
    /\ forall k,
         List.filter
           (key_is (sort_key float_fragment date_fragment
                      ["REWARD_CODE"; "AMOUNT"] reward_field_types [reward_field]) k)
           out
         = List.filter
             (key_is (sort_key float_fragment date_fragment
                        ["REWARD_CODE"; "AMOUNT"] reward_field_types [reward_field]) k)
             [["B"; "10"]; ["A"; "20"]; ["A"; "5"]].
Proof.
  apply (sort_csv_file_stable float_fragment date_fragment [reward_field]
           ["REWARD_CODE"; "AMOUNT"] [["B"; "10"]; ["A"; "20"]; ["A"; "5"]]
           false reward_config reward_text reward_field_types
           [[PyVal.VStr "b"]; [PyVal.VStr "a"]; [PyVal.VStr "a"]]).
  - vm_compute. reflexivity.
  - vm_compute. reflexivity.
  - repeat constructor; discriminate.
  - vm_compute. reflexivity.
Defined.

(** C8 as stated fails.  The 126 rows of [numbers_first] are typed [number]
    from their first 100 rows and written with the 26 unparsable rows
    first.  Read again, the first 100 rows hold 74 numbers, the column is
    typed [text], and the rows are written in another order.  The date
    parser sees ["zz"], which [dateutil] rejects, and ["5"]:
    [auto_retyped_any_date] below covers every answer to ["5"]. *)
Lemma resort_changes_rows :
  sort_csv_file float_fragment date_fragment [auto_field]
    (Content (["K"] :: numbers_first) false) auto_config
  = Ok (Some (file_text ";" ["K"] numbers_last))
  /\ sort_csv_file float_fragment date_fragment [auto_field]
       (Content (["K"] :: numbers_last) false) auto_config
     = Ok (Some (file_text ";" ["K"] numbers_first))
  /\ file_text ";" ["K"] numbers_first <> file_text ";" ["K"] numbers_last.
Proof.
  split; [vm_compute; reflexivity|]. split; [vm_compute; reflexivity|].
  intros H. vm_compute in H. discriminate.
Qed.

Lemma auto_retyped_any_date (d5 : option PyVal.datetime) :
  sort_csv_file float_fragment (date_fragment_5 d5) [auto_field]
    (Content (["K"] :: numbers_first) false) auto_config
  = Ok (Some (file_text ";" ["K"] numbers_last))
  /\ sort_csv_file float_fragment (date_fragment_5 d5) [auto_field]
       (Content (["K"] :: numbers_last) false) auto_config
     = Ok (Some (file_text ";" ["K"] numbers_first)).
Proof. destruct d5; split; vm_compute; reflexivity. Qed.

Lemma sort_rows_idempotent_witness :
  sort_rows float_fragment date_fragment [reward_field]
    ["REWARD_CODE"; "AMOUNT"] [["A"; "20"]; ["A"; "5"]; ["B"; "10"]] reward_config
  = Ok [["A"; "20"]; ["A"; "5"]; ["B"; "10"]]
  /\ sort_csv_file float_fragment date_fragment [reward_field]
       (Content (["REWARD_CODE"; "AMOUNT"] :: [["A"; "20"]; ["A"; "5"]; ["B"; "10"]])
          false) reward_config
     = sort_csv_file float_fragment date_fragment [reward_field]
         (Content (["REWARD_CODE"; "AMOUNT"] :: [["B"; "10"]; ["A"; "20"]; ["A"; "5"]])
            false) reward_config.
Proof.
  apply (sort_rows_idempotent float_fragment date_fragment [reward_field]
           ["REWARD_CODE"; "AMOUNT"] [["B"; "10"]; ["A"; "20"]; ["A"; "5"]]
           reward_config [["A"; "20"]; ["A"; "5"]; ["B"; "10"]]).
  - left. repeat constructor. discriminate.
  - vm_compute. reflexivity.
Defined.

Lemma sort_csv_file_frame_witness :
  sort_csv_file float_fragment date_fragment [Field.Make " Reward_Code " "text" "asc"]
    spaced_file spaced_config
  = Ok (Some " Reward_Code ;AMOUNT
A; 20
 b ;10
")
  /\ exists out,
       Permutation out [[" b "; "10"]; ["A"; " 20"]]
       /\ " Reward_Code ;AMOUNT
A; 20
 b ;10
"
          = (String.concat ";" [" Reward_Code "; "AMOUNT"]
             +:+ String "010"%char EmptyString)
            +:+ String.concat ""
                  (map (fun r => String.concat ";" r +:+ String "010"%char EmptyString)
                     out).
Proof.
  split; [vm_compute; reflexivity|].
  apply (sort_csv_file_frame float_fragment date_fragment
           [Field.Make " Reward_Code " "text" "asc"]
           [" Reward_Code "; "AMOUNT"] [[" b "; "10"]; ["A"; " 20"]]
           false spaced_config).
  vm_compute. reflexivity.
Defined.

Lemma unreadable_file_aborts_batch_witness :
  file_headers only_a ["a"; "b"] !! "b" = Some ∅
  /\ common_headers only_a ["a"; "b"] = ∅
  /\ (get_common_sort_fields (Config.Make ["a"; "b"] reward_config) only_a).1 = []
  /\ main float_fragment date_fragment (Config.Make ["a"; "b"] reward_config) only_a
     = [].
Proof.
  apply (unreadable_file_aborts_batch float_fragment date_fragment
           (Config.Make ["a"; "b"] reward_config) only_a "b").
  - vm_compute. lia.
  - right. left.
  - reflexivity.
Defined.

(* ===================================================================== *)
(** ** Further properties: cells, keys and type detection *)
(* ===================================================================== *)

(** *** [strip], [lower] and [replace] *)

Lemma lstrip_idempotent (s : string) :
  PyStr.lstrip (PyStr.lstrip s) = PyStr.lstrip s.
Proof.
  induction s as [|c s IH]; simpl; [reflexivity|].
  destruct (PyStr.is_space c) eqn:Hc; [exact IH|]. simpl. rewrite Hc. reflexivity.
Qed.

Lemma lstrip_length (s : string) :
  (String.length (PyStr.lstrip s) <= String.length s)%nat.
Proof.
  induction s as [|c s IH]; simpl; [lia|].
  destruct (PyStr.is_space c); simpl; lia.
Qed.

Lemma rstrip_idempotent (s : string) :
  PyStr.rstrip (PyStr.rstrip s) = PyStr.rstrip s.
Proof.
  induction s as [|c s IH]; [reflexivity|]. cbn [PyStr.rstrip].
  destruct (PyStr.rstrip s) as [|d r] eqn:Hr.
  - destruct (PyStr.is_space c) eqn:Hc; [reflexivity|]. simpl. rewrite Hc. reflexivity.
  - cbn [PyStr.rstrip]. cbn [PyStr.rstrip] in IH. rewrite IH. reflexivity.
Qed.

(** [rstrip] leaves the front of a string that starts with no space. *)
Lemma lstrip_rstrip (s : string) :
  PyStr.lstrip s = s -> PyStr.lstrip (PyStr.rstrip s) = PyStr.rstrip s.
Proof.
  destruct s as [|c s]; [reflexivity|]. cbn [PyStr.lstrip PyStr.rstrip].
  destruct (PyStr.is_space c) eqn:Hc.
  - intros H. pose proof (lstrip_length s) as Hlen. rewrite H in Hlen.
    simpl in Hlen. lia.
  - intros _. destruct (PyStr.rstrip s); simpl; rewrite Hc; reflexivity.
Qed.

Lemma strip_idempotent (s : string) : PyStr.strip (PyStr.strip s) = PyStr.strip s.
Proof.
  unfold PyStr.strip.
  rewrite (lstrip_rstrip (PyStr.lstrip s)) by apply lstrip_idempotent.
  apply rstrip_idempotent.
Qed.

Section MapChars.
Variable f : ascii -> ascii.
Hypothesis f_space : forall c, PyStr.is_space (f c) = PyStr.is_space c.

Lemma lstrip_map_chars (s : string) :
  PyStr.lstrip (PyStr.map_chars f s) = PyStr.map_chars f (PyStr.lstrip s).
Proof.
  induction s as [|c s IH]; [reflexivity|]. simpl. rewrite f_space.
  destruct (PyStr.is_space c); [exact IH | reflexivity].
Qed.

Lemma rstrip_map_chars (s : string) :
  PyStr.rstrip (PyStr.map_chars f s) = PyStr.map_chars f (PyStr.rstrip s).
Proof.
  induction s as [|c s IH]; [reflexivity|]. simpl. rewrite IH, f_space.
  destruct (PyStr.rstrip s); simpl; [destruct (PyStr.is_space c)|]; reflexivity.
Qed.

Lemma strip_map_chars (s : string) :
  PyStr.strip (PyStr.map_chars f s) = PyStr.map_chars f (PyStr.strip s).
Proof. unfold PyStr.strip. rewrite lstrip_map_chars. apply rstrip_map_chars. Qed.

End MapChars.

Lemma map_chars_empty (f : ascii -> ascii) (s : string) :
  String.eqb (PyStr.map_chars f s) "" = String.eqb s "".
Proof. destruct s; reflexivity. Qed.

Lemma map_chars_idempotent (f : ascii -> ascii) (s : string) :
  (forall c, f (f c) = f c) ->
  PyStr.map_chars f (PyStr.map_chars f s) = PyStr.map_chars f s.
Proof. intros Hf. induction s as [|c s IH]; simpl; [|rewrite Hf, IH]; reflexivity. Qed.

Lemma lower_char_space (c : ascii) :
  PyStr.is_space (PyStr.lower_char c) = PyStr.is_space c.
Proof. destruct c as [[] [] [] [] [] [] [] []]; reflexivity. Qed.

Lemma lower_char_idempotent (c : ascii) :
  PyStr.lower_char (PyStr.lower_char c) = PyStr.lower_char c.
Proof. destruct c as [[] [] [] [] [] [] [] []]; reflexivity. Qed.

Lemma comma_space (c : ascii) :
  PyStr.is_space (if Ascii.eqb c "," then "."%char else c) = PyStr.is_space c.
Proof. destruct c as [[] [] [] [] [] [] [] []]; reflexivity. Qed.

Lemma comma_idempotent (c : ascii) :
  (if Ascii.eqb (if Ascii.eqb c "," then "."%char else c) ","
   then "."%char else if Ascii.eqb c "," then "."%char else c)
  = (if Ascii.eqb c "," then "."%char else c).
Proof. destruct c as [[] [] [] [] [] [] [] []]; reflexivity. Qed.

Lemma blank_strip (value : string) :
  negb (PyStr.truthy value) || String.eqb (PyStr.strip value) ""
  = String.eqb (PyStr.strip value) "".
Proof.
  unfold PyStr.truthy. rewrite negb_involutive.
  destruct (String.eqb_spec value "") as [->|_]; reflexivity.
Qed.

Section Cells.

Variable py_float : string -> option spec_float.
Variable date_parse : string -> option PyVal.datetime.

Abbreviation sort_value := (sort_value py_float date_parse).
Abbreviation detect_field_type := (detect_field_type py_float date_parse).
Abbreviation number_count := (number_count py_float).
Abbreviation date_count := (date_count date_parse).

(** X1.  White space around a cell does not count: for every field type,
    [sort_value] returns for a cell what it returns for the stripped cell. *)
Theorem sort_value_strip (value field_type : string) :
  sort_value (PyStr.strip value) field_type = sort_value value field_type.
Proof.
  unfold sort_value. rewrite !blank_strip, strip_idempotent. reflexivity.
Qed.

(** X2.  Text cells are compared without regard to case: as text, a cell
    and the cell in lower case have the same sort value. *)
Theorem sort_value_text_lower (value : string) :
  sort_value (PyStr.lower value) "text" = sort_value value "text".
Proof.
  unfold sort_value. rewrite !blank_strip. unfold PyStr.lower.
  rewrite (strip_map_chars _ lower_char_space), map_chars_empty.
  destruct (String.eqb (PyStr.strip value) ""); [reflexivity|]. simpl.
  rewrite (map_chars_idempotent _ _ lower_char_idempotent). reflexivity.
Qed.

(** X3.  In a number cell the comma is a decimal point: as number, a cell
    and the cell with every comma replaced by a period have the same sort
    value, whatever [float] accepts. *)
Theorem sort_value_number_comma (value : string) :
  sort_value (PyStr.replace_comma value) "number" = sort_value value "number".
Proof.
  unfold sort_value. rewrite !blank_strip. unfold PyStr.replace_comma.
  rewrite (strip_map_chars _ comma_space), map_chars_empty.
  destruct (String.eqb (PyStr.strip value) ""); [reflexivity|]. simpl.
  rewrite (map_chars_idempotent _ _ comma_idempotent). reflexivity.
Qed.

Lemma non_empty_strip (l : list string) :
  non_empty (map PyStr.strip l) = non_empty l.
Proof.
  unfold non_empty. induction l as [|v l IH]; [reflexivity|]. simpl.
  rewrite strip_idempotent.
  destruct (PyStr.truthy (PyStr.strip v)); simpl; rewrite IH, ?strip_idempotent;
    reflexivity.
Qed.

(** X4.  The detected type depends on the stripped non-blank samples only,
    and not on their order: two sample lists with the same such samples, in
    any order, get the same type.  Blank samples, white space around a sample
    and the order of the rows sampled do not count. *)
Theorem detect_field_type_samples (l l' : list string) :
  Permutation (non_empty l) (non_empty l') ->
  detect_field_type l = detect_field_type l'.
Proof.
  intros H. rewrite !detect_field_type_unfold. cbv zeta.
  unfold number_count, date_count.
  rewrite (Permutation_length H).
  rewrite (Permutation_length (List_filter_Permutation (parses_as_number py_float) _ _ H)).
  rewrite (Permutation_length (List_filter_Permutation (parses_as_date date_parse) _ _ H)).
  reflexivity.
Qed.

(** The detector answers one of the three types, never [auto]. *)
Lemma detect_field_type_range (l : list string) :
  detect_field_type l = "text" \/ detect_field_type l = "number"
  \/ detect_field_type l = "date".
Proof.
  rewrite detect_field_type_unfold. cbv zeta.
  destruct (_ =? _)%nat; [auto|].
  destruct (ratio_gt_080 _ _); [auto|]. destruct (ratio_gt_080 _ _); auto.
Qed.

End Cells.

Lemma detect_field_type_samples_witness :
  detect_field_type float_fragment date_fragment [" 1"; ""; "x"; "2 "]
  = detect_field_type float_fragment date_fragment ["2"; "x"; "1"; "  "; ""].
Proof.
  apply (detect_field_type_samples float_fragment date_fragment
           [" 1"; ""; "x"; "2 "] ["2"; "x"; "1"; "  "; ""]).
  vm_compute. apply (perm_trans (l' := ["x"; "1"; "2"])).
  - apply perm_swap.
  - apply (perm_trans (l' := ["x"; "2"; "1"])).
    + apply perm_skip, perm_swap.
    + apply perm_swap.
Defined.
(* ===================================================================== *)
(** ** Further properties: the exceptions of [sort_csv_file] *)
(* ===================================================================== *)

Lemma mapM_Raise {A B} (f : A -> result B) (l : list A) (e : exn) :
  mapM f l = Raise e -> exists x, x ∈ l /\ f x = Raise e.
Proof.
  induction l as [|a l IH]; simpl; [discriminate|].
  destruct (f a) as [b|e'] eqn:Hfa; simpl.
  - destruct (mapM f l) as [k|e'']; simpl; [discriminate|].
    intros [= ->]. destruct IH as (x & Hx & Hfx); [reflexivity|].
    exists x. split; [right; exact Hx | exact Hfx].
  - intros [= ->]. exists a. split; [left | exact Hfa].
Qed.

Lemma index_absent (x : string) (l : list string) :
  x ∉ l -> index x l = Raise ValueError.
Proof.
  induction l as [|y l IH]; [reflexivity|]. intros Hx.
  apply not_elem_of_cons in Hx as [Hne Hx]. simpl.
  destruct (String.eqb_spec y x) as [->|_]; [contradiction|].
  rewrite (IH Hx). reflexivity.
Qed.

Lemma index_lookup (x : string) (l : list string) (i : nat) :
  index x l = Ok i -> l !! i = Some x.
Proof.
  revert i. induction l as [|y l IH]; intros i; simpl; [discriminate|].
  destruct (String.eqb_spec y x) as [->|_].
  - intros [= <-]. reflexivity.
  - intros H. apply fmap_Ok in H as (j & Hj & ->). apply IH, Hj.
Qed.

Lemma append_empty_r (s : string) : s +:+ "" = s.
Proof.
  induction s as [|c s IH]; [reflexivity|].
  change (String c (s +:+ "") = String c s). rewrite IH. reflexivity.
Qed.

(** *** What the comparisons raise *)

Lemma value_lt_raises (v w : PyVal.value) (e : exn) :
  PyVal.value_lt v w = Raise e -> e = TypeError.
Proof.
  destruct v as [a|a|[a|a oa]], w as [b|b|[b|b ob]]; simpl; congruence.
Qed.

Lemma tuple_lt_raises (a b : list PyVal.value) (e : exn) :
  PyVal.tuple_lt a b = Raise e -> e = TypeError.
Proof.
  revert b. induction a as [|x a IH]; intros [|y b]; simpl; try discriminate.
  destruct (PyVal.value_eqb x y); [apply IH | apply value_lt_raises].
Qed.

Section ListSortRaises.
Context {A : Type}.
Implicit Types (x y pivot prev : item A) (a l rest s : list (item A)).

Lemma item_lt_raises x y e : item_lt x y = Raise e -> e = TypeError.
Proof. apply tuple_lt_raises. Qed.

Lemma run_length_raises descending prev l e :
  run_length descending prev l = Raise e -> e = TypeError.
Proof.
  revert prev. induction l as [|x l IH]; intros prev; simpl; [discriminate|].
  destruct (item_lt x prev) as [b|e'] eqn:Hlt; simpl.
  - destruct (Bool.eqb b descending); [|discriminate].
    destruct (run_length descending x l) as [m|e''] eqn:Hrun; simpl;
      [discriminate|].
    intros [= ->]. eapply IH, Hrun.
  - intros [= ->]. eapply item_lt_raises, Hlt.
Qed.

Lemma count_run_raises l e : count_run l = Raise e -> e = TypeError.
Proof.
  destruct l as [|x [|y l]]; simpl; try discriminate.
  destruct (item_lt y x) as [d|e'] eqn:Hlt; simpl.
  - destruct (run_length d y l) as [m|e''] eqn:Hrun; simpl; [discriminate|].
    intros [= ->]. eapply run_length_raises, Hrun.
  - intros [= ->]. eapply item_lt_raises, Hlt.
Qed.

Lemma bisect_raises fuel pivot a lo hi e :
  bisect fuel pivot a lo hi = Raise e -> e = TypeError.
Proof.
  revert lo hi. induction fuel as [|fuel IH]; intros lo hi; cbn [bisect];
    [discriminate|].
  destruct (lo <? hi)%nat; [|discriminate].
  destruct (a !! _) as [x|]; [|discriminate].
  destruct (item_lt pivot x) as [b|e'] eqn:Hlt; simpl.
  - destruct b; apply IH.
  - intros [= ->]. eapply item_lt_raises, Hlt.
Qed.

Lemma binarysort_raises a rest e :
  binarysort a rest = Raise e -> e = TypeError.
Proof.
  revert a. induction rest as [|pivot rest IH]; intros a; cbn [binarysort];
    [discriminate|].
  destruct (bisect (length a) pivot a 0 (length a)) as [n|e'] eqn:Hb; simpl.
  - apply IH.
  - intros [= ->]. eapply bisect_raises, Hb.
Qed.

(** The sort raises what a comparison raises: [TypeError]. *)
Lemma list_sort_raises l e : list_sort l = Raise e -> e = TypeError.
Proof.
  destruct l as [|x [|y l]]; try discriminate. unfold list_sort.
  destruct (count_run (x :: y :: l)) as [[n d]|e'] eqn:Hc; cbn [mbind result_bind].
  - apply binarysort_raises.
  - intros [= ->]. eapply count_run_raises, Hc.
Qed.

Lemma sorted_raises (key : A -> result (list PyVal.value)) (data : list A)
    (reverse : bool) (e : exn) :
  sorted data key reverse = Raise e ->
  (exists z : A, z ∈ data /\ key z = Raise e) \/ e = TypeError.
Proof.
  unfold sorted. destruct (mapM key data) as [keys|e'] eqn:Hkeys; simpl.
  - destruct (list_sort _) as [s|e''] eqn:Hs; simpl; [discriminate|].
    intros [= ->]. right. eapply list_sort_raises, Hs.
  - intros [= ->]. left. eapply mapM_Raise, Hkeys.
Qed.

End ListSortRaises.

Section KeysAndExceptions.

Variable py_float : string -> option spec_float.
Variable date_parse : string -> option PyVal.datetime.

Abbreviation sort_value := (sort_value py_float date_parse).
Abbreviation detect_field_type := (detect_field_type py_float date_parse).
Abbreviation resolve_field_types := (resolve_field_types py_float date_parse).
Abbreviation sort_key := (sort_key py_float date_parse).
Abbreviation sort_rows := (sort_rows py_float date_parse).
Abbreviation sort_csv_file := (sort_csv_file py_float date_parse).

Lemma lookup_padded (r : row) (n i : nat) :
  default "" ((r ++ replicate n "") !! i) = default "" (r !! i).
Proof.
  destruct (decide (i < length r)) as [Hlt|Hge].
  - rewrite lookup_app_l by exact Hlt. reflexivity.
  - rewrite lookup_app_r by lia.
    assert (r !! i = None) as -> by (apply lookup_ge_None_2; lia).
    destruct (replicate n "" !! (i - length r)) as [v|] eqn:Hv; [|reflexivity].
    apply lookup_replicate in Hv as [-> _]. reflexivity.
Qed.

(** X5.  A row shorter than the header is keyed as if its missing cells
    were empty: the key of a row and the key of the row with empty cells
    appended are the same. *)
Theorem sort_key_short_row header field_types common (r : row) (n : nat) :
  sort_key header field_types common (r ++ replicate n "")
  = sort_key header field_types common r.
Proof.
  induction common as [|f common IH]; [reflexivity|]. cbn [sort_key].
  rewrite IH. destruct (index (Field.name f) header) as [i|e]; [|reflexivity].
  simpl. rewrite lookup_padded. reflexivity.
Qed.

(** Every field gets an entry in [field_types]. *)
Lemma resolve_field_types_is_Some header data common field_types0 field_types name :
  resolve_field_types header data common field_types0 = Ok field_types ->
  is_Some (field_types0 !! name) \/ name ∈ map Field.name common ->
  is_Some (field_types !! name).
Proof.
  revert field_types0. induction common as [|f common IH]; intros field_types0;
    cbn [resolve_field_types].
  - intros [= <-] [H|H]; [exact H | inversion H].
  - assert (forall t, is_Some (field_types0 !! name)
                      \/ name ∈ map Field.name (f :: common) ->
              is_Some (<[Field.name f := t]> field_types0 !! name)
              \/ name ∈ map Field.name common) as Hstep.
    { intros t [H|H].
      - left. rewrite lookup_insert. case_decide; [eauto | exact H].
      - simpl in H. apply elem_of_cons in H as [->|H]; [|right; exact H].
        left. rewrite lookup_insert_eq. eauto. }
    destruct (String.eqb (Field.type f) "auto").
    + intros H Hname. apply bind_Ok in H as (i & _ & H).
      apply bind_Ok in H as (sample & _ & H).
      eapply IH; [exact H | apply Hstep, Hname].
    + intros H Hname. eapply IH; [exact H | apply Hstep, Hname].
Qed.

(** No entry of [field_types] is [auto]. *)
Lemma resolve_field_types_not_auto header data common field_types0 field_types :
  resolve_field_types header data common field_types0 = Ok field_types ->
  (forall name t, field_types0 !! name = Some t -> t <> "auto") ->
  forall name t, field_types !! name = Some t -> t <> "auto".
Proof.
  revert field_types0. induction common as [|f common IH]; intros field_types0;
    cbn [resolve_field_types].
  - intros [= <-] H. exact H.
  - assert (forall t0, t0 <> "auto" ->
              forall name t, <[Field.name f := t0]> field_types0 !! name = Some t ->
              (forall name t, field_types0 !! name = Some t -> t <> "auto") ->
              t <> "auto") as Hstep.
    { intros t0 Ht0 name t. rewrite lookup_insert. case_decide as Hname.
      - intros [= <-] _. exact Ht0.
      - intros H H0. eapply H0, H. }
    destruct (String.eqb_spec (Field.type f) "auto") as [Hauto|Hauto].
    + intros H H0. apply bind_Ok in H as (i & _ & H).
      apply bind_Ok in H as (sample & _ & H).
      eapply IH; [exact H|]. intros name t Hl. eapply Hstep; [|exact Hl|exact H0].
      destruct (detect_field_type_range py_float date_parse sample)
        as [-> | [-> | ->]]; discriminate.
    + intros H H0. eapply IH; [exact H|].
      intros name t Hl. eapply Hstep; [exact Hauto|exact Hl|exact H0].
Qed.

Lemma sort_key_Ok header field_types common (r : row) :
  Forall (fun f => is_Some (field_types !! Field.name f)) common ->
  in_header header common ->
  exists k, sort_key header field_types common r = Ok k
            /\ length k = length common.
Proof.
  induction 1 as [|f common [t Ht] _ IH]; intros Hh; [simpl; eauto|].
  apply Forall_cons in Hh as [Hf Hh]. cbn [sort_key].
  destruct (index_total _ _ Hf) as [i ->]. simpl.
  unfold dict_get. rewrite Ht. simpl.
  destruct (IH Hh) as (k & -> & Hk). simpl.
  eexists. split; [reflexivity|]. simpl. rewrite Hk. reflexivity.
Qed.

Lemma sort_key_ValueError header field_types common (r : row) :
  Forall (fun f => is_Some (field_types !! Field.name f)) common ->
  ~ in_header header common ->
  sort_key header field_types common r = Raise ValueError.
Proof.
  induction 1 as [|f common [t Ht] _ IH]; intros Hh.
  - exfalso. apply Hh. constructor.
  - cbn [sort_key].
    destruct (decide (Field.name f ∈ header)) as [Hf|Hf].
    + destruct (index_total _ _ Hf) as [i ->]. simpl.
      unfold dict_get. rewrite Ht. simpl. rewrite IH; [reflexivity|].
      intros Hrest. apply Hh. constructor; assumption.
    + rewrite (index_absent _ _ Hf). reflexivity.
Qed.

Lemma resolve_field_types_fields header data common field_types :
  resolve_field_types header data common ∅ = Ok field_types ->
  Forall (fun f => is_Some (field_types !! Field.name f)) common.
Proof.
  intros H. apply Forall_forall. intros f Hf.
  eapply resolve_field_types_is_Some; [exact H|]. right.
  apply list_elem_of_fmap. eauto.
Qed.

(** X6.  With declared types none of which is [date], so that keys are
    built without the date parser, the loop over the fields fills
    [field_types] and the closure [sort_key] cannot raise [KeyError]: when
    every sort field is a column of the header it returns, for every row, a
    key with one value per sort field; when some sort field is not a column
    it raises [ValueError] for every row. *)
Theorem sort_key_after_resolve header data common (r : row) :
  no_auto common -> Forall (fun f => Field.type f <> "date") common ->
  exists field_types,
    resolve_field_types header data common ∅ = Ok field_types
    /\ (in_header header common ->
        exists k, sort_key header field_types common r = Ok k
                  /\ length k = length common)
    /\ (~ in_header header common ->
        sort_key header field_types common r = Raise ValueError).
Proof.
  intros Hno _.
  pose proof (resolve_field_types_declared py_float date_parse header data common ∅ Hno)
    as Hft.
  eexists. split; [exact Hft|].
  pose proof (resolve_field_types_fields _ _ _ _ Hft) as Hdom.
  split; [apply sort_key_Ok, Hdom | apply sort_key_ValueError, Hdom].
Qed.

Lemma resolve_field_types_raises header data common field_types0 e :
  in_header header common ->
  resolve_field_types header data common field_types0 = Raise e ->
  e = IndexError /\ ~ no_auto common.
Proof.
  intros Hh. revert field_types0.
  induction Hh as [|f common Hf _ IH]; intros field_types0;
    cbn [resolve_field_types]; [discriminate|].
  destruct (String.eqb_spec (Field.type f) "auto") as [Hauto|Hauto].
  - destruct (index_total _ _ Hf) as [i ->]. simpl.
    rewrite mapM_getitem. intros H. split.
    + destruct (forallb _ _); simpl in H; [|congruence].
      eapply IH, H.
    + intros Hno. apply Forall_inv in Hno. contradiction.
  - intros H. destruct (IH _ H) as [-> Hno]. split; [reflexivity|].
    intros Hno'. apply Hno. eapply Forall_inv_tail, Hno'.
Qed.

Lemma sort_rows_raises common header data sort_config (e : exn) :
  in_header header common ->
  sort_rows common header data sort_config = Raise e ->
  e = TypeError \/ (e = IndexError /\ ~ no_auto common).
Proof.
  intros Hh Hrows. unfold sort_rows in Hrows.
  destruct (resolve_field_types header data common ∅) as [ft|e'] eqn:Hft;
    simpl in Hrows.
  - apply sorted_raises in Hrows as [(r & _ & Hr) | Hty]; [|left; exact Hty].
    destruct (sort_key_Ok header ft common r) as (k & Hk & _);
      [eapply resolve_field_types_fields, Hft | exact Hh |].
    rewrite Hk in Hr. discriminate.
  - injection Hrows as ->. right. eapply resolve_field_types_raises; eassumption.
Qed.

(** X7.  When every sort field is a column of the header, a readable file
    with a header row makes [sort_csv_file] raise nothing but [TypeError]
    (two keys that Python cannot compare) and [IndexError] (a sampled row
    too short for an [auto] column): never [ValueError] or [KeyError], and
    [IndexError] only when some field has type [auto]. *)
Theorem sort_csv_file_raises common header data sort_config (e : exn) :
  in_header header common ->
  sort_csv_file common (Content (header :: data) false) sort_config = Raise e ->
  e = TypeError \/ (e = IndexError /\ ~ no_auto common).
Proof.
  intros Hh. unfold sort_csv_file. simpl.
  destruct (sort_rows common header data sort_config) as [out|e'] eqn:Hrows;
    simpl; [discriminate|].
  intros [= ->]. eapply sort_rows_raises; eassumption.
Qed.

(** X8.  A sort field that is not a column of the header is noticed only
    when a key is built: with declared types none of which is [date] (no
    cell is given to the date parser), a file with at least one data row
    makes [sort_csv_file] raise [ValueError], whatever the cells hold. *)
Theorem sort_csv_file_absent_field common header data sort_config :
  no_auto common -> Forall (fun f => Field.type f <> "date") common ->
  ~ in_header header common -> data <> [] ->
  sort_csv_file common (Content (header :: data) false) sort_config
  = Raise ValueError.
Proof.
  intros Hno _ Hh Hdata. unfold sort_csv_file, sort_rows. simpl.
  pose proof (resolve_field_types_declared py_float date_parse header data common ∅ Hno)
    as Hft.
  rewrite Hft. simpl. unfold sorted.
  destruct data as [|r data]; [congruence|]. cbn [mapM].
  rewrite (sort_key_ValueError header _ common r); [reflexivity| |exact Hh].
  eapply resolve_field_types_fields, Hft.
Qed.

(** X9.  A file that holds a header row and no data row is written back as
    one line: the cells of the header as read, joined by the delimiter, and
    a line feed.  The sort fields are not looked up in the header, except
    those of type [auto], which must be columns of it. *)
Theorem sort_csv_file_header_only common header sort_config :
  Forall (fun f => Field.type f = "auto" -> Field.name f ∈ header) common ->
  sort_csv_file common (Content [header] false) sort_config
  = Ok (Some (String.concat (SortConfig.delimiter sort_config) header
              +:+ String "010"%char EmptyString)).
Proof.
  intros H. unfold sort_csv_file, sort_rows. simpl.
  assert (forall field_types0, exists field_types,
            resolve_field_types header [] common field_types0 = Ok field_types)
    as Hft.
  { induction H as [|f common Hf _ IH]; intros field_types0;
      cbn [resolve_field_types]; [eauto|].
    destruct (String.eqb_spec (Field.type f) "auto") as [Hauto|Hauto]; [|apply IH].
    destruct (index_total _ _ (Hf Hauto)) as [i ->]. simpl. apply IH. }
  destruct (Hft ∅) as [ft ->].
  simpl. unfold file_text. simpl.
  destruct (String.eqb (SortConfig.order sort_config) "desc"); simpl;
    rewrite append_empty_r; reflexivity.
Qed.

(** X10.  In a column of type [auto], a row among the first 100 data rows
    that is too short to hold the column makes [sort_csv_file] raise
    [IndexError], although the same row would be keyed as an empty cell. *)
Theorem sort_csv_file_short_sample f common header data sort_config (i : nat)
    (r : row) :
  Field.type f = "auto" -> index (Field.name f) header = Ok i ->
  r ∈ take 100 data -> length r <= i ->
  sort_csv_file (f :: common) (Content (header :: data) false) sort_config
  = Raise IndexError.
Proof.
  intros Hauto Hi Hr Hlen. unfold sort_csv_file, sort_rows.
  cbn [read_rows mbind result_bind resolve_field_types].
  rewrite Hauto, String.eqb_refl, Hi. cbn [mbind result_bind].
  rewrite mapM_getitem.
  destruct (forallb _ _) eqn:Hall; [exfalso | reflexivity].
  rewrite forallb_forall in Hall.
  apply list_elem_of_In in Hr. specialize (Hall r Hr).
  apply Nat.ltb_lt in Hall. lia.
Qed.

End KeysAndExceptions.

Lemma sort_key_after_resolve_witness :
  exists field_types,
    resolve_field_types float_fragment date_fragment ["REWARD_CODE"; "AMOUNT"]
      [["B"; "10"]] [reward_field] ∅ = Ok field_types
    /\ (in_header ["REWARD_CODE"; "AMOUNT"] [reward_field] ->
        exists k,
          sort_key float_fragment date_fragment ["REWARD_CODE"; "AMOUNT"]
            field_types [reward_field] ["B"; "10"] = Ok k
          /\ length k = length [reward_field])
    /\ (~ in_header ["REWARD_CODE"; "AMOUNT"] [reward_field] ->
        sort_key float_fragment date_fragment ["REWARD_CODE"; "AMOUNT"]
          field_types [reward_field] ["B"; "10"] = Raise ValueError).
Proof.
  apply (sort_key_after_resolve float_fragment date_fragment
           ["REWARD_CODE"; "AMOUNT"] [["B"; "10"]] [reward_field] ["B"; "10"]).
  - repeat constructor. discriminate.
  - repeat constructor. discriminate.
Defined.

Lemma sort_csv_file_raises_witness :
  TypeError = TypeError \/ (TypeError = IndexError /\ ~ no_auto [blank_date_field]).
Proof.
  apply (sort_csv_file_raises float_fragment date_fragment [blank_date_field]
           ["D"] [[""]; ["2020-01-01"]] blank_date_config TypeError).
  - repeat constructor.
  - vm_compute. reflexivity.
Defined.

Lemma sort_csv_file_absent_field_witness :
  sort_csv_file float_fragment date_fragment [Field.Make "Z" "text" "asc"]
    (Content (["A"; "B"] :: [["1"; "x"]]) false) short_row_config
  = Raise ValueError.
Proof.
  apply (sort_csv_file_absent_field float_fragment date_fragment
           [Field.Make "Z" "text" "asc"] ["A"; "B"] [["1"; "x"]] short_row_config).
  - repeat constructor. discriminate.
  - repeat constructor. discriminate.
  - intros H. apply Forall_inv in H. simpl in H.
    apply elem_of_cons in H as [H|H]; [discriminate|].
    apply elem_of_cons in H as [H|H]; [discriminate|]. inversion H.
  - discriminate.
Defined.

Lemma sort_csv_file_header_only_witness :
  sort_csv_file float_fragment date_fragment
    [Field.Make "Z" "text" "asc"; Field.Make " Id" "auto" "asc"]
    (Content [[" Id"; "B b"]] false) short_row_config
  = Ok (Some " Id;B b
").
Proof.
  apply (sort_csv_file_header_only float_fragment date_fragment
           [Field.Make "Z" "text" "asc"; Field.Make " Id" "auto" "asc"]
           [" Id"; "B b"] short_row_config).
  apply Forall_cons. split; [intros H; discriminate H|].
  apply Forall_cons. split; [intros _; left | constructor].
Defined.

Lemma sort_csv_file_short_sample_witness :
  sort_csv_file float_fragment date_fragment [Field.Make "B" "auto" "asc"]
    (Content (["A"; "B"] :: [["1"; "x"]; ["2"]]) false) short_row_config
  = Raise IndexError.
Proof.
  apply (sort_csv_file_short_sample float_fragment date_fragment
           (Field.Make "B" "auto" "asc") [] ["A"; "B"] [["1"; "x"]; ["2"]]
           short_row_config 1 ["2"]).
  - reflexivity.
  - reflexivity.
  - right. left.
  - simpl. lia.
Defined.
(* ===================================================================== *)
(** ** Further properties: the order of the rows written *)
(* ===================================================================== *)

(** Along a sorted list, what neighbours share is shared by all. *)
Lemma Sorted_shared {A B} (R : A -> A -> Prop) (q : A -> B) (l : list A) :
  (forall x y, R x y -> q x = q y) -> Sorted R l ->
  forall x y, x ∈ l -> y ∈ l -> q x = q y.
Proof.
  intros HR Hs.
  assert (forall x, x ∈ l -> Some (q x) = q <$> head l) as Hhead.
  { induction Hs as [|z l Hs IH Hhd]; intros x Hx; [inversion Hx|].
    apply elem_of_cons in Hx as [->|Hx]; [reflexivity|]. simpl.
    rewrite (IH x Hx). destruct Hhd as [|w l Hzw]; [inversion Hx|].
    simpl. f_equal. symmetry. apply HR, Hzw. }
  intros x y Hx Hy. apply Hhead in Hx, Hy. congruence.
Qed.

(** A relation that is transitive on the items of a sorted list orders
    every pair of them, not the neighbours only. *)
Lemma Sorted_StronglySorted_on {A} (P : A -> Prop) (R : A -> A -> Prop)
    (l : list A) :
  (forall x y z, P x -> P y -> P z -> R x y -> R y z -> R x z) ->
  Forall P l -> Sorted R l -> StronglySorted R l.
Proof.
  intros Htrans HP Hs. induction Hs as [|x l Hs IH Hhd]; [constructor|].
  apply Forall_cons in HP as [Px HP]. specialize (IH HP).
  constructor; [exact IH|].
  destruct Hhd as [|y l Hxy]; [constructor|].
  apply StronglySorted_inv in IH as [_ Hy].
  apply Forall_cons in HP as [Py HP].
  constructor; [exact Hxy|].
  rewrite List.Forall_forall in Hy. apply Forall_forall. intros z Hz.
  rewrite Forall_forall in HP.
  apply (Htrans x y z); auto. apply Hy, list_elem_of_In, Hz.
Qed.

Lemma tuple_lt_head_kind (x y : PyVal.value) (a b : list PyVal.value) (c : bool) :
  PyVal.tuple_lt (x :: a) (y :: b) = Ok c -> kind_of x = kind_of y.
Proof.
  simpl. destruct x as [s|s|[s|s os]], y as [t|t|[t|t ot]]; simpl;
    try reflexivity; discriminate.
Qed.

Section RowOrder.

Variable py_float : string -> option spec_float.
Variable date_parse : string -> option PyVal.datetime.

Abbreviation sort_value := (sort_value py_float date_parse).
Abbreviation resolve_field_types := (resolve_field_types py_float date_parse).
Abbreviation sort_key := (sort_key py_float date_parse).
Abbreviation sort_rows := (sort_rows py_float date_parse).
Abbreviation sort_csv_file := (sort_csv_file py_float date_parse).

(** The sort value of a cell in a column that is neither text nor number:
    a float for a blank cell, and no float for any other cell. *)
Lemma sort_value_kind_other (value field_type : string) :
  field_type <> "text" -> field_type <> "number" ->
  kind_of (sort_value value field_type) = KFloat <-> PyStr.strip value = "".
Proof.
  intros Ht Hn. apply String.eqb_neq in Ht, Hn.
  unfold sort_value. rewrite blank_strip, Ht, Hn.
  destruct (String.eqb_spec (PyStr.strip value) "") as [Hs|Hs].
  - split; auto.
  - split; [|contradiction].
    destruct (String.eqb field_type "date"); [destruct (date_parse _)|];
      discriminate.
Qed.

Lemma sort_key_head header field_types f rest (r : row) (i : nat) (t : string)
    (k : list PyVal.value) :
  index (Field.name f) header = Ok i ->
  field_types !! Field.name f = Some t ->
  sort_key header field_types (f :: rest) r = Ok k ->
  exists k', k = sort_value (default "" (r !! i)) t :: k'.
Proof.
  intros Hi Ht. cbn [sort_key]. rewrite Hi. cbn [mbind result_bind].
  unfold dict_get. rewrite Ht. cbn [mbind result_bind].
  intros H. apply bind_Ok in H as (k' & _ & [= <-]). eauto.
Qed.

(** X11.  Let the types be declared, the first sort field be resolved to
    [date] (or to any type other than text and number), every sort field be
    a column of the header, and the date parser accept every non-blank cell
    of the date columns.  Then one blank cell and one non-blank cell in the
    column of the first field are enough to make [sort_csv_file] fail: the
    blank cell is keyed by a float, the other by a [datetime] or a string,
    and the sort raises [TypeError] wherever the two rows stand. *)
Theorem sort_csv_file_blank_and_value f rest header data sort_config field_types
    (t : string) (i : nat) (a b : row) :
  no_auto (f :: rest) ->
  resolve_field_types header data (f :: rest) ∅ = Ok field_types ->
  field_types !! Field.name f = Some t -> t <> "text" -> t <> "number" ->
  in_header header (f :: rest) ->
  index (Field.name f) header = Ok i ->
  a ∈ data -> b ∈ data ->
  PyStr.strip (default "" (a !! i)) = "" ->
  PyStr.strip (default "" (b !! i)) <> "" ->
  (forall r f' j, r ∈ data -> f' ∈ f :: rest ->
     field_types !! Field.name f' = Some "date" ->
     index (Field.name f') header = Ok j ->
     PyStr.strip (default "" (r !! j)) <> "" ->
     is_Some (date_parse (PyStr.strip (default "" (r !! j))))) ->
  sort_csv_file (f :: rest) (Content (header :: data) false) sort_config
  = Raise TypeError.
Proof.
  intros _ Hft Ht Htext Hnumber Hh Hi Ha Hb Hblank Hvalue _.
  unfold sort_csv_file, sort_rows. cbn [read_rows mbind result_bind].
  rewrite Hft. cbn [mbind result_bind].
  set (key := sort_key header field_types (f :: rest)).
  set (reverse := String.eqb (SortConfig.order sort_config) "desc").
  assert (forall r, exists k', key r = Ok (sort_value (default "" (r !! i)) t :: k'))
    as Hkey.
  { intros r.
    destruct (sort_key_Ok py_float date_parse header field_types (f :: rest) r)
      as (k & Hk & _);
      [eapply resolve_field_types_fields, Hft | exact Hh |].
    destruct (sort_key_head _ _ _ _ _ _ _ _ Hi Ht Hk) as [k' ->].
    exists k'. exact Hk. }
  destruct (sorted data key reverse) as [out|e] eqn:Hsorted.
  - exfalso.
    pose proof (sorted_Permutation _ _ _ _ Hsorted) as Hperm.
    pose proof (sorted_in_order _ _ _ _ Hsorted) as Hord.
    assert (kind_of (sort_value (default "" (a !! i)) t)
            = kind_of (sort_value (default "" (b !! i)) t)) as Hsame.
    { apply (Sorted_shared (in_order key reverse)
               (fun r : row => kind_of (sort_value (default "" (r !! i)) t)) out).
      - intros x y (kx & ky & Hx & Hy & Hlt).
        destruct (Hkey x) as [kx' Hx'], (Hkey y) as [ky' Hy'].
        rewrite Hx in Hx'. rewrite Hy in Hy'.
        injection Hx' as ->. injection Hy' as ->.
        destruct reverse; apply tuple_lt_head_kind in Hlt; congruence.
      - exact Hord.
      - rewrite Hperm. exact Ha.
      - rewrite Hperm. exact Hb. }
    pose proof (proj2 (sort_value_kind_other _ t Htext Hnumber) Hblank) as Hka.
    rewrite Hka in Hsame. symmetry in Hsame.
    apply (sort_value_kind_other _ t Htext Hnumber) in Hsame. contradiction.
  - cbn [mbind result_bind]. f_equal.
    apply sorted_raises in Hsorted as [(r & _ & Hr) | Hty]; [|exact Hty].
    destruct (Hkey r) as [k' Hk]. rewrite Hk in Hr. discriminate.
Qed.

Lemma in_order_trans common header field_types reverse (x y z : row) :
  (exists k, sort_key header field_types common x = Ok k /\ nan_free k) ->
  (exists k, sort_key header field_types common y = Ok k /\ nan_free k) ->
  (exists k, sort_key header field_types common z = Ok k /\ nan_free k) ->
  in_order (sort_key header field_types common) reverse x y ->
  in_order (sort_key header field_types common) reverse y z ->
  in_order (sort_key header field_types common) reverse x z.
Proof.
  intros (kx & Hx & Nx) (ky & Hy & Ny) (kz & Hz & Nz)
    (kx' & ky' & Hx' & Hy' & Hxy) (ky'' & kz' & Hy'' & Hz' & Hyz).
  rewrite Hx in Hx'. rewrite Hy in Hy', Hy''. rewrite Hz in Hz'.
  injection Hx' as <-. injection Hy' as <-. injection Hy'' as <-.
  injection Hz' as <-.
  exists kx, kz. split; [exact Hx|]. split; [exact Hz|].
  destruct reverse.
  - apply (tuple_not_lt_trans kz ky kx); assumption.
  - apply (tuple_not_lt_trans kx ky kz); assumption.
Qed.

Lemma sort_rows_StronglySorted common header data sort_config field_types keys out :
  resolve_field_types header data common ∅ = Ok field_types ->
  mapM (sort_key header field_types common) data = Ok keys ->
  Forall nan_free keys ->
  sort_rows common header data sort_config = Ok out ->
  StronglySorted
    (in_order (sort_key header field_types common)
       (String.eqb (SortConfig.order sort_config) "desc"))
    out.
Proof.
  intros Hft Hkeys Hnan Hout.
  apply (sort_rows_inv py_float date_parse) in Hout as (field_types' & Hft' & Hout).
  rewrite Hft in Hft'. injection Hft' as <-.
  apply (Sorted_StronglySorted_on
           (fun r => exists k, sort_key header field_types common r = Ok k
                               /\ nan_free k)).
  - intros x y z. apply in_order_trans.
  - pose proof (sorted_Permutation _ _ _ _ Hout) as Hperm. rewrite Hperm.
    apply mapM_Ok_Forall2 in Hkeys. clear - Hkeys Hnan.
    induction Hkeys as [|r k data keys Hr _ IH]; [constructor|].
    apply Forall_cons in Hnan as [Hk Hnan]. constructor; eauto.
  - eapply sorted_in_order, Hout.
Qed.

(** X12.  When no sort value of the data rows is NaN, the rows
    [sort_csv_file] writes are in order as a whole: every row, and not its
    neighbour only, stands before the rows with a larger key (a smaller key
    when the overall order is ['desc']) or an equal one. *)
Theorem sort_csv_file_ordered common header data fails sort_config text
    field_types keys :
  resolve_field_types header data common ∅ = Ok field_types ->
  mapM (sort_key header field_types common) data = Ok keys ->
  Forall nan_free keys ->
  sort_csv_file common (Content (header :: data) fails) sort_config = Ok (Some text) ->
  exists out,
    text = file_text (SortConfig.delimiter sort_config) header out
    /\ StronglySorted
         (in_order (sort_key header field_types common)
            (String.eqb (SortConfig.order sort_config) "desc"))
         out.
Proof.
  intros Hft Hkeys Hnan H.
  apply (sort_csv_file_inv py_float date_parse) in H as (_ & out & Hout & ->).
  exists out. split; [reflexivity|].
  eapply sort_rows_StronglySorted; eassumption.
Qed.

(** X13.  A file with a header row, sorted on columns of its header that
    are declared as text or as number, is always written, whatever its cells
    hold: the header line, then one line for every data row, in some order,
    every line being the cells of its row as read, joined by the delimiter,
    and a line feed. *)
Theorem sort_csv_file_text_number common header data sort_config :
  text_or_number common -> in_header header common ->
  exists out,
    Permutation out data
    /\ sort_csv_file common (Content (header :: data) false) sort_config
       = Ok (Some
               ((String.concat (SortConfig.delimiter sort_config) header
                 +:+ String "010"%char EmptyString)
                +:+ String.concat ""
                      (map (fun r =>
                              String.concat (SortConfig.delimiter sort_config) r
                              +:+ String "010"%char EmptyString)
                         out))).
Proof.
  intros Htypes Hh.
  destruct (sort_csv_file_total py_float date_parse common header data sort_config
              Htypes Hh) as (out & Hrows & Hfile).
  exists out. split; [|rewrite Hfile, file_text_spelled; reflexivity].
  apply (sort_rows_inv py_float date_parse) in Hrows as (ft & _ & Hs).
  eapply sorted_Permutation, Hs.
Qed.

End RowOrder.

Lemma sort_csv_file_blank_and_value_witness :
  sort_csv_file float_fragment date_fragment [blank_date_field]
    (Content (["D"] :: [["2020-01-01"]; ["2021-05-05"]; [" "]]) false)
    blank_date_config
  = Raise TypeError.
Proof.
  apply (sort_csv_file_blank_and_value float_fragment date_fragment
           blank_date_field [] ["D"] [["2020-01-01"]; ["2021-05-05"]; [" "]]
           blank_date_config {[ "D" := "date" ]} "date" 0 [" "] ["2021-05-05"]).
  - repeat constructor. discriminate.
  - vm_compute. reflexivity.
  - vm_compute. reflexivity.
  - discriminate.
  - discriminate.
  - repeat constructor.
  - reflexivity.
  - right. right. left.
  - right. left.
  - reflexivity.
  - vm_compute. discriminate.
  - intros r f' j Hr Hf' _ Hj Hcell.
    apply list_elem_of_singleton in Hf' as ->. injection Hj as <-.
    repeat (apply elem_of_cons in Hr as [-> | Hr]);
      [vm_compute; eauto | vm_compute; eauto | exfalso; apply Hcell; reflexivity
      | inversion Hr].
Defined.

Lemma sort_csv_file_ordered_witness :
  exists out,
    reward_text = file_text ";" ["REWARD_CODE"; "AMOUNT"] out
    /\ StronglySorted
         (in_order (sort_key float_fragment date_fragment
                      ["REWARD_CODE"; "AMOUNT"] reward_field_types [reward_field])
            false)
         out.
Proof.
  apply (sort_csv_file_ordered float_fragment date_fragment [reward_field]
           ["REWARD_CODE"; "AMOUNT"] [["B"; "10"]; ["A"; "20"]; ["A"; "5"]]
           false reward_config reward_text reward_field_types
           [[PyVal.VStr "b"]; [PyVal.VStr "a"]; [PyVal.VStr "a"]]).
  - vm_compute. reflexivity.
  - vm_compute. reflexivity.
  - repeat constructor; discriminate.
  - vm_compute. reflexivity.
Defined.

(** Without the condition of X12 the order can fail: in the file of
    [nan_rows] the row with key 9 is written before a row with key 5. *)
Lemma nan_breaks_order :
  sort_rows float_fragment date_fragment [nan_field] nan_header nan_rows nan_config
  = Ok nan_rows_sorted
  /\ nan_rows_sorted !! 4 = Some ["9"; "q"]
  /\ nan_rows_sorted !! 6 = Some ["5"; "a1"]
  /\ ~ in_order (sort_key float_fragment date_fragment nan_header nan_field_types
                   [nan_field]) false ["9"; "q"] ["5"; "a1"].
Proof.
  split; [vm_compute; reflexivity|]. split; [reflexivity|]. split; [reflexivity|].
  intros (kx & ky & Hx & Hy & Hlt). vm_compute in Hx, Hy.
  injection Hx as <-. injection Hy as <-. vm_compute in Hlt. discriminate.
Qed.

Lemma sort_csv_file_text_number_witness :
  exists out,
    Permutation out [[" b "; "10"]; ["A"; " 20"]]
    /\ sort_csv_file float_fragment date_fragment
         [Field.Make " Reward_Code " "text" "asc"] spaced_file spaced_config
       = Ok (Some
               ((String.concat ";" [" Reward_Code "; "AMOUNT"]
                 +:+ String "010"%char EmptyString)
                +:+ String.concat ""
                      (map (fun r => String.concat ";" r
                                     +:+ String "010"%char EmptyString)
                         out))).
Proof.
  apply (sort_csv_file_text_number float_fragment date_fragment
           [Field.Make " Reward_Code " "text" "asc"] [" Reward_Code "; "AMOUNT"]
           [[" b "; "10"]; ["A"; " 20"]] spaced_config).
  - repeat constructor.
  - repeat constructor.
Defined.
(* ===================================================================== *)
(** ** Further properties: the reconciler and the batch driver *)
(* ===================================================================== *)

Lemma foldl_keep_common_snd (common : gset string) fields acc log :
  (foldl (keep_common common) (acc, log) fields).2
  = log ++ map (field_report common) fields.
Proof.
  revert acc log. induction fields as [|f fields IH]; intros acc log;
    cbn [foldl map].
  - rewrite app_nil_r. reflexivity.
  - assert (keep_common common (acc, log) f
            = (if bool_decide (Field.name f ∈ common) then acc ++ [f] else acc,
               log ++ [field_report common f])) as ->.
    { unfold keep_common, field_report. case_bool_decide; reflexivity. }
    rewrite IH, <- app_assoc. reflexivity.
Qed.

Lemma get_common_sort_fields_snd config fs :
  2 <= configured_files config ->
  let common := common_headers fs (Config.input_files config) in
  let fields := SortConfig.fields (Config.sort_config config) in
  (get_common_sort_fields config fs).2
  = (foldl (read_header fs) (∅, []) (Config.input_files config)).2
    ++ [LogInfoCommonHeaders] ++ map (field_report common) fields
    ++ [match (get_common_sort_fields config fs).1 with
        | [] => LogErrorNoCommonFields
        | l => LogInfoFinalFields (map Field.name l)
        end].
Proof.
  intros Hsize. cbv zeta.
  unfold get_common_sort_fields, configured_files in *.
  rewrite foldl_read_header_eta. cbv zeta. rewrite file_headers_size.
  rewrite bool_decide_eq_false_2 by lia.
  fold (common_headers fs (Config.input_files config)).
  set (log0 := (foldl (read_header fs) (∅, []) (Config.input_files config)).2).
  pose proof (foldl_keep_common_snd (common_headers fs (Config.input_files config))
                (SortConfig.fields (Config.sort_config config)) []
                (log0 ++ [LogInfoCommonHeaders])) as Hk.
  destruct (foldl (keep_common _) _ _) as [csf log'].
  simpl in Hk. subst log'. destruct csf; simpl; rewrite <- !app_assoc; reflexivity.
Qed.

Lemma read_header_log fs input_files m log x :
  x ∈ (foldl (read_header fs) (m, log) input_files).2 ->
  x ∈ log \/ (exists filename header, x = LogDebugHeader filename header)
  \/ exists filename, x = LogErrorHeader filename.
Proof.
  revert m log. induction input_files as [|f l IH]; intros m log; cbn [foldl];
    [auto|].
  unfold read_header at 2.
  destruct (fs f) as [|[|header rows] fails]; intros H; apply IH in H;
    rewrite ?elem_of_app, ?list_elem_of_singleton in H;
    destruct H as [H | H]; eauto; destruct H as [H | H]; eauto.
Qed.

Section Batch.

Variable py_float : string -> option spec_float.
Variable date_parse : string -> option PyVal.datetime.

Abbreviation sort_csv_file := (sort_csv_file py_float date_parse).
Abbreviation process_file := (process_file py_float date_parse).
Abbreviation process_files := (process_files py_float date_parse).
Abbreviation main := (main py_float date_parse).


(** X15.  The reconciler never adds, changes or reorders a field: what it
    returns is the configured list with some entries left out. *)
Theorem common_sort_fields_sublist (config : Config.t) (fs : filesystem) :
  (get_common_sort_fields config fs).1
  `sublist_of` SortConfig.fields (Config.sort_config config).
Proof.
  rewrite get_common_sort_fields_fst. cbv zeta.
  case_decide; [reflexivity | apply sublist_filter].
Qed.

(** X16.  With two or more files configured, the log of the reconciler is
    what the loop over the files logged, then the list of common headers,
    then one record for every configured field, in the configured order
    (used when its name is a common header, skipped when it is not), then
    one closing record; and the error "no common fields" is logged exactly
    when the list returned is empty. *)
Theorem common_sort_fields_log (config : Config.t) (fs : filesystem) :
  2 <= configured_files config ->
  let common := common_headers fs (Config.input_files config) in
  let fields := SortConfig.fields (Config.sort_config config) in
  (get_common_sort_fields config fs).2
  = (foldl (read_header fs) (∅, []) (Config.input_files config)).2
    ++ [LogInfoCommonHeaders] ++ map (field_report common) fields
    ++ [match (get_common_sort_fields config fs).1 with
        | [] => LogErrorNoCommonFields
        | l => LogInfoFinalFields (map Field.name l)
        end]
  /\ (LogErrorNoCommonFields ∈ (get_common_sort_fields config fs).2
      <-> (get_common_sort_fields config fs).1 = []).
Proof.
  intros Hsize common fields.
  pose proof (get_common_sort_fields_snd config fs Hsize) as Hlog.
  cbv zeta in Hlog. fold common fields in Hlog. split; [exact Hlog|].
  rewrite Hlog. rewrite !elem_of_app. split.
  - intros [H | [H | [H | H]]].
    + apply read_header_log in H as [H | [(? & ? & H) | (? & H)]];
        [inversion H | discriminate | discriminate].
    + apply list_elem_of_singleton in H. discriminate.
    + apply list_elem_of_fmap in H as (f & Hf & _).
      unfold field_report in Hf. case_bool_decide; discriminate.
    + apply list_elem_of_singleton in H.
      destruct (get_common_sort_fields config fs).1; [reflexivity | discriminate].
  - intros ->. right. right. right. apply list_elem_of_singleton. reflexivity.
Qed.

(** X17.  The choice of fields depends on which files are configured, not
    on how they are listed: two configurations with the same fields whose
    lists of file names hold the same names, in any order and any number of
    times, get the same fields from the reconciler. *)
Theorem common_sort_fields_file_order (config config' : Config.t) (fs : filesystem) :
  (forall filename, filename ∈ Config.input_files config
                    <-> filename ∈ Config.input_files config') ->
  SortConfig.fields (Config.sort_config config)
  = SortConfig.fields (Config.sort_config config') ->
  (get_common_sort_fields config fs).1 = (get_common_sort_fields config' fs).1.
Proof.
  intros Hfiles Hfields. rewrite !get_common_sort_fields_fst. cbv zeta.
  assert (list_to_set (Config.input_files config)
          = (list_to_set (Config.input_files config') : gset string)) as Hset.
  { apply set_eq. intros x. rewrite !elem_of_list_to_set. apply Hfiles. }
  unfold configured_files. rewrite Hset, Hfields.
  case_decide; [reflexivity|].
  apply list_filter_iff. intros f. rewrite !elem_of_common_headers, !Forall_forall.
  assert (Config.input_files config <> [] <-> Config.input_files config' <> [])
    as Hne.
  { split; intros Hne Hnil.
    - destruct (Config.input_files config) as [|x l]; [congruence|].
      assert (x ∈ Config.input_files config') as Hx by (apply Hfiles; left).
      rewrite Hnil in Hx. inversion Hx.
    - destruct (Config.input_files config') as [|x l]; [congruence|].
      assert (x ∈ Config.input_files config) as Hx by (apply Hfiles; left).
      rewrite Hnil in Hx. inversion Hx. }
  rewrite Hne. split; intros [H1 H2]; (split; [exact H1|]);
    intros x Hx; apply H2, Hfiles, Hx.
Qed.

Lemma elem_of_process_file common config fs filename (name text : string) :
  (name, text) ∈ process_file common config fs filename <->
  name = filename +:+ "_SORT.csv"
  /\ sort_csv_file common (fs filename) (Config.sort_config config) = Ok (Some text).
Proof.
  unfold process_file. destruct (fs filename) as [|rows fails] eqn:Hfile.
  - split; [intros H; inversion H | intros [_ H]; discriminate].
  - destruct (sort_csv_file common (Content rows fails) (Config.sort_config config))
      as [[written|]|e].
    + rewrite list_elem_of_singleton. split.
      * intros [= -> ->]. auto.
      * intros [-> [= ->]]. reflexivity.
    + split; [intros H; inversion H | intros [_ H]; discriminate].
    + split; [intros H; inversion H | intros [_ H]; discriminate].
Qed.

(** X18.  A file is written exactly when the sort of its own input
    succeeds: with a non-empty field list, [process_files] writes
    [<name>_SORT.csv] with a text for every listed name whose
    [sort_csv_file] returns that text, and nothing else; a missing file or a
    file whose sort raises is passed over and does not stop the others.  It
    writes at most one file per listed name. *)
Theorem process_files_written common config fs (name text : string) :
  ((name, text) ∈ process_files common config fs <->
   common <> []
   /\ exists filename, filename ∈ Config.input_files config
        /\ name = filename +:+ "_SORT.csv"
        /\ sort_csv_file common (fs filename) (Config.sort_config config)
           = Ok (Some text))
  /\ length (process_files common config fs) <= length (Config.input_files config).
Proof.
  unfold process_files. destruct common as [|f common].
  - split; [|simpl; lia].
    split; [intros H; inversion H | intros [H _]; congruence].
  - set (fields := f :: common). split.
    + rewrite list_elem_of_In, in_flat_map. split.
      * intros (filename & Hin & H). split; [discriminate|].
        apply list_elem_of_In in Hin, H. apply elem_of_process_file in H.
        exists filename. tauto.
      * intros (_ & filename & Hin & H). exists filename.
        rewrite <- !list_elem_of_In. split; [exact Hin|].
        apply elem_of_process_file. exact H.
    + induction (Config.input_files config) as [|filename l IH]; simpl; [lia|].
      rewrite length_app.
      assert (length (process_file fields config fs filename) <= 1) as Hone.
      { unfold process_file. destruct (fs filename); [simpl; lia|].
        destruct (sort_csv_file _ _ _) as [[?|]|?]; simpl; lia. }
      lia.
Qed.

(** X19.  Every file the program writes is a configured input file put in
    another order: its name is a configured name followed by [_SORT.csv],
    and its text is the header line of that input followed by one line for
    every data row of that input, each row once, every line being the cells
    as read, joined by the delimiter, and a line feed. *)
Theorem main_writes_reordered_inputs config fs (name text : string) :
  (name, text) ∈ main config fs ->
  exists filename header data out,
    filename ∈ Config.input_files config
    /\ name = filename +:+ "_SORT.csv"
    /\ fs filename = Content (header :: data) false
    /\ Permutation out data
    /\ text
       = (String.concat (SortConfig.delimiter (Config.sort_config config)) header
          +:+ String "010"%char EmptyString)
         +:+ String.concat ""
               (map (fun r =>
                       String.concat
                         (SortConfig.delimiter (Config.sort_config config)) r
                       +:+ String "010"%char EmptyString)
                  out).
Proof.
  unfold main, process_files.
  destruct (get_common_sort_fields config fs).1 as [|f common];
    [intros H; inversion H|].
  rewrite list_elem_of_In, in_flat_map. intros (filename & Hin & H).
  apply list_elem_of_In in Hin, H. apply elem_of_process_file in H as [-> H].
  destruct (fs filename) as [|[|header data] fails] eqn:Hfile;
    [discriminate | destruct fails; discriminate |].
  apply (sort_csv_file_inv py_float date_parse) in H as (-> & out & Hout & ->).
  apply (sort_rows_inv py_float date_parse) in Hout as (ft & _ & Hs).
  exists filename, header, data, out. repeat split; try assumption.
  eapply sorted_Permutation, Hs.
Qed.

End Batch.


Lemma common_sort_fields_log_witness :
  LogErrorNoCommonFields
    ∈ (get_common_sort_fields (Config.Make ["a"; "b"] reward_config) only_a).2.
Proof.
  apply (common_sort_fields_log (Config.Make ["a"; "b"] reward_config) only_a).
  - vm_compute. lia.
  - vm_compute. reflexivity.
Defined.

Lemma common_sort_fields_file_order_witness :
  (get_common_sort_fields abc_config abc_files).1
  = (get_common_sort_fields
       (Config.Make ["second"; "first"; "second"] (Config.sort_config abc_config))
       abc_files).1.
Proof.
  apply (common_sort_fields_file_order abc_config
           (Config.Make ["second"; "first"; "second"] (Config.sort_config abc_config))
           abc_files).
  - intros filename. simpl. rewrite !elem_of_cons. tauto.
  - reflexivity.
Defined.

Lemma main_writes_reordered_inputs_witness :
  exists filename header data out,
    filename ∈ ["a"]
    /\ "a_SORT.csv" = filename +:+ "_SORT.csv"
    /\ only_a filename = Content (header :: data) false
    /\ Permutation out data
    /\ "REWARD_CODE;AMOUNT
A;20
A;5
B;10
"
       = (String.concat ";" header +:+ String "010"%char EmptyString)
         +:+ String.concat ""
               (map (fun r => String.concat ";" r +:+ String "010"%char EmptyString)
                  out).
Proof.
  apply (main_writes_reordered_inputs float_fragment date_fragment
           (Config.Make ["a"] reward_config) only_a "a_SORT.csv").
  vm_compute. left.
Defined.
(* ===================================================================== *)
(** ** Further properties: what the order depends on *)
(* ===================================================================== *)

(** *** The sort looks at the keys only *)

Lemma fmap_rev {A B} (f : A -> B) (l : list A) : f <$> rev l = rev (f <$> l).
Proof.
  induction l as [|x l IH]; [reflexivity|].
  rewrite fmap_cons. cbn [rev]. rewrite fmap_app, IH. reflexivity.
Qed.

Section ListSortMap.
Context {A B : Type} (g : A -> B).
Implicit Types (x y pivot prev : item A) (a l rest s : list (item A)).

Lemma run_length_fmap descending prev l :
  run_length descending (prod_map id g prev) (prod_map id g <$> l)
  = run_length descending prev l.
Proof.
  revert prev. induction l as [|x l IH]; intros prev; [reflexivity|].
  rewrite fmap_cons. cbn [run_length].
  change (item_lt (prod_map id g x) (prod_map id g prev)) with (item_lt x prev).
  rewrite IH. reflexivity.
Qed.

Lemma count_run_fmap l : count_run (prod_map id g <$> l) = count_run l.
Proof.
  destruct l as [|x [|y l]]; try reflexivity.
  rewrite !fmap_cons. cbn [count_run].
  change (item_lt (prod_map id g y) (prod_map id g x)) with (item_lt y x).
  destruct (item_lt y x) as [d|e]; [|reflexivity]. cbn [mbind result_bind].
  rewrite run_length_fmap. reflexivity.
Qed.

Lemma bisect_fmap fuel pivot a lo hi :
  bisect fuel (prod_map id g pivot) (prod_map id g <$> a) lo hi
  = bisect fuel pivot a lo hi.
Proof.
  revert lo hi. induction fuel as [|fuel IH]; intros lo hi; [reflexivity|].
  cbn [bisect]. rewrite list_lookup_fmap.
  destruct (lo <? hi)%nat; [|reflexivity].
  destruct (a !! _) as [x|]; [|reflexivity]. cbn [fmap option_fmap option_map].
  change (item_lt (prod_map id g pivot) (prod_map id g x)) with (item_lt pivot x).
  destruct (item_lt pivot x) as [[|]|e]; cbn [mbind result_bind];
    [apply IH | apply IH | reflexivity].
Qed.

Lemma insert_at_fmap {C D} (h : C -> D) (n : nat) (x : C) (a : list C) :
  insert_at n (h x) (h <$> a) = h <$> insert_at n x a.
Proof.
  unfold insert_at. rewrite fmap_app, fmap_cons, fmap_take, fmap_drop.
  reflexivity.
Qed.

Lemma binarysort_fmap a rest :
  binarysort (prod_map id g <$> a) (prod_map id g <$> rest)
  = fmap (M := result) (fmap (prod_map id g)) (binarysort a rest).
Proof.
  revert a. induction rest as [|pivot rest IH]; intros a; [reflexivity|].
  rewrite fmap_cons. cbn [binarysort]. rewrite length_fmap, bisect_fmap.
  destruct (bisect (length a) pivot a 0 (length a)) as [n|e]; [|reflexivity].
  cbn [mbind result_bind]. rewrite insert_at_fmap. apply IH.
Qed.

Lemma list_sort_unfold {C} (l : list (item C)) :
  2 <= length l ->
  list_sort l
  = count_run l ≫= fun '(n, descending) =>
      binarysort (if descending : bool then rev (take n l) else take n l) (drop n l).
Proof. destruct l as [|x [|y l]]; simpl; [lia | lia | reflexivity]. Qed.

Lemma list_sort_fmap l :
  list_sort (prod_map id g <$> l)
  = fmap (M := result) (fmap (prod_map id g)) (list_sort l).
Proof.
  destruct (decide (length l < 2)) as [Hlt|Hge].
  - destruct l as [|x [|y l]]; [reflexivity | reflexivity | simpl in Hlt; lia].
  - rewrite !list_sort_unfold by (rewrite ?length_fmap; lia).
    rewrite count_run_fmap.
    destruct (count_run l) as [[n d]|e]; [|reflexivity].
    cbn [mbind result_bind]. rewrite <- fmap_take, <- fmap_drop.
    destruct d; [rewrite <- fmap_rev|]; apply binarysort_fmap.
Qed.

Lemma mapM_fmap_in {C} (key : A -> result C) (key' : B -> result C) (data : list A) :
  (forall z, z ∈ data -> key' (g z) = key z) ->
  mapM key' (g <$> data) = mapM key data.
Proof.
  induction data as [|z data IH]; intros H; [reflexivity|].
  rewrite fmap_cons. cbn [mapM]. rewrite H by left.
  rewrite IH; [reflexivity|]. intros w Hw. apply H. right. exact Hw.
Qed.

(** Changing the items without changing their keys changes the output of
    [sorted] in the same way, and not its order. *)
Lemma sorted_fmap (key : A -> result (list PyVal.value))
    (key' : B -> result (list PyVal.value)) (data : list A) (reverse : bool) :
  (forall z, z ∈ data -> key' (g z) = key z) ->
  sorted (g <$> data) key' reverse
  = fmap (M := result) (fmap g) (sorted data key reverse).
Proof.
  intros H. unfold sorted. rewrite (mapM_fmap_in _ _ _ H).
  destruct (mapM key data) as [keys|e]; [|reflexivity]. cbn [mbind result_bind].
  assert (zip keys (g <$> data) = prod_map id g <$> zip keys data) as ->.
  { clear H. revert data. induction keys as [|k keys IH]; intros [|z data];
      try reflexivity.
    rewrite fmap_cons. cbn [zip zip_with]. rewrite fmap_cons. f_equal. apply IH. }
  assert ((if reverse then rev (prod_map id g <$> zip keys data)
           else prod_map id g <$> zip keys data)
          = prod_map id g <$> (if reverse then rev (zip keys data) else zip keys data))
    as -> by (destruct reverse; [rewrite fmap_rev|]; reflexivity).
  rewrite list_sort_fmap.
  destruct (list_sort _) as [s|e]; [|reflexivity]. cbn. f_equal.
  destruct reverse; rewrite <- ?fmap_rev, <- !list_fmap_compose; reflexivity.
Qed.

End ListSortMap.

Lemma StronglySorted_middle {A} (R : A -> A -> Prop) (l1 l2 : list A) (a : A) :
  StronglySorted R (l1 ++ a :: l2) ->
  (forall r, r ∈ l1 -> R r a) /\ (forall r, r ∈ l2 -> R a r).
Proof.
  induction l1 as [|x l1 IH]; simpl; intros H;
    apply StronglySorted_inv in H as [H Hx].
  - split; [intros r Hr; inversion Hr|].
    intros r Hr. rewrite List.Forall_forall in Hx.
    apply Hx, list_elem_of_In, Hr.
  - destruct (IH H) as [IH1 IH2]. split; [|exact IH2].
    intros r Hr. apply elem_of_cons in Hr as [->|Hr]; [|apply IH1, Hr].
    rewrite List.Forall_forall in Hx. apply Hx, in_elt.
Qed.

(** The sort value of a blank text or number cell is the least of its
    kind: a value that is not larger, and not NaN, is that value. *)
Lemma blank_value_least (least v : PyVal.value) :
  least = PyVal.VStr "" \/ least = PyVal.VFloat PyVal.neg_inf ->
  v <> PyVal.VFloat S754_nan ->
  PyVal.value_eqb least v = true \/ PyVal.value_lt least v = Ok false ->
  v = least.
Proof.
  intros [-> | ->] Hnan H.
  - destruct v as [s|f|d]; simpl in H;
      try (destruct H as [H|H]; discriminate).
    destruct s as [|c s]; [reflexivity|].
    destruct H as [H|H]; [discriminate|]. vm_compute in H. discriminate.
  - destruct v as [s|f|d]; simpl in H;
      try (destruct H as [H|H]; discriminate).
    destruct f as [sg|[|]| |sg m e]; try reflexivity; try congruence;
      destruct H as [H|H]; vm_compute in H; discriminate.
Qed.

Section WhatTheOrderDependsOn.

Variable py_float : string -> option spec_float.
Variable date_parse : string -> option PyVal.datetime.

Abbreviation sort_value := (sort_value py_float date_parse).
Abbreviation detect_field_type := (detect_field_type py_float date_parse).
Abbreviation resolve_field_types := (resolve_field_types py_float date_parse).
Abbreviation sort_key := (sort_key py_float date_parse).
Abbreviation sort_rows := (sort_rows py_float date_parse).
Abbreviation sort_csv_file := (sort_csv_file py_float date_parse).

(** X20.  With declared types, the order of the rows written depends on
    the cells of the sort columns only: changing the rows in any way that
    keeps these cells (other cells changed, short rows filled up with empty
    cells) changes the output rows in the same way and leaves them in the
    same places; and the sort fails on the changed rows as on the rows. *)
Theorem sort_rows_other_cells common header data sort_config (g : row -> row) :
  no_auto common ->
  (forall r f i, r ∈ data -> f ∈ common -> index (Field.name f) header = Ok i ->
     default "" (g r !! i) = default "" (r !! i)) ->
  sort_rows common header (g <$> data) sort_config
  = fmap (M := result) (fmap g) (sort_rows common header data sort_config).
Proof.
  intros Hno Hg. unfold sort_rows.
  rewrite !(resolve_field_types_declared py_float date_parse _ _ _ _ Hno).
  cbn [mbind result_bind]. apply sorted_fmap.
  intros r Hr. set (field_types := foldl _ ∅ common). clearbody field_types.
  assert (forall f i, f ∈ common -> index (Field.name f) header = Ok i ->
            default "" (g r !! i) = default "" (r !! i)) as Hcells
    by (intros f i; apply Hg, Hr).
  clear Hg Hno. induction common as [|f common IH]; [reflexivity|].
  cbn [sort_key]. rewrite IH by (intros f' i Hf'; apply Hcells; right; exact Hf').
  destruct (index (Field.name f) header) as [i|e] eqn:Hi; [|reflexivity].
  cbn [mbind result_bind]. rewrite (Hcells f i) by (left || exact Hi).
  reflexivity.
Qed.

(** X21.  Type detection reads the first 100 data rows and no other: two
    files that agree on these rows get the same field types, or fail in the
    same way. *)
Theorem resolve_field_types_first_100 header data data' common field_types :
  take 100 data = take 100 data' ->
  resolve_field_types header data common field_types
  = resolve_field_types header data' common field_types.
Proof.
  intros H. revert field_types.
  induction common as [|f common IH]; intros field_types; [reflexivity|].
  cbn [resolve_field_types]. rewrite H.
  destruct (String.eqb (Field.type f) "auto"); [|apply IH].
  destruct (index _ header); [|reflexivity]. cbn [mbind result_bind].
  destruct (mapM _ _); [|reflexivity]. cbn [mbind result_bind]. apply IH.
Qed.

(** X22.  Empty cells sort first.  When the first sort field is text or
    number and no sort value is NaN, a row whose cell in that column is blank
    is written, in ascending order, behind no row with another sort value in
    that column: every row before it has the sort value of a blank cell too
    (a blank cell or, for a number, one that [float] rejects or reads as
    minus infinity).  In descending order the same holds for the rows after
    it. *)
Theorem blank_cells_first f rest header data sort_config field_types keys
    (t : string) (i : nat) (l1 l2 : list row) (a : row) :
  resolve_field_types header data (f :: rest) ∅ = Ok field_types ->
  field_types !! Field.name f = Some t -> t = "text" \/ t = "number" ->
  index (Field.name f) header = Ok i ->
  mapM (sort_key header field_types (f :: rest)) data = Ok keys ->
  Forall nan_free keys ->
  sort_rows (f :: rest) header data sort_config = Ok (l1 ++ a :: l2) ->
  PyStr.strip (default "" (a !! i)) = "" ->
  forall r,
    r ∈ (if String.eqb (SortConfig.order sort_config) "desc" then l2 else l1) ->
    sort_value (default "" (r !! i)) t = sort_value "" t.
Proof.
  intros Hft Ht Htype Hi Hkeys Hnan Hout Hblank r Hr.
  pose proof (sort_rows_StronglySorted py_float date_parse _ _ _ _ _ _ _
                Hft Hkeys Hnan Hout) as Hs.
  apply StronglySorted_middle in Hs as [Hbefore Hafter].
  set (key := sort_key header field_types (f :: rest)) in *.
  set (least := sort_value "" t).
  assert (sort_value (default "" (a !! i)) t = least) as Ha.
  { unfold least, sort_value. rewrite blank_strip, Hblank. reflexivity. }
  assert (least = PyVal.VStr "" \/ least = PyVal.VFloat PyVal.neg_inf) as Hleast.
  { unfold least. destruct Htype as [-> | ->]; [left | right]; reflexivity. }
  assert (exists ka kr, key a = Ok (least :: ka)
            /\ key r = Ok (sort_value (default "" (r !! i)) t :: kr)
            /\ nan_free (sort_value (default "" (r !! i)) t :: kr)
            /\ PyVal.tuple_lt (least :: ka) (sort_value (default "" (r !! i)) t :: kr)
               = Ok false) as (ka & kr & _ & _ & Hnr & Hlt).
  { assert (in_order key (String.eqb (SortConfig.order sort_config) "desc")
              (if String.eqb (SortConfig.order sort_config) "desc" then a else r)
              (if String.eqb (SortConfig.order sort_config) "desc" then r else a))
      as (kx & ky & Hx & Hy & Hlt).
    { destruct (String.eqb (SortConfig.order sort_config) "desc");
        [apply Hafter | apply Hbefore]; exact Hr. }
    assert (forall x k, key x = Ok k ->
              exists k', k = sort_value (default "" (x !! i)) t :: k') as Hhead.
    { intros x k Hk. eapply sort_key_head; eassumption. }
    assert (a ∈ data) as Hadata.
    { apply (sort_rows_inv py_float date_parse) in Hout as (ft & _ & Hout).
      apply sorted_Permutation in Hout. rewrite <- Hout.
      apply elem_of_app. right. left. }
    assert (forall x k, x ∈ data -> key x = Ok k -> nan_free k) as Hfree.
    { intros x k Hxd Hk. apply mapM_Ok_Forall2 in Hkeys.
      clear - Hkeys Hnan Hxd Hk. induction Hkeys as [|z kz data keys Hz _ IH];
        [inversion Hxd|].
      apply Forall_cons in Hnan as [Hkz Hnan].
      apply elem_of_cons in Hxd as [->|Hxd]; [congruence | auto]. }
    assert (r ∈ data) as Hrdata.
    { apply (sort_rows_inv py_float date_parse) in Hout as (ft & _ & Hout).
      apply sorted_Permutation in Hout. rewrite <- Hout.
      apply elem_of_app. destruct (String.eqb _ "desc");
        [right; right; exact Hr | left; exact Hr]. }
    destruct (String.eqb (SortConfig.order sort_config) "desc").
    - destruct (Hhead _ _ Hx) as [ka ->], (Hhead _ _ Hy) as [kr ->].
      rewrite Ha in *. exists ka, kr. eauto using Hfree.
    - destruct (Hhead _ _ Hx) as [kr ->], (Hhead _ _ Hy) as [ka ->].
      rewrite Ha in *. exists ka, kr. eauto using Hfree. }
  apply (blank_value_least least); [exact Hleast | |].
  - apply Forall_inv in Hnr. exact Hnr.
  - cbn [PyVal.tuple_lt] in Hlt.
    destruct (PyVal.value_eqb least _); [left; reflexivity | right; exact Hlt].
Qed.

End WhatTheOrderDependsOn.

Lemma sort_rows_other_cells_witness :
  sort_rows float_fragment date_fragment [Field.Make "B" "text" "asc"]
    ["A"; "B"] ((fun r : row => r ++ replicate (2 - length r) "") <$> [["1"; "x"]; ["2"]])
    short_row_config
  = fmap (M := result) (fmap (fun r : row => r ++ replicate (2 - length r) ""))
      (sort_rows float_fragment date_fragment [Field.Make "B" "text" "asc"]
         ["A"; "B"] [["1"; "x"]; ["2"]] short_row_config).
Proof.
  apply (sort_rows_other_cells float_fragment date_fragment
           [Field.Make "B" "text" "asc"] ["A"; "B"] [["1"; "x"]; ["2"]]
           short_row_config (fun r : row => r ++ replicate (2 - length r) "")).
  - repeat constructor. discriminate.
  - intros r f i _ _ _. apply lookup_padded.
Defined.

Lemma resolve_field_types_first_100_witness :
  resolve_field_types float_fragment date_fragment ["K"] numbers_first [auto_field] ∅
  = resolve_field_types float_fragment date_fragment ["K"] (replicate 100 ["5"])
      [auto_field] ∅.
Proof.
  apply (resolve_field_types_first_100 float_fragment date_fragment ["K"]
           numbers_first (replicate 100 ["5"]) [auto_field] ∅).
  vm_compute. reflexivity.
Defined.

Lemma blank_cells_first_witness :
  sort_value float_fragment date_fragment (default "" ([""; "2"] !! 0)) "text"
  = sort_value float_fragment date_fragment "" "text".
Proof.
  apply (blank_cells_first float_fragment date_fragment reward_field []
           ["REWARD_CODE"; "AMOUNT"] [["B"; "10"]; [""; "2"]; [" "; "1"]]
           reward_config reward_field_types
           [[PyVal.VStr "b"]; [PyVal.VStr ""]; [PyVal.VStr ""]]
           "text" 0 [[""; "2"]] [["B"; "10"]] [" "; "1"]).
  - vm_compute. reflexivity.
  - vm_compute. reflexivity.
  - left. reflexivity.
  - reflexivity.
  - vm_compute. reflexivity.
  - repeat constructor; discriminate.
  - vm_compute. reflexivity.
  - reflexivity.
  - vm_compute. left.
Defined.
